(** * Dynamic Course Generator: assessment engine, generation pipeline and
    the UI components that consume them.

    Shallow embedding of the Python back end as it is written down in
    DOCUMENTATION.md (quiz_service.py, llm_service.py, models.py) and of the
    React components of the front end.

    Conventions.
    - A Python [float] score is a rational [Q]: every finite float is a
      rational, and the comparisons against 50.0, 70.0 and 85.0 agree with
      the comparisons of the rationals.  Rounding is outside the model.
    - A Python exception is [None].
    - A Python [dict] and a JS object used as a map are [gmap string _]. *)

From Stdlib Require Import QArith Qminmax Lqa.
From Stdlib Require Import Ascii String DecimalString.
From stdpp Require Import gmap strings list fin_maps.

Local Open Scope string_scope.
Local Open Scope list_scope.
Local Open Scope nat_scope.

(** Strict comparison on rationals, as a boolean. *)
Definition Qlt_bool (x y : Q) : bool := negb (Qle_bool y x).

(* ===================================================================== *)
(** ** models.py *)
(* ===================================================================== *)

Module Models.

(** [class Difficulty(str, Enum)] *)
Inductive Difficulty : Type := EASY | MEDIUM | HARD.

(** [class BloomLevel(str, Enum)] *)
Inductive BloomLevel : Type :=
  REMEMBER | UNDERSTAND | APPLY | ANALYZE | EVALUATE | CREATE.

#[export] Instance Difficulty_eq_dec : EqDecision Difficulty.
Proof. solve_decision. Defined.

#[export] Instance BloomLevel_eq_dec : EqDecision BloomLevel.
Proof. solve_decision. Defined.



(** Position in the total order of the data model: low < medium < high and
    tier 0 .. tier 5. *)
Definition tier_rank (d : Difficulty) : nat :=
  match d with EASY => 0 | MEDIUM => 1 | HARD => 2 end.

Definition level_rank (b : BloomLevel) : nat :=
  match b with
  | REMEMBER => 0 | UNDERSTAND => 1 | APPLY => 2
  | ANALYZE => 3 | EVALUATE => 4 | CREATE => 5
  end.

(** [class QuizQuestion] with the fields of section 12.2. *)
Record QuizQuestion : Type := mkQuizQuestion {
  question_id : string;
  question : string;
  options : list string;
  correct_answer : string;
  difficulty : Difficulty;
  bloom_level : BloomLevel;
  explanation : string
}.

End Models.

Export Models.

(* ===================================================================== *)
(** ** quiz_service.py *)
(* ===================================================================== *)

Module QuizService.

Definition PASS_THRESHOLD : Q := 70.
Definition MASTERY_THRESHOLD : Q := 85.
Definition STRUGGLING_THRESHOLD : Q := 50.

(** [list.index(x)]: position of the first occurrence, [None] for the
    ValueError of an absent element. *)
Fixpoint list_index {A : Type} `{EqDecision A} (x : A) (l : list A) : option nat :=
  match l with
  | [] => None
  | y :: l' => if decide (x = y) then Some 0 else S <$> list_index x l'
  end.

Definition difficulty_order : list Difficulty := [EASY; MEDIUM; HARD].

(** [calculate_new_difficulty(current_difficulty, score)], section 11.1. *)
Definition calculate_new_difficulty (current_difficulty : Difficulty) (score : Q)
  : option Difficulty :=
  current_index ← list_index current_difficulty difficulty_order;
  if Qle_bool 85 score then
    if current_index <? 2 then difficulty_order !! (current_index + 1)
    else Some current_difficulty
  else if Qlt_bool score 50 then
    if 0 <? current_index then difficulty_order !! (current_index - 1)
    else Some current_difficulty
  else Some current_difficulty.

Definition bloom_order : list BloomLevel :=
  [REMEMBER; UNDERSTAND; APPLY; ANALYZE; EVALUATE; CREATE].

(** Modelled from the spec: the body of
    [calculate_new_bloom_level(current_bloom, score, passed)] is not in the
    sources, only its signature and the rule of section 10.4 (score >= 85
    moves up one level, score < 50 moves down one level, otherwise the level
    stays), "similar thresholds to difficulty adjustment".  The model follows
    the shape of [calculate_new_difficulty]; [passed] is taken and not
    consulted, as the rule depends on the score alone. *)
Definition calculate_new_bloom_level (current_bloom : BloomLevel) (score : Q)
  (passed : bool) : option BloomLevel :=
  current_index ← list_index current_bloom bloom_order;
  if Qle_bool MASTERY_THRESHOLD score then
    if current_index <? 5 then bloom_order !! (current_index + 1)
    else Some current_bloom
  else if Qlt_bool score STRUGGLING_THRESHOLD then
    if 0 <? current_index then bloom_order !! (current_index - 1)
    else Some current_bloom
  else Some current_bloom.

(** The dict returned by [calculate_mastery_level]. *)
Record Mastery : Type := mkMastery {
  level : string;
  color : string
}.

(** [calculate_mastery_level(best_score, quiz_attempts)], section 11.3. *)
Definition calculate_mastery_level (best_score : Q) (quiz_attempts : nat) : Mastery :=
  if quiz_attempts =? 0 then mkMastery "Not Started" "gray"
  else if Qle_bool 85 best_score then mkMastery "Mastered" "emerald"
  else if Qle_bool 70 best_score then mkMastery "Proficient" "blue"
  else if Qle_bool 50 best_score then mkMastery "Developing" "amber"
  else mkMastery "Needs Practice" "rose".

(** One entry of the feedback list built by [grade_quiz]. *)
Record Feedback : Type := mkFeedback {
  fb_question_id : string;
  fb_user_answer : string;
  fb_correct_answer : string;
  fb_is_correct : bool;
  fb_explanation : string
}.

(** [answers.get(key, "")] *)
Definition dict_get (answers : gmap string string) (key : string) : string :=
  default "" (answers !! key).

(** The [for question in questions] loop of [grade_quiz], with the two
    variables it updates ([correct_count] and [feedback]) passed along. *)
Fixpoint grade_loop (questions : list QuizQuestion) (answers : gmap string string)
  (correct_count : nat) (feedback : list Feedback) : nat * list Feedback :=
  match questions with
  | [] => (correct_count, feedback)
  | q :: rest =>
      let user_answer := dict_get answers (question_id q) in
      let is_correct := String.eqb user_answer (correct_answer q) in
      let correct_count := if is_correct then S correct_count else correct_count in
      grade_loop rest answers correct_count
        (feedback ++ [mkFeedback (question_id q) user_answer (correct_answer q)
                        is_correct (explanation q)])
  end.

(** The result tuple [(score, correct_count, len(questions), feedback)]. *)
Record GradeResult : Type := mkGradeResult {
  score : Q;
  correct_count : nat;
  total : nat;
  feedback : list Feedback
}.

(** [grade_quiz(questions, answers)], section 12.3.  The division raises
    ZeroDivisionError on an empty question list. *)
Definition grade_quiz (questions : list QuizQuestion) (answers : gmap string string)
  : option GradeResult :=
  let '(correct_count, feedback) := grade_loop questions answers 0 [] in
  if length questions =? 0 then None
  else
    let score := ((inject_Z (Z.of_nat correct_count)
                   / inject_Z (Z.of_nat (length questions))) * 100)%Q in
    Some (mkGradeResult score correct_count (length questions) feedback).

(** The dict the loop of [grade_quiz] appends for one question. *)
Definition feedback_entry (answers : gmap string string) (q : QuizQuestion) : Feedback :=
  mkFeedback (question_id q) (dict_get answers (question_id q)) (correct_answer q)
    (String.eqb (dict_get answers (question_id q)) (correct_answer q))
    (explanation q).

(** Number of entries marked correct. *)
Definition count_correct (fb : list Feedback) : nat :=
  length (List.filter fb_is_correct fb).

(** The submission has an answer under an identifier that no question of
    the quiz carries. *)
Definition references_unknown_question (questions : list QuizQuestion)
  (answers : gmap string string) : Prop :=
  exists k, is_Some (answers !! k) /\ ~ In k (map question_id questions).

(** Modelled from the spec: [process_quiz_submission] is not in the sources;
    the [passed] field of the QuizResult it builds is "score >=
    PASS_THRESHOLD", with the constant [PASS_THRESHOLD = 70.0] of
    quiz_service.py. *)
Definition passed (score : Q) : bool := Qle_bool PASS_THRESHOLD score.

End QuizService.

Export QuizService.

(* ===================================================================== *)
(** ** storage.py: the per-lesson progress record and its update *)
(* ===================================================================== *)

Module Progress.

(** One entry of [attempt_history] (progress schema, section 6.3). *)
Record Attempt : Type := mkAttempt {
  attempt_number : nat;
  attempt_score : Q;
  attempt_passed : bool;
  attempt_feedback : option string;
  timestamp : string
}.

(** [class LessonProgress] (progress schema, section 6.3). *)
Record LessonProgress : Type := mkLessonProgress {
  lesson_id : string;
  completed : bool;
  quiz_attempts : nat;
  best_score : Q;
  current_difficulty : Difficulty;
  current_bloom_level : BloomLevel;
  smoothed_score : Q;
  attempt_history : list Attempt
}.

(** Smoothing factor of section 11.2. *)
Definition ALPHA : Q := 3 # 10.

(** Section 11.2:
    [new_score = alpha * current_result + (1 - alpha) * previous_score],
    with [current_result] on the 0-1 scale. *)
Definition exponential_smoothing (previous_score current_result : Q) : Q :=
  (ALPHA * current_result + (1 - ALPHA) * previous_score)%Q.

(** Python's [max(a, b)] on two numbers: [b] when [b > a], else [a]. *)
Definition py_max (a b : Q) : Q := if Qlt_bool a b then b else a.

(** Modelled from the spec: [update_lesson_progress(course_id, module_id,
    lesson_id, score, ...)] is declared in storage.py and its body is not
    in the sources.  Per attempt: the attempt is appended to the history,
    the best score becomes the maximum of the previous best and the new
    score, the smoothed score is set to score/100 on the first attempt and
    to the exponential moving average afterwards, and the difficulty tier
    and the cognitive level move by the threshold policy on the raw
    score. *)
Definition update_lesson_progress (p : LessonProgress) (score : Q) (now : string)
  : LessonProgress :=
  let result := (score / 100)%Q in
  {| lesson_id := lesson_id p;
     completed := completed p;
     quiz_attempts := S (quiz_attempts p);
     best_score := py_max (best_score p) score;
     current_difficulty :=
       default (current_difficulty p)
         (calculate_new_difficulty (current_difficulty p) score);
     current_bloom_level :=
       default (current_bloom_level p)
         (calculate_new_bloom_level (current_bloom_level p) score (passed score));
     smoothed_score :=
       if quiz_attempts p =? 0 then result
       else exponential_smoothing (smoothed_score p) result;
     attempt_history :=
       attempt_history p ++
       [mkAttempt (S (quiz_attempts p)) score (passed score) None now] |}.

(** The record after a run of graded attempts, oldest first. *)
Definition record_attempts (p : LessonProgress) (scores : list Q) (now : string)
  : LessonProgress :=
  foldl (fun p score => update_lesson_progress p score now) p scores.

(** Modelled from the spec: the record "created lazily on first quiz
    attempt for that lesson", before any attempt is recorded. *)
Definition new_lesson_progress (id : string) (d : Difficulty) (b : BloomLevel)
  : LessonProgress :=
  mkLessonProgress id false 0 0 d b 0 [].

(** The mastery classification is computed from the record when it is
    read; the record has no field for it. *)
Definition mastery (p : LessonProgress) : Mastery :=
  calculate_mastery_level (best_score p) (quiz_attempts p).

End Progress.

Export Progress.

(* ===================================================================== *)
(** ** llm_service.py: the retry loop *)
(* ===================================================================== *)

Module LlmService.

Definition MAX_RETRIES : nat := 3.

(** Typed outcomes of one Generation Client call that is not a response. *)
Inductive TransportFailure : Type :=
  Timeout | AuthFailure | RateLimited | TransportError.

(** What the orchestrator does to the outside world. *)
Inductive Effect : Type :=
| GenerationCall (attempt : nat)
| BackoffDelay (seconds : nat).

Definition is_generation_call (e : Effect) : bool :=
  match e with GenerationCall _ => true | BackoffDelay _ => false end.

(** Result of the pipeline: a validated value, or exhaustion with the last
    raw response. *)
Inductive Outcome (Value : Type) : Type :=
| Validated (v : Value)
| GenerationExhausted (last_raw : option string).

Arguments Validated {Value} v.
Arguments GenerationExhausted {Value} last_raw.

Section RetryOrchestrator.

Context {Prompt Shape Decoded Value : Type}.

(** The Generation Client: the outcome of the [attempt]-th call for a
    prompt.  The same prompt can give different text on different calls,
    hence the attempt number. *)
Variable generation_client : Prompt -> nat -> TransportFailure + string.
(** The Text Repair Unit and the Schema Validator. *)
Variable text_repair : string -> option Decoded.
Variable schema_validator : Shape -> Decoded -> option Value.

(** One attempt's response passes when it can be repaired and the decoded
    value validates. *)
Definition repair_and_validate (shape : Shape) (text : string) : option Value :=
  text_repair text ≫= schema_validator shape.

(** Modelled from the spec: the body of [call_llm_with_retry] is not in the
    sources.  "For attempt 1..maxAttempts: call Generation Client; on
    transport failure, continue to next attempt immediately; on success,
    feed response text through Text Repair Unit, then Schema Validator; if
    both succeed, return immediately.  If all attempts exhausted, return an
    exhaustion failure carrying the last raw response."  [remaining] counts
    the attempts left, [attempt] is the number of the next one, [trace]
    the effects so far. *)
Fixpoint retry_loop (prompt : Prompt) (shape : Shape) (remaining attempt : nat)
  (last_raw : option string) (trace : list Effect)
  : Outcome Value * list Effect :=
  match remaining with
  | O => (GenerationExhausted last_raw, trace)
  | S remaining' =>
      let trace := trace ++ [GenerationCall attempt] in
      match generation_client prompt attempt with
      | inl _ => retry_loop prompt shape remaining' (S attempt) last_raw trace
      | inr text =>
          match repair_and_validate shape text with
          | Some v => (Validated v, trace)
          | None => retry_loop prompt shape remaining' (S attempt) (Some text) trace
          end
      end
  end.

(** Modelled from the spec: [generateValidated(prompt, shape, maxAttempts)]
    of section 4.4, the loop started at attempt 1 with an empty trace. *)
Definition generateValidated (prompt : Prompt) (shape : Shape) (maxAttempts : nat)
  : Outcome Value * list Effect :=
  retry_loop prompt shape maxAttempts 1 None [].

(** Modelled from the spec: [call_llm_with_retry] is declared with its
    docstring only ("MAX_RETRIES attempts, JSON validation on each
    attempt"): the pipeline with [MAX_RETRIES] attempts. *)
Definition call_llm_with_retry (prompt : Prompt) (shape : Shape)
  : Outcome Value * list Effect :=
  generateValidated prompt shape MAX_RETRIES.

(** The [attempt]-th call gives a response that passes. *)
Definition attempt_passes (prompt : Prompt) (shape : Shape) (attempt : nat)
  (v : Value) : Prop :=
  exists text, generation_client prompt attempt = inr text
               /\ repair_and_validate shape text = Some v.

(** The [attempt]-th call fails: transport failure, or text that does not
    pass repair and validation. *)
Definition attempt_fails (prompt : Prompt) (shape : Shape) (attempt : nat) : Prop :=
  match generation_client prompt attempt with
  | inl _ => True
  | inr text => repair_and_validate shape text = None
  end.

End RetryOrchestrator.

(** Number of Generation Client calls in a trace. *)
Definition generation_calls (trace : list Effect) : nat :=
  length (filter (fun e => is_generation_call e = true) trace).

(** The calls numbered [first], [first + 1], ..., [count] of them. *)
Definition calls_from (first count : nat) : list Effect :=
  map GenerationCall (seq first count).

End LlmService.

Export LlmService.

(* ===================================================================== *)
(** ** llm_service.py: [validate_json], the text repair cascade *)
(* ===================================================================== *)

Module TextRepair.

(** Text is a list of characters. *)
Abbreviation text := (list ascii).

Definition quote_char : ascii := "034"%char.
Definition backslash_char : ascii := "\"%char.
Definition newline_char : ascii := "010"%char.

(** A decoded JSON value.  A number keeps its literal. *)
#[warnings="-register-all"]
Inductive Json : Type :=
| JNull
| JBool (b : bool)
| JNumber (literal : string)
| JString (s : string)
| JArray (items : list Json)
| JObject (members : list (string * Json)).

(** Escaping inside a string literal: the quote and the backslash are
    preceded by a backslash, a newline is written backslash-n. *)
Definition escape_char (c : ascii) : text :=
  if Ascii.eqb c quote_char then [backslash_char; quote_char]
  else if Ascii.eqb c backslash_char then [backslash_char; backslash_char]
  else if Ascii.eqb c newline_char then [backslash_char; "n"%char]
  else [c].

Definition string_literal (s : string) : text :=
  quote_char :: concat (map escape_char (list_ascii_of_string s)) ++ [quote_char].

(** The two separators of [json.dumps(obj, separators=(item, key))]. *)
Record Separators : Type := mkSeparators {
  item_separator : text;
  key_separator : text
}.

(** [json.dumps] defaults, and the compact form. *)
Definition default_separators : Separators :=
  mkSeparators (list_ascii_of_string ", ") (list_ascii_of_string ": ").
Definition compact_separators : Separators :=
  mkSeparators (list_ascii_of_string ",") (list_ascii_of_string ":").

(** [sep.join(parts)] *)
Fixpoint join (sep : text) (parts : list text) : text :=
  match parts with
  | [] => []
  | x :: parts' =>
      x ++ match parts' with [] => [] | _ :: _ => sep ++ join sep parts' end
  end.

(** Serialization of a JSON value. *)
Fixpoint dumps (sep : Separators) (v : Json) : text :=
  match v with
  | JNull => list_ascii_of_string "null"
  | JBool true => list_ascii_of_string "true"
  | JBool false => list_ascii_of_string "false"
  | JNumber literal => list_ascii_of_string literal
  | JString s => string_literal s
  | JArray items =>
      "["%char :: join (item_separator sep) (map (dumps sep) items) ++ ["]"%char]
  | JObject members =>
      "{"%char ::
      join (item_separator sep)
        (map (fun '(k, x) => string_literal k ++ key_separator sep ++ dumps sep x)
           members)
      ++ ["}"%char]
  end.

(** Characters of a number literal. *)
Definition number_char (c : ascii) : bool :=
  existsb (Ascii.eqb c) (list_ascii_of_string "0123456789-+.eE").

(** Characters that open, close or quote. *)
Definition is_open (c : ascii) : bool :=
  Ascii.eqb c "["%char || Ascii.eqb c "{"%char.
Definition is_close (c : ascii) : bool :=
  Ascii.eqb c "]"%char || Ascii.eqb c "}"%char.
Definition closes (o c : ascii) : bool :=
  (Ascii.eqb o "["%char && Ascii.eqb c "]"%char)
  || (Ascii.eqb o "{"%char && Ascii.eqb c "}"%char).

(** A character that is no bracket and no quote. *)
Definition neutral (c : ascii) : bool :=
  negb (is_open c || is_close c || Ascii.eqb c quote_char).

(** JSON white space: space, tab, line feed, carriage return. *)
Definition is_ws (c : ascii) : bool :=
  Ascii.eqb c " "%char || Ascii.eqb c "009"%char
  || Ascii.eqb c "010"%char || Ascii.eqb c "013"%char.

Fixpoint skip_ws (t : text) : text :=
  match t with
  | [] => []
  | c :: t' => if is_ws c then skip_ws t' else t
  end.

(** A separator is its mark with optional white space on both sides. *)
Definition is_separator (mark : ascii) (s : text) : bool :=
  match skip_ws s with
  | [] => false
  | c :: w => Ascii.eqb c mark && forallb is_ws w
  end.

Definition separators_wf (sep : Separators) : bool :=
  is_separator ","%char (item_separator sep)
  && is_separator ":"%char (key_separator sep).

(** Well-formed value: every number literal is a non-empty run of number
    characters. *)
Fixpoint json_wf (v : Json) : bool :=
  match v with
  | JNull | JBool _ | JString _ => true
  | JNumber literal =>
      negb (String.eqb literal "")
      && forallb number_char (list_ascii_of_string literal)
  | JArray items => forallb json_wf items
  | JObject members => forallb (fun '(_, x) => json_wf x) members
  end.

Definition is_container (v : Json) : bool :=
  match v with JArray _ | JObject _ => true | _ => false end.

(** State of the bracket scan: in code, inside a string literal, or right
    after a backslash inside a string literal. *)
Inductive ScanMode : Type := InCode | InString | InEscape.

(** Modelled from the spec: the extraction code of [validate_json] is not
    in the sources.  "Matching nested brackets, ignoring brackets inside
    string literals": the scan keeps the stack of the brackets that are
    open and the string state, and returns the number of characters up to
    and including the bracket that closes the span; [None] when a bracket
    does not match or the text ends first. *)
Fixpoint balanced_end (stack : list ascii) (mode : ScanMode) (t : text) : option nat :=
  match t with
  | [] => None
  | c :: rest =>
      match mode with
      | InEscape => S <$> balanced_end stack InString rest
      | InString =>
          if Ascii.eqb c backslash_char then S <$> balanced_end stack InEscape rest
          else if Ascii.eqb c quote_char then S <$> balanced_end stack InCode rest
          else S <$> balanced_end stack InString rest
      | InCode =>
          if Ascii.eqb c quote_char then S <$> balanced_end stack InString rest
          else if is_open c then S <$> balanced_end (c :: stack) InCode rest
          else if is_close c then
            match stack with
            | [] => None
            | o :: stack' =>
                if closes o c then
                  match stack' with
                  | [] => Some 1
                  | _ :: _ => S <$> balanced_end stack' InCode rest
                  end
                else None
            end
          else S <$> balanced_end stack InCode rest
      end
  end.

(** Modelled from the spec: the balanced span that starts at the head of
    the text, an opening bracket with an empty stack. *)
Definition balanced_span (t : text) : option text :=
  n ← balanced_end [] InCode t; Some (take n t).

(** Modelled from the spec: "locate the first balanced [...] or {...}
    span": the opening brackets are tried from left to right, and the first
    one that starts a balanced span gives the span. *)
Fixpoint first_balanced_span (t : text) : option text :=
  match t with
  | [] => None
  | c :: rest =>
      if is_open c then
        match balanced_span t with
        | Some span => Some span
        | None => first_balanced_span rest
        end
      else first_balanced_span rest
  end.

(** Add [n] to the position a scan reports. *)
Definition shift (n : nat) (o : option nat) : option nat := (fun k => n + k) <$> o.

(** A piece of text is passed through when a scan that meets it in code,
    inside at least one open bracket, comes out of it in code with the same
    stack. *)
Definition passed_through (x : text) : Prop :=
  forall stack rest, stack <> [] ->
    balanced_end stack InCode (x ++ rest)
    = shift (length x) (balanced_end stack InCode rest).

(** An ordered "first success" combinator. *)
Fixpoint first_success {A B : Type} (stages : list (A -> option B)) (x : A)
  : option B :=
  match stages with
  | [] => None
  | stage :: stages' =>
      match stage x with
      | Some y => Some y
      | None => first_success stages' x
      end
  end.

(** Outcome of the unit: the decoded value, or failure with a copy of the
    offending text. *)
Inductive RepairResult : Type :=
| Repaired (v : Json)
| RepairFailed (offending : text).

Section Cascade.

(** [json.loads], [None] for a JSONDecodeError. *)
Variable decode : text -> option Json.
(** The stages whose code is not in the sources and that the extraction
    property does not depend on. *)
Variable trim : text -> text.
Variable cleanup : text -> text.
Variable truncation_repair : text -> option text.
Variable pattern_reconstruction : text -> option Json.

(** Modelled from the spec: stage 1, "direct decode of the trimmed text". *)
Definition direct_stage (t : text) : option Json := decode (trim t).

(** Modelled from the spec: stage 2, cleanup, then decode. *)
Definition cleanup_stage (t : text) : option Json := decode (cleanup t).

(** Modelled from the spec: stage 3, "locate the first balanced span and
    decode that span alone". *)
Definition extraction_stage (t : text) : option Json :=
  first_balanced_span t ≫= decode.

(** Modelled from the spec: stage 4, truncation repair, then decode. *)
Definition truncation_stage (t : text) : option Json :=
  truncation_repair t ≫= decode.

(** Modelled from the spec: stage 5, pattern reconstruction, which builds
    the value itself. *)
Definition pattern_stage (t : text) : option Json := pattern_reconstruction t.

(** Modelled from the spec: the body of [validate_json] is not in the
    sources.  "Layered strategy, attempted in order, first success wins",
    each stage on the raw text. *)
Definition repair_stages : list (text -> option Json) :=
  [direct_stage; cleanup_stage; extraction_stage; truncation_stage; pattern_stage].

(** Modelled from the spec: [validate_json(response)], the first success
    of the stages, or failure "with a copy of the offending text". *)
Definition validate_json (response : text) : RepairResult :=
  match first_success repair_stages response with
  | Some v => Repaired v
  | None => RepairFailed response
  end.

End Cascade.

(** *** A decoder

    [json.loads] belongs to Python's library.  The extraction stage takes
    the decoder as a parameter; [json_loads] is a decoder for the texts
    that [dumps] writes, used to run the stage. *)

Definition unescape_char (e : ascii) : option ascii :=
  if Ascii.eqb e quote_char then Some quote_char
  else if Ascii.eqb e backslash_char then Some backslash_char
  else if Ascii.eqb e "n"%char then Some newline_char
  else None.

(** The characters of a string literal after its opening quote, and the
    text after its closing quote. *)
Fixpoint parse_string_body (t : text) : option (list ascii * text) :=
  match t with
  | [] => None
  | c :: t' =>
      if Ascii.eqb c quote_char then Some ([], t')
      else if Ascii.eqb c backslash_char then
        match t' with
        | [] => None
        | e :: t'' =>
            match unescape_char e, parse_string_body t'' with
            | Some x, Some (s, r) => Some (x :: s, r)
            | _, _ => None
            end
        end
      else
        match parse_string_body t' with
        | Some (s, r) => Some (c :: s, r)
        | None => None
        end
  end.

(** The longest run of number characters at the head of the text. *)
Fixpoint span_number (t : text) : text * text :=
  match t with
  | [] => ([], [])
  | c :: t' =>
      if number_char c then let '(n, r) := span_number t' in (c :: n, r)
      else ([], t)
  end.

(** The text after the prefix [p], when the text starts with it. *)
Fixpoint strip_prefix (p t : text) : option text :=
  match p with
  | [] => Some t
  | a :: p' =>
      match t with
      | [] => None
      | b :: t' => if Ascii.eqb a b then strip_prefix p' t' else None
      end
  end.

(** The elements of an array after the first has been found to be there:
    a value, then a comma and more, or the closing bracket. *)
Fixpoint parse_elements (pv : text -> option (Json * text)) (fuel : nat) (t : text)
  : option (list Json * text) :=
  match fuel with
  | O => None
  | S fuel' =>
      match pv t with
      | None => None
      | Some (v, r) =>
          match skip_ws r with
          | [] => None
          | c :: r' =>
              if Ascii.eqb c ","%char then
                match parse_elements pv fuel' r' with
                | Some (vs, r'') => Some (v :: vs, r'')
                | None => None
                end
              else if Ascii.eqb c "]"%char then Some ([v], r')
              else None
          end
      end
  end.

(** The members of an object: a key, a colon, a value, then a comma and
    more, or the closing brace. *)
Fixpoint parse_members (pv : text -> option (Json * text)) (fuel : nat) (t : text)
  : option (list (string * Json) * text) :=
  match fuel with
  | O => None
  | S fuel' =>
      match skip_ws t with
      | [] => None
      | q :: t1 =>
          if Ascii.eqb q quote_char then
            match parse_string_body t1 with
            | None => None
            | Some (k, t2) =>
                match skip_ws t2 with
                | [] => None
                | c :: t3 =>
                    if Ascii.eqb c ":"%char then
                      match pv t3 with
                      | None => None
                      | Some (v, r) =>
                          match skip_ws r with
                          | [] => None
                          | d :: r' =>
                              if Ascii.eqb d ","%char then
                                match parse_members pv fuel' r' with
                                | Some (kvs, r'') =>
                                    Some ((string_of_list_ascii k, v) :: kvs, r'')
                                | None => None
                                end
                              else if Ascii.eqb d "}"%char
                                   then Some ([(string_of_list_ascii k, v)], r')
                              else None
                          end
                      end
                    else None
                end
            end
          else None
      end
  end.

(** One value at the head of the text, after optional white space. *)
Fixpoint parse_value (fuel : nat) (t : text) : option (Json * text) :=
  match fuel with
  | O => None
  | S fuel' =>
      match skip_ws t with
      | [] => None
      | c :: t' =>
          if Ascii.eqb c quote_char then
            match parse_string_body t' with
            | Some (s, r) => Some (JString (string_of_list_ascii s), r)
            | None => None
            end
          else if Ascii.eqb c "["%char then
            match skip_ws t' with
            | [] => None
            | c' :: r =>
                if Ascii.eqb c' "]"%char then Some (JArray [], r)
                else
                  match parse_elements (parse_value fuel') fuel' t' with
                  | Some (vs, r') => Some (JArray vs, r')
                  | None => None
                  end
            end
          else if Ascii.eqb c "{"%char then
            match skip_ws t' with
            | [] => None
            | c' :: r =>
                if Ascii.eqb c' "}"%char then Some (JObject [], r)
                else
                  match parse_members (parse_value fuel') fuel' t' with
                  | Some (kvs, r') => Some (JObject kvs, r')
                  | None => None
                  end
            end
          else if number_char c then
            let '(n, r) := span_number (c :: t') in
            Some (JNumber (string_of_list_ascii n), r)
          else
            match strip_prefix (list_ascii_of_string "null") (c :: t') with
            | Some r => Some (JNull, r)
            | None =>
                match strip_prefix (list_ascii_of_string "true") (c :: t') with
                | Some r => Some (JBool true, r)
                | None =>
                    match strip_prefix (list_ascii_of_string "false") (c :: t') with
                    | Some r => Some (JBool false, r)
                    | None => None
                    end
                end
            end
      end
  end.

(** Decode a text that holds one value and white space around it. *)
Definition json_loads (t : text) : option Json :=
  match parse_value (S (length t)) t with
  | Some (v, r) => if forallb is_ws r then Some v else None
  | None => None
  end.

(** The text after a value does not continue a number literal. *)
Definition number_boundary (rest : text) : bool :=
  match rest with
  | [] => true
  | c :: _ => negb (number_char c)
  end.

Definition delimited (v : Json) (rest : text) : bool :=
  match v with
  | JNumber _ => number_boundary rest
  | _ => true
  end.

(** A value is parsed back from its text, after white space and before any
    text that delimits it, with fuel of at least the length of the text. *)
Definition parsed_back (sep : Separators) (v : Json) : Prop :=
  forall fuel w rest,
    length (dumps sep v) <= fuel -> forallb is_ws w = true ->
    delimited v rest = true ->
    parse_value fuel (w ++ dumps sep v ++ rest) = Some (v, rest).

(** A decoder that inverts serialization on well-formed values. *)
Definition decodes_serialized (decode : text -> option Json) (sep : Separators) : Prop :=
  forall v, json_wf v = true -> decode (dumps sep v) = Some v.

End TextRepair.

Export TextRepair.

(* ===================================================================== *)
(** ** The Schema Validator for quiz questions *)
(* ===================================================================== *)

Module SchemaValidator.

Inductive ValidationFailure : Type :=
| NotAnObject
| MissingField (name : string)
| WrongType (name : string)
| UnknownEnumValue (name value : string)
| WrongOptionCount (count : nat)
| DuplicateOptions
| CorrectAnswerNotInOptions (answer : string).

(** Accepted value or validation failure, with the usual bind. *)
Inductive Result (A : Type) : Type :=
| Accepted (a : A)
| Failure (e : ValidationFailure).

Arguments Accepted {A} a.
Arguments Failure {A} e.

Definition bind {A B : Type} (m : Result A) (k : A -> Result B) : Result B :=
  match m with
  | Accepted a => k a
  | Failure e => Failure e
  end.

Notation "x <- m ;; k" := (bind m (fun x => k))
  (at level 100, m at next level, right associativity).

Definition check (b : bool) (e : ValidationFailure) : Result unit :=
  if b then Accepted tt else Failure e.

(** Field access on a decoded object; of two members with one key the
    later one counts, as in the dict [json.loads] builds. *)
Definition get_field (members : list (string * Json)) (name : string) : option Json :=
  snd <$> List.find (fun kv => String.eqb (fst kv) name) (rev members).

Definition required_string (members : list (string * Json)) (name : string)
  : Result string :=
  match get_field members name with
  | None => Failure (MissingField name)
  | Some (JString s) => Accepted s
  | Some _ => Failure (WrongType name)
  end.

Definition optional_string (members : list (string * Json)) (name : string)
  : Result string :=
  match get_field members name with
  | None | Some JNull => Accepted ""
  | Some (JString s) => Accepted s
  | Some _ => Failure (WrongType name)
  end.

Fixpoint strings_of (name : string) (items : list Json) : Result (list string) :=
  match items with
  | [] => Accepted []
  | JString s :: items' => l <- strings_of name items' ;; Accepted (s :: l)
  | _ :: _ => Failure (WrongType name)
  end.

Definition required_string_array (members : list (string * Json)) (name : string)
  : Result (list string) :=
  match get_field members name with
  | None => Failure (MissingField name)
  | Some (JArray items) => strings_of name items
  | Some _ => Failure (WrongType name)
  end.

(** Lower case of an ASCII letter, for the case-insensitive coercion of the
    enumeration labels. *)
Definition to_lower (c : ascii) : ascii :=
  let n := nat_of_ascii c in
  if (65 <=? n) && (n <=? 90) then ascii_of_nat (n + 32) else c.

Definition lower (s : string) : string :=
  string_of_list_ascii (map to_lower (list_ascii_of_string s)).

(** Modelled from the spec: "enumeration membership (values coerced
    case-insensitively to the canonical set)". *)
Definition coerce_difficulty (label : string) : Result Difficulty :=
  let l := lower label in
  if String.eqb l "easy" then Accepted EASY
  else if String.eqb l "medium" then Accepted MEDIUM
  else if String.eqb l "hard" then Accepted HARD
  else Failure (UnknownEnumValue "difficulty" label).

(** Modelled from the spec: the same coercion for the cognitive level. *)
Definition coerce_bloom_level (label : string) : Result BloomLevel :=
  let l := lower label in
  if String.eqb l "remember" then Accepted REMEMBER
  else if String.eqb l "understand" then Accepted UNDERSTAND
  else if String.eqb l "apply" then Accepted APPLY
  else if String.eqb l "analyze" then Accepted ANALYZE
  else if String.eqb l "evaluate" then Accepted EVALUATE
  else if String.eqb l "create" then Accepted CREATE
  else Failure (UnknownEnumValue "bloom_level" label).

(** [x in l] on strings. *)
Definition member (x : string) (l : list string) : bool :=
  existsb (String.eqb x) l.

Fixpoint distinct (l : list string) : bool :=
  match l with
  | [] => true
  | x :: l' => negb (member x l') && distinct l'
  end.

(** Modelled from the spec: the validator's code is not in the sources
    ([validate_and_build_course] is declared only).  Checks of section 4.1
    for one quiz question: required-field presence, enumeration membership
    with case-insensitive coercion, exactly four distinct options, and the
    cross-field invariant that the correct option is one of the options;
    a question that violates it is rejected, no option is chosen in its
    place.  The identifier is optional (the Content Builder assigns it). *)
Definition validate_question (candidate : Json) : Result QuizQuestion :=
  match candidate with
  | JObject members =>
      qid <- optional_string members "question_id" ;;
      text <- required_string members "question" ;;
      opts <- required_string_array members "options" ;;
      _ <- check (length opts =? 4) (WrongOptionCount (length opts)) ;;
      _ <- check (distinct opts) DuplicateOptions ;;
      answer <- required_string members "correct_answer" ;;
      _ <- check (member answer opts) (CorrectAnswerNotInOptions answer) ;;
      dlabel <- required_string members "difficulty" ;;
      d <- coerce_difficulty dlabel ;;
      blabel <- required_string members "bloom_level" ;;
      b <- coerce_bloom_level blabel ;;
      expl <- required_string members "explanation" ;;
      Accepted (mkQuizQuestion qid text opts answer d b expl)
  | _ => Failure NotAnObject
  end.

(** The designated correct option and the option set of a candidate, when
    it has them. *)
Definition candidate_correct_answer (candidate : Json) : option string :=
  match candidate with
  | JObject members =>
      match get_field members "correct_answer" with
      | Some (JString s) => Some s
      | _ => None
      end
  | _ => None
  end.

Definition candidate_options (candidate : Json) : option (list string) :=
  match candidate with
  | JObject members =>
      match required_string_array members "options" with
      | Accepted opts => Some opts
      | Failure _ => None
      end
  | _ => None
  end.

End SchemaValidator.

Export SchemaValidator.

(* ===================================================================== *)
(** ** Feedback tags *)
(* ===================================================================== *)

Module FeedbackTags.






End FeedbackTags.

Export FeedbackTags.

(* ===================================================================== *)
(** ** Front end: FeedbackPanel.jsx and the two quiz feedback modals *)
(* ===================================================================== *)

Module FeedbackPanel.

(** An entry of [feedbackOptions]; the emoji [icon] is presentation only
    and left out. *)
Record FeedbackOption : Type := mkFeedbackOption {
  type : string;
  label : string;
  description : string
}.

Definition feedbackOptions : list FeedbackOption :=
  [ mkFeedbackOption "too_easy" "Too Easy" "Content is not challenging enough";
    mkFeedbackOption "too_hard" "Too Hard" "Content is too difficult";
    mkFeedbackOption "unclear" "Unclear" "Explanations need improvement";
    mkFeedbackOption "more_examples" "More Examples" "Need additional examples";
    mkFeedbackOption "different_approach" "Different Approach"
      "Try a different teaching method" ].

(** The three [useState] cells of the component. *)
Record PanelState : Type := mkPanelState {
  isOpen : bool;
  selectedType : option string;
  comments : string
}.

Definition initial_state : PanelState := mkPanelState false None "".

(** What the user can do to the panel. *)
Inductive PanelEvent : Type :=
| ClickProvideFeedback
| ClickClose
| ClickOption (index : nat)
| EditComments (value : string)
| ClickSubmit.

(** A call [onRegenerate(courseId, moduleId, lessonId, selectedType,
    comments || null)]; the three identifiers are props and left out. *)
Record Regenerate : Type := mkRegenerate {
  feedback_type : string;
  additional_comments : option string
}.

(** JS truthiness of a string state cell. *)
Definition truthy (s : option string) : bool :=
  match s with
  | None => false
  | Some v => negb (String.eqb v "")
  end.

(** One event: the new state and the [onRegenerate] calls it makes.  While
    the panel is closed only the "Provide Feedback" button is rendered.  The
    props are taken as [onRegenerate] given and [isRegenerating] false; with
    [isRegenerating] true the submit button is disabled and fewer calls are
    made. *)
Definition step (st : PanelState) (ev : PanelEvent) : PanelState * list Regenerate :=
  if negb (isOpen st) then
    match ev with
    | ClickProvideFeedback => (mkPanelState true (selectedType st) (comments st), [])
    | _ => (st, [])
    end
  else
    match ev with
    | ClickProvideFeedback => (st, [])
    | ClickClose => (mkPanelState false (selectedType st) (comments st), [])
    | ClickOption index =>
        match feedbackOptions !! index with
        | Some option => (mkPanelState true (Some (type option)) (comments st), [])
        | None => (st, [])
        end
    | EditComments value => (mkPanelState true (selectedType st) value, [])
    | ClickSubmit =>
        (* handleSubmit; the button is disabled while nothing is selected *)
        match selectedType st with
        | Some t =>
            if truthy (Some t) then
              (mkPanelState false None "",
               [mkRegenerate t
                  (if String.eqb (comments st) "" then None else Some (comments st))])
            else (st, [])
        | None => (st, [])
        end
    end.

(** A run of events from a state: the final state and every call made. *)
Fixpoint run (st : PanelState) (evs : list PanelEvent) : PanelState * list Regenerate :=
  match evs with
  | [] => (st, [])
  | ev :: evs' =>
      let '(st', calls) := step st ev in
      let '(st'', calls') := run st' evs' in
      (st'', calls ++ calls')
  end.

End FeedbackPanel.

Module QuizFeedbackModal.

Record FeedbackOption : Type := mkFeedbackOption {
  value : string;
  label : string;
  desc : string
}.

Definition feedbackOptions : list FeedbackOption :=
  [ mkFeedbackOption "Too difficult" "Too difficult" "Questions were above my level";
    mkFeedbackOption "Concept unclear" "Concept unclear" "I need a better explanation";
    mkFeedbackOption "Need more examples" "Need more examples" "More practice would help";
    mkFeedbackOption "Okay, can continue" "Okay, can continue"
      "I understand, ready to move on" ].

(** The values the buttons pass to [onFeedback]. *)
Definition feedback_values : list string := map value feedbackOptions.

End QuizFeedbackModal.

Module WrongAnswerFeedbackModal.

(** An entry of [FEEDBACK_OPTIONS]; icon and colour classes are left out. *)
Record FeedbackOption : Type := mkFeedbackOption {
  id : string;
  label : string;
  description : string
}.

Definition FEEDBACK_OPTIONS : list FeedbackOption :=
  [ mkFeedbackOption "Too difficult" "Too difficult" "Lower the complexity";
    mkFeedbackOption "Concept unclear" "Concept unclear" "Need simpler explanation";
    mkFeedbackOption "Need more examples" "Need more examples" "Show me more examples" ].

(** The ids [handleFeedbackSelect] passes to [onFeedback]. *)
Definition feedback_values : list string := map id FEEDBACK_OPTIONS.

End WrongAnswerFeedbackModal.


(* ===================================================================== *)
(** ** Front end: JavaScript numbers *)
(* ===================================================================== *)

Module JS.

(** A JS number: NaN, an infinity with its sign, or a finite value.  Finite
    values are exact rationals; the sign of zero is not tracked. *)
Inductive Number : Type :=
| NaN
| Infinity (negative : bool)
| Finite (q : Q).

Definition Qeq0 (q : Q) : bool := Qeq_bool q 0.
Definition Qneg (q : Q) : bool := Qlt_bool q 0.

(** [a / b] *)
Definition div (a b : Number) : Number :=
  match a, b with
  | NaN, _ | _, NaN => NaN
  | Infinity _, Infinity _ => NaN
  | Infinity s, Finite y => Infinity (xorb s (Qneg y))
  | Finite _, Infinity _ => Finite 0
  | Finite x, Finite y =>
      if Qeq0 y then (if Qeq0 x then NaN else Infinity (Qneg x))
      else Finite (x / y)
  end.

(** [a * b] *)
Definition mul (a b : Number) : Number :=
  match a, b with
  | NaN, _ | _, NaN => NaN
  | Infinity s, Infinity t => Infinity (xorb s t)
  | Infinity s, Finite y => if Qeq0 y then NaN else Infinity (xorb s (Qneg y))
  | Finite x, Infinity t => if Qeq0 x then NaN else Infinity (xorb (Qneg x) t)
  | Finite x, Finite y => Finite (x * y)
  end.

(** [a + b] *)
Definition add (a b : Number) : Number :=
  match a, b with
  | NaN, _ | _, NaN => NaN
  | Infinity s, Infinity t => if Bool.eqb s t then Infinity s else NaN
  | Infinity s, Finite _ => Infinity s
  | Finite _, Infinity t => Infinity t
  | Finite x, Finite y => Finite (x + y)
  end.

(** [Math.max(a, b)] and [Math.min(a, b)]: NaN when an argument is NaN. *)
Definition Math_max (a b : Number) : Number :=
  match a, b with
  | NaN, _ | _, NaN => NaN
  | Infinity false, _ | _, Infinity false => Infinity false
  | Infinity true, y => y
  | x, Infinity true => x
  | Finite x, Finite y => Finite (Qmax x y)
  end.

Definition Math_min (a b : Number) : Number :=
  match a, b with
  | NaN, _ | _, NaN => NaN
  | Infinity true, _ | _, Infinity true => Infinity true
  | Infinity false, y => y
  | x, Infinity false => x
  | Finite x, Finite y => Finite (Qmin x y)
  end.

(** [ToNumber] of the result of a property read: [undefined] is NaN. *)
Definition to_number (v : option Number) : Number := default NaN v.

End JS.

(* ===================================================================== *)
(** ** Front end: ProgressBar.jsx *)
(* ===================================================================== *)

Module ProgressBar.

Import JS.

(** The [value] and [max] props; [max = 100] when the prop is not given. *)
Definition default_max : Number := Finite 100.

(** [const percentage = Math.min(100, Math.max(0, (value / max) * 100))] *)
Definition percentage (value : Number) (max : option Number) : Number :=
  let max := default default_max max in
  Math_min (Finite 100) (Math_max (Finite 0) (mul (div value max) (Finite 100))).

(** [style={{ width: `${percentage}%` }}]: the width of the fill, in
    percent. *)
Definition width (value : Number) (max : option Number) : Number :=
  percentage value max.

End ProgressBar.

(* ===================================================================== *)
(** ** Front end: MasteryIndicator.jsx and the count of ProgressPage *)
(* ===================================================================== *)

Module MasteryIndicator.

(** An entry of [masteryConfig]; the icon is named by its component. *)
Record Config : Type := mkConfig {
  icon : string;
  bgColor : string;
  textColor : string;
  iconColor : string;
  borderColor : string
}.

Definition config_Mastery : Config :=
  mkConfig "Trophy" "bg-green-100" "text-green-700" "text-green-500" "border-green-200".
Definition config_Proficient : Config :=
  mkConfig "TrendingUp" "bg-blue-100" "text-blue-700" "text-blue-500" "border-blue-200".
Definition config_Developing : Config :=
  mkConfig "Target" "bg-yellow-100" "text-yellow-700" "text-yellow-500" "border-yellow-200".
Definition config_Beginning : Config :=
  mkConfig "AlertCircle" "bg-red-100" "text-red-700" "text-red-500" "border-red-200".
Definition config_Not_Started : Config :=
  mkConfig "Target" "bg-gray-100" "text-gray-600" "text-gray-400" "border-gray-200".

Definition masteryConfig : gmap string Config :=
  <["Mastery" := config_Mastery]>
  (<["Proficient" := config_Proficient]>
  (<["Developing" := config_Developing]>
  (<["Beginning" := config_Beginning]>
  (<["Not Started" := config_Not_Started]> ∅)))).

(** [mastery?.level] *)
Definition level_of (mastery : option Mastery) : option string :=
  level <$> mastery.

(** [const config = masteryConfig[mastery?.level] || masteryConfig['Not Started']] *)
Definition config (mastery : option Mastery) : option Config :=
  match level_of mastery ≫= (fun l => masteryConfig !! l) with
  | Some c => Some c
  | None => masteryConfig !! "Not Started"
  end.

(** [{mastery?.level || 'Not Started'}]: the text shown. *)
Definition shown_level (mastery : option Mastery) : string :=
  match level_of mastery with
  | Some l => if String.eqb l "" then "Not Started" else l
  | None => "Not Started"
  end.

End MasteryIndicator.

Module ProgressPage.

Import JS.

(** [const masteryCount = { Mastery: 0, Proficient: 0, Developing: 0,
    Beginning: 0, 'Not Started': 0 }] *)
Definition masteryCount_initial : gmap string Number :=
  <["Mastery" := Finite 0]>
  (<["Proficient" := Finite 0]>
  (<["Developing" := Finite 0]>
  (<["Beginning" := Finite 0]>
  (<["Not Started" := Finite 0]> ∅)))).

(** The body of the inner [forEach]:
    [const level = l.mastery?.level || 'Not Started'; masteryCount[level]++]. *)
Definition count_lesson (masteryCount : gmap string Number) (mastery : option Mastery)
  : gmap string Number :=
  let level := MasteryIndicator.shown_level mastery in
  <[level := add (to_number (masteryCount !! level)) (Finite 1)]> masteryCount.

(** [progress.modules.forEach(m => m.lessons.forEach(l => ...))], on the
    [mastery] fields of the lessons of each module. *)
Definition masteryCount (modules : list (list (option Mastery))) : gmap string Number :=
  foldl (fun acc lessons => foldl count_lesson acc lessons) masteryCount_initial modules.

End ProgressPage.

(* ===================================================================== *)
(** ** Scenarios and auxiliary notions *)
(* ===================================================================== *)


(** A lesson with one attempt and best score 90, and one with best score
    30. *)
Definition mastered_lesson : LessonProgress :=
  mkLessonProgress "lesson-id-1" true 1 90 HARD APPLY (9 # 10) [].

Definition struggling_lesson : LessonProgress :=
  mkLessonProgress "lesson-id-2" false 1 30 EASY REMEMBER (3 # 10) [].

(** The quiz of the end-to-end scenario, answered correctly. *)
Definition arithmetic_question : QuizQuestion :=
  mkQuizQuestion "q1" "2+2?" ["3"; "4"; "5"; "6"] "4" EASY REMEMBER "Basic arithmetic".

(** The end-to-end scenario: a learner at medium / Understand scores 90,
    then 40. *)
Definition scenario_start : LessonProgress :=
  new_lesson_progress "lesson-id-1" MEDIUM UNDERSTAND.

(** The text of the counterexample: prose with a bracketed remark, then
    an object. *)
Definition remark_prose : text := list_ascii_of_string "see [1] for the answer: ".

Definition remark_value : Json := JObject [("a", JNumber "2")].

Definition remark_text : text :=
  remark_prose ++ dumps default_separators remark_value ++ list_ascii_of_string " ok".

(** The raw text of the end-to-end scenario: a one-question array in
    compact form between two lines of prose. *)
Definition scenario_question : Json :=
  JObject [ ("question_id", JString "q1");
            ("question", JString "2+2?");
            ("options", JArray [JString "3"; JString "4"; JString "5"; JString "6"]);
            ("correct_answer", JString "4");
            ("difficulty", JString "easy");
            ("bloom_level", JString "Remember");
            ("explanation", JString "Basic arithmetic") ].

Definition scenario_pre : text := list_ascii_of_string "Here you go:" ++ [newline_char].

Definition scenario_post : text := newline_char :: list_ascii_of_string "Hope that helps!".

Definition scenario_text : text :=
  scenario_pre ++ dumps compact_separators (JArray [scenario_question]) ++ scenario_post.

(** The question of the scenario with "7" as its correct answer: every
    other field is well-formed. *)
Definition foreign_answer_question : Json :=
  JObject [ ("question_id", JString "q1");
            ("question", JString "2+2?");
            ("options", JArray [JString "3"; JString "4"; JString "5"; JString "6"]);
            ("correct_answer", JString "7");
            ("difficulty", JString "easy");
            ("bloom_level", JString "Remember");
            ("explanation", JString "Basic arithmetic") ].

(** A generator that times out, then answers with prose alone, then with
    the raw text of the scenario. *)
Definition flaky_client (prompt : string) (attempt : nat) : TransportFailure + string :=
  match attempt with
  | 1 => inl Timeout
  | 2 => inr "Sorry, I cannot help with that."
  | _ => inr (string_of_list_ascii scenario_text)
  end.

(** The repair unit of the scenario: the cascade with the decoder, no
    trimming or cleanup, and without the last two stages. *)
Definition scenario_repair (response : string) : option Json :=
  match validate_json json_loads (fun t => t) (fun t => t) (fun _ => None)
          (fun _ => None) (list_ascii_of_string response) with
  | Repaired v => Some v
  | RepairFailed _ => None
  end.

(** The validator of the scenario for the quiz-question-array shape: a
    non-empty array all of whose questions are accepted. *)
Definition scenario_validator (shape : unit) (decoded : Json)
  : option (list QuizQuestion) :=
  match decoded with
  | JArray (first :: others) =>
      mapM (fun candidate =>
              match validate_question candidate with
              | Accepted q => Some q
              | Failure _ => None
              end) (first :: others)
  | _ => None
  end.

(* ===================================================================== *)
(** ** Further notions for the assessment functions *)
(* ===================================================================== *)

(** The tier after a run of graded attempts, each attempt moving the tier
    by [calculate_new_difficulty]. *)
Definition adapt_difficulty (d : Difficulty) (scores : list Q) : Difficulty :=
  foldl (fun d score => default d (calculate_new_difficulty d score)) d scores.

(** The classification labels in increasing order of achievement. *)
Definition mastery_levels : list string :=
  ["Not Started"; "Needs Practice"; "Developing"; "Proficient"; "Mastered"].

(** Position of a label in [mastery_levels]. *)
Definition mastery_rank (l : string) : option nat := list_index l mastery_levels.

(* ===================================================================== *)
(** ** Front end: the colour table of ProgressBar.jsx *)
(* ===================================================================== *)

Module ProgressBarClasses.

(** [const colorClasses = { slate: ..., blue: ..., emerald: ..., amber: ...,
    rose: ... }] *)
Definition colorClasses : gmap string string :=
  <["slate" := "bg-slate-700"]>
  (<["blue" := "bg-blue-500"]>
  (<["emerald" := "bg-emerald-500"]>
  (<["amber" := "bg-amber-500"]>
  (<["rose" := "bg-rose-500"]> ∅)))).

(** The default of the prop: [color = 'slate']. *)
Definition default_color : string := "slate".

(** [colorClasses[color]] for the [color] prop (absent: the default);
    [None] is [undefined], which puts no background class on the fill. *)
Definition fill_class (color : option string) : option string :=
  colorClasses !! default default_color color.

End ProgressBarClasses.

(* ===================================================================== *)
(** ** Front end: the course and progress objects the pages read *)
(* ===================================================================== *)

(** The fields of a course the pages read: [course.modules], each with
    [module_id], [module_title] and [lessons]; each lesson with
    [lesson_id], [lesson_title] and [bloom_level]. *)
Module CourseData.

Record Lesson : Type := mkLesson {
  lesson_id : string;
  lesson_title : string;
  bloom_level : string
}.

Record CourseModule : Type := mkCourseModule {
  module_id : string;
  module_title : string;
  lessons : list Lesson
}.

End CourseData.

(** The fields of a progress object the pages read: [progress.modules],
    each with [module_id] and [lessons]; each lesson entry with
    [lesson_id], [completed], [quiz_attempts] (which may be missing),
    [best_score] and [mastery] (which may be missing).  Scores are exact
    rationals. *)
Module ProgressData.

Record LessonEntry : Type := mkLessonEntry {
  lesson_id : string;
  completed : bool;
  quiz_attempts : option nat;
  best_score : Q;
  mastery : option Mastery
}.

Record ModuleEntry : Type := mkModuleEntry {
  module_id : string;
  lessons : list LessonEntry
}.

End ProgressData.

(* ===================================================================== *)
(** ** Front end: the statistics of ProgressPage *)
(* ===================================================================== *)

Module ProgressStatistics.

Import JS.

(** A count as a JS number. *)
Definition of_nat (n : nat) : Q := inject_Z (Z.of_nat n).

(** [course.modules.reduce((sum, m) => sum + m.lessons.length, 0)] *)
Definition totalLessons (course : list CourseData.CourseModule) : nat :=
  foldl (fun sum m => sum + length (CourseData.lessons m)) 0 course.

(** [progress.modules.reduce((sum, m) =>
       sum + m.lessons.filter(l => l.completed).length, 0)] *)
Definition completedLessons (progress : list ProgressData.ModuleEntry) : nat :=
  foldl (fun sum m =>
           sum + length (List.filter ProgressData.completed (ProgressData.lessons m)))
        0 progress.

(** [m.lessons.filter(l => l.best_score > 0).map(l => l.best_score)] *)
Definition scores (m : ProgressData.ModuleEntry) : list Q :=
  map ProgressData.best_score
    (List.filter (fun l => Qlt_bool 0 (ProgressData.best_score l))
       (ProgressData.lessons m)).

(** The numerator of [avgScore]:
    [progress.modules.reduce((sum, m) => { const scores = ...;
       return sum + scores.reduce((s, score) => s + score, 0); }, 0)] *)
Definition score_sum (progress : list ProgressData.ModuleEntry) : Q :=
  foldl (fun sum m => (sum + foldl (fun s score => s + score) 0 (scores m))%Q)
        0%Q progress.

(** [completedLessons || 1] *)
Definition or_one (n : nat) : nat := if n =? 0 then 1 else n.

(** [const avgScore = (...) / (completedLessons || 1)] *)
Definition avgScore (progress : list ProgressData.ModuleEntry) : Q :=
  (score_sum progress / of_nat (or_one (completedLessons progress)))%Q.

(** The mastery count of the page on a progress object. *)
Definition masteryCount (progress : list ProgressData.ModuleEntry)
  : gmap string Number :=
  ProgressPage.masteryCount
    (map (fun m => map ProgressData.mastery (ProgressData.lessons m)) progress).

(** The height, in pixels, of a bar of the mastery distribution:
    [Math.max(20, (count / totalLessons) * 100)]. *)
Definition bar_height (count : Number) (totalLessons : nat) : Number :=
  Math_max (Finite 20) (mul (div count (Finite (of_nat totalLessons))) (Finite 100)).

(** [progress.modules.find(m => m.module_id === module.module_id)] *)
Definition find_module (progress : list ProgressData.ModuleEntry) (id : string)
  : option ProgressData.ModuleEntry :=
  List.find (fun m => String.eqb (ProgressData.module_id m) id) progress.

(** [moduleProgress?.lessons?.find(l => l.lesson_id === lesson.lesson_id)] *)
Definition find_lesson (moduleProgress : option ProgressData.ModuleEntry) (id : string)
  : option ProgressData.LessonEntry :=
  moduleProgress ≫= fun m =>
    List.find (fun l => String.eqb (ProgressData.lesson_id l) id)
      (ProgressData.lessons m).

(** [lessonProgress?.completed] as a condition. *)
Definition is_completed (lessonProgress : option ProgressData.LessonEntry) : bool :=
  default false (ProgressData.completed <$> lessonProgress).

(** The body of the inner [forEach] of the Bloom section, on the pair
    [(total, completed)]. *)
Definition bloom_step (level : string) (progress : list ProgressData.ModuleEntry)
  (module : CourseData.CourseModule) (acc : nat * nat) (lesson : CourseData.Lesson)
  : nat * nat :=
  if String.eqb (CourseData.bloom_level lesson) level then
    let moduleProgress := find_module progress (CourseData.module_id module) in
    let lessonProgress := find_lesson moduleProgress (CourseData.lesson_id lesson) in
    (acc.1 + 1, if is_completed lessonProgress then acc.2 + 1 else acc.2)
  else acc.

(** [course.modules.forEach(module => module.lessons.forEach(lesson => ...))]
    from [total = 0], [completed = 0]. *)
Definition bloom_counts (level : string) (course : list CourseData.CourseModule)
  (progress : list ProgressData.ModuleEntry) : nat * nat :=
  foldl (fun acc module =>
           foldl (bloom_step level progress module) acc (CourseData.lessons module))
        (0, 0) course.

(** [const percentage = total > 0 ? (completed / total) * 100 : 0] *)
Definition bloom_percentage (level : string) (course : list CourseData.CourseModule)
  (progress : list ProgressData.ModuleEntry) : Q :=
  let counts := bloom_counts level course progress in
  if 0 <? counts.1 then (of_nat counts.2 / of_nat counts.1 * 100)%Q else 0%Q.

(** [color={percentage === 100 ? 'green' : 'indigo'}] *)
Definition bloom_color (level : string) (course : list CourseData.CourseModule)
  (progress : list ProgressData.ModuleEntry) : string :=
  if Qeq_bool (bloom_percentage level course progress) 100 then "green" else "indigo".

End ProgressStatistics.


(** Number of lesson entries of a progress object with a positive best
    score. *)
Definition scored_lessons (progress : list ProgressData.ModuleEntry) : nat :=
  length (concat (map ProgressStatistics.scores progress)).


(** Sum of a list of scores. *)
Definition Qsum (l : list Q) : Q := fold_right Qplus 0%Q l.

(** The lessons of a course at a cognitive level. *)
Definition lessons_at (level : string) (course : list CourseData.CourseModule)
  : list CourseData.Lesson :=
  List.filter (fun l => String.eqb (CourseData.bloom_level l) level)
    (concat (map CourseData.lessons course)).

(** A progress object with two lessons, each attempted once and failed
    with 60, none completed. *)
Definition two_failed_lessons : list ProgressData.ModuleEntry :=
  [ProgressData.mkModuleEntry "m1"
     [ProgressData.mkLessonEntry "l1" false (Some 1) 60 None;
      ProgressData.mkLessonEntry "l2" false (Some 1) 60 None]].



(* ===================================================================== *)
(** ** Front end: QuizPage (the state of the page and its handlers) *)
(* ===================================================================== *)

Module QuizPage.

(** The fields of the response of POST /submit-quiz the page reads. *)
Record QuizResult : Type := mkQuizResult {
  score : Q;
  correct_count : nat;
  total_questions : nat;
  passed : bool;
  needs_feedback : bool;
  feedback : list Feedback
}.

(** The state hooks of the component.  [quiz] holds [quiz.questions];
    [None] is [null].  The flags [isSubmitting], [isRegenerating] and
    [isRetaking] are set only while a handler waits for its request, and a
    handler is run here together with the outcome of its request, so they
    are false between two events. *)
Record State : Type := mkState {
  quiz : option (list QuizQuestion);
  isLoading : bool;
  error : option string;
  currentQuestion : nat;
  answers : gmap string string;
  result : option QuizResult;
  showExplanations : gmap string bool;
  showFeedbackPrompt : bool
}.

(** The initial values of the [useState] calls. *)
Definition initial : State := mkState None true None 0 ∅ None ∅ true.

(** [resetQuizState] *)
Definition resetQuizState (st : State) : State :=
  mkState (quiz st) (isLoading st) (error st) 0 ∅ None ∅ true.

(** [loadQuiz], with the outcome of its two requests: the questions of the
    quiz, or [None] when a request fails. *)
Definition loadQuiz (outcome : option (list QuizQuestion)) (st : State) : State :=
  let st := resetQuizState (mkState (quiz st) true None (currentQuestion st)
                              (answers st) (result st) (showExplanations st)
                              (showFeedbackPrompt st)) in
  match outcome with
  | Some questions =>
      mkState (Some questions) false (error st) (currentQuestion st) (answers st)
        (result st) (showExplanations st) (showFeedbackPrompt st)
  | None =>
      mkState (quiz st) false (Some "Failed to load quiz. Please try again.")
        (currentQuestion st) (answers st) (result st) (showExplanations st)
        (showFeedbackPrompt st)
  end.

(** [handleSelectAnswer(questionId, answer)] *)
Definition handleSelectAnswer (questionId answer : string) (st : State) : State :=
  match result st with
  | Some _ => st
  | None =>
      mkState (quiz st) (isLoading st) (error st) (currentQuestion st)
        (<[questionId := answer]> (answers st)) (result st) (showExplanations st)
        (showFeedbackPrompt st)
  end.

(** [handleSubmit], with the outcome of [submitQuiz]. *)
Definition handleSubmit (outcome : option QuizResult) (st : State) : State :=
  match outcome with
  | Some resultData =>
      mkState (quiz st) (isLoading st) (error st) (currentQuestion st) (answers st)
        (Some resultData) (showExplanations st) (showFeedbackPrompt st)
  | None =>
      mkState (quiz st) (isLoading st) (Some "Failed to submit quiz. Please try again.")
        (currentQuestion st) (answers st) (result st) (showExplanations st)
        (showFeedbackPrompt st)
  end.

(** [setQuiz(quizData)] *)
Definition setQuiz (questions : list QuizQuestion) (st : State) : State :=
  mkState (Some questions) (isLoading st) (error st) (currentQuestion st) (answers st)
    (result st) (showExplanations st) (showFeedbackPrompt st).

(** [handleRetake], with the outcome of [retakeQuiz] and, for its failure,
    the outcome of the [loadQuiz] it falls back to. *)
Definition handleRetake (outcome fallback : option (list QuizQuestion)) (st : State)
  : State :=
  let st := resetQuizState st in
  match outcome with
  | Some questions => setQuiz questions st
  | None => loadQuiz fallback st
  end.

(** [handleRegenerateEasier], with the outcome of [regenerateEasierQuiz]. *)
Definition handleRegenerateEasier (outcome : option (list QuizQuestion)) (st : State)
  : State :=
  let st := resetQuizState st in
  match outcome with
  | Some questions => setQuiz questions st
  | None =>
      mkState (quiz st) (isLoading st)
        (Some "Failed to generate easier quiz. Please try again.")
        (currentQuestion st) (answers st) (result st) (showExplanations st)
        (showFeedbackPrompt st)
  end.

(** The object [explanationsToShow] of [handleShowExplanations]: [true]
    under the identifier of every feedback entry that is not correct. *)
Definition explanationsToShow (fbs : list Feedback) : gmap string bool :=
  foldl (fun shown fb => <[fb_question_id fb := true]> shown) ∅
    (List.filter (fun fb => negb (fb_is_correct fb)) fbs).

(** [handleShowExplanations], in a state with a result. *)
Definition handleShowExplanations (r : QuizResult) (st : State) : State :=
  mkState (quiz st) (isLoading st) (error st) (currentQuestion st) (answers st)
    (result st) (explanationsToShow (feedback r)) false.

(** [showExplanations[id]] as a condition: a missing key is [undefined]. *)
Definition shown (showExplanations : gmap string bool) (id : string) : bool :=
  default false (showExplanations !! id).

(** [prev => ({ ...prev, [questionId]: !prev[questionId] })] *)
Definition toggle (questionId : string) (prev : gmap string bool) : gmap string bool :=
  <[questionId := negb (shown prev questionId)]> prev.

(** [toggleExplanation(questionId)] *)
Definition toggleExplanation (questionId : string) (st : State) : State :=
  mkState (quiz st) (isLoading st) (error st) (currentQuestion st) (answers st)
    (result st) (toggle questionId (showExplanations st)) (showFeedbackPrompt st).

(** [goToQuestion(index)] *)
Definition goToQuestion (index : nat) (st : State) : State :=
  mkState (quiz st) (isLoading st) (error st) index (answers st) (result st)
    (showExplanations st) (showFeedbackPrompt st).

(** [currentQuestion < quiz.questions.length - 1], on integers. *)
Definition before_last (st : State) (questions : list QuizQuestion) : bool :=
  (Z.of_nat (currentQuestion st) <? Z.of_nat (length questions) - 1)%Z.

(** [nextQuestion], for the questions of the quiz. *)
Definition nextQuestion (questions : list QuizQuestion) (st : State) : State :=
  if before_last st questions then goToQuestion (currentQuestion st + 1) st else st.

(** [prevQuestion] *)
Definition prevQuestion (st : State) : State :=
  if 0 <? currentQuestion st then goToQuestion (currentQuestion st - 1) st else st.

(** What the component renders: the loading overlay, the error message,
    the result of a submission, or the quiz being taken. *)
Inductive View : Type :=
| LoadingView
| ErrorView
| ResultView (r : QuizResult) (questions : list QuizQuestion)
| QuizView (questions : list QuizQuestion).

(** The chain of early returns of the component. *)
Definition view (st : State) : View :=
  if isLoading st then LoadingView
  else
    match error st, quiz st with
    | Some _, _ | _, None => ErrorView
    | None, Some questions =>
        match result st with
        | Some r => ResultView r questions
        | None => QuizView questions
        end
    end.

(** [const currentQ = questions[currentQuestion]]; [None] is [undefined],
    on which the quiz view throws when it reads [currentQ.difficulty]. *)
Definition currentQ (st : State) (questions : list QuizQuestion) : option QuizQuestion :=
  questions !! currentQuestion st.



(** [result.needs_feedback && showFeedbackPrompt]: the feedback prompt is
    rendered. *)
Definition prompt_rendered (r : QuizResult) (st : State) : bool :=
  needs_feedback r && showFeedbackPrompt st.

(** What can happen to the page: the effect that loads the quiz (on mount
    and when the route parameters change), and a click on one of the
    controls, each request with its outcome. *)
Inductive Event : Type :=
| Load (outcome : option (list QuizQuestion))
| ClickOption (index : nat)
| ClickPrevious
| ClickNext
| ClickDot (index : nat)
| ClickSubmit (outcome : option QuizResult)
| ClickTryAgain (outcome fallback : option (list QuizQuestion))
| ClickEasier (outcome : option (list QuizQuestion))
| ClickMoreExplanation
| ClickSkip
| ClickExplanation (index : nat).

(** One event.  A control acts only in the view that renders it: the
    options of the current question, the dots (one per question), Previous
    (disabled at the first question), Next (rendered before the last
    question) and Submit (rendered in its place otherwise) in the quiz
    view; Try Again and the explanation toggles (one per feedback entry) in
    the result view, and the three buttons of the feedback prompt while it
    is rendered. *)
Definition step (st : State) (e : Event) : State :=
  match e, view st with
  | Load outcome, _ => loadQuiz outcome st
  | ClickOption index, QuizView questions =>
      match currentQ st questions with
      | Some q =>
          match options q !! index with
          | Some option => handleSelectAnswer (question_id q) option st
          | None => st
          end
      | None => st
      end
  | ClickPrevious, QuizView _ =>
      if currentQuestion st =? 0 then st else prevQuestion st
  | ClickNext, QuizView questions =>
      if before_last st questions then nextQuestion questions st else st
  | ClickDot index, QuizView questions =>
      if index <? length questions then goToQuestion index st else st
  | ClickSubmit outcome, QuizView questions =>
      if before_last st questions then st else handleSubmit outcome st
  | ClickTryAgain outcome fallback, ResultView _ _ => handleRetake outcome fallback st
  | ClickEasier outcome, ResultView r _ =>
      if prompt_rendered r st then handleRegenerateEasier outcome st else st
  | ClickMoreExplanation, ResultView r _ =>
      if prompt_rendered r st then handleShowExplanations r st else st
  | ClickSkip, ResultView r _ =>
      if prompt_rendered r st then
        mkState (quiz st) (isLoading st) (error st) (currentQuestion st) (answers st)
          (result st) (showExplanations st) false
      else st
  | ClickExplanation index, ResultView r _ =>
      match feedback r !! index with
      | Some fb => toggleExplanation (fb_question_id fb) st
      | None => st
      end
  | _, _ => st
  end.

(** The state after a sequence of events. *)
Definition run (events : list Event) (st : State) : State := foldl step st events.

(** [const scoreColor = result.score >= 85 ? 'bg-emerald-500' : ...] *)
Definition scoreColor (r : QuizResult) : string :=
  if Qle_bool 85 (score r) then "bg-emerald-500"
  else if Qle_bool 70 (score r) then "bg-blue-500"
  else if Qle_bool 50 (score r) then "bg-amber-500"
  else "bg-rose-500".

(** The headline of the score card. *)
Definition headline (r : QuizResult) : string :=
  if Qle_bool 85 (score r) then "Excellent!"
  else if Qle_bool 70 (score r) then "Great Job!"
  else if Qle_bool 50 (score r) then "Good Effort!"
  else "Keep Practicing!".

End QuizPage.



(* ===================================================================== *)
(** ** Front end: LessonPage (locating the lesson and its neighbours) *)
(* ===================================================================== *)

Module LessonPage.

(** An entry [{ lesson: les, module: mod }] of [allLessons]. *)
Record Item : Type := mkItem {
  lesson : CourseData.Lesson;
  module : CourseData.CourseModule
}.

(** The variables the two nested [forEach] of [loadData] update. *)
Record Scan : Type := mkScan {
  foundLesson : option CourseData.Lesson;
  foundModule : option CourseData.CourseModule;
  allLessons : list Item;
  moduleIndex : Z;
  lessonIndex : Z
}.

(** [let foundLesson = null; let foundModule = null; let allLessons = [];
    let moduleIndex = -1; let lessonIndex = -1;] *)
Definition scan_initial : Scan := mkScan None None [] (-1) (-1).

(** The body of the inner [forEach((les, lIdx) => ...)]. *)
Definition scan_lesson (lessonId : string) (mIdx : nat) (md : CourseData.CourseModule)
  (acc : Scan) (entry : nat * CourseData.Lesson) : Scan :=
  let '(lIdx, les) := entry in
  let pushed := allLessons acc ++ [mkItem les md] in
  if String.eqb (CourseData.lesson_id les) lessonId then
    mkScan (Some les) (Some md) pushed (Z.of_nat mIdx) (Z.of_nat lIdx)
  else
    mkScan (foundLesson acc) (foundModule acc) pushed (moduleIndex acc) (lessonIndex acc).

(** An array with its indices, as [forEach] passes them. *)
Definition indexed {A : Type} (l : list A) : list (nat * A) := imap pair l.

(** [courseData.modules.forEach((mod, mIdx) => mod.lessons.forEach(...))] *)
Definition scan (lessonId : string) (course : list CourseData.CourseModule) : Scan :=
  foldl (fun acc entry =>
           let '(mIdx, md) := entry in
           foldl (scan_lesson lessonId mIdx md) acc (indexed (CourseData.lessons md)))
        scan_initial (indexed course).

(** [Array.prototype.findIndex]: the index of the first element that
    passes, or -1. *)
Fixpoint findIndex_from {A : Type} (p : A -> bool) (l : list A) (i : Z) : Z :=
  match l with
  | [] => (-1)%Z
  | x :: l => if p x then i else findIndex_from p l (i + 1)%Z
  end.

Definition findIndex {A : Type} (p : A -> bool) (l : list A) : Z :=
  findIndex_from p l 0.

(** [array[i]] for an integer [i]: [None] is [undefined]. *)
Definition at_index {A : Type} (l : list A) (i : Z) : option A :=
  if (i <? 0)%Z then None else l !! Z.to_nat i.

(** [const currentIndex = allLessons.findIndex(
       item => item.lesson.lesson_id === lessonId)] *)
Definition currentIndex (lessonId : string) (course : list CourseData.CourseModule) : Z :=
  findIndex (fun item => String.eqb (CourseData.lesson_id (lesson item)) lessonId)
    (allLessons (scan lessonId course)).

(** The value passed to [setPrevLesson]. *)
Definition prevLesson (lessonId : string) (course : list CourseData.CourseModule)
  : option Item :=
  let currentIndex := currentIndex lessonId course in
  if (0 <? currentIndex)%Z
  then at_index (allLessons (scan lessonId course)) (currentIndex - 1)
  else None.

(** The value passed to [setNextLesson]. *)
Definition nextLesson (lessonId : string) (course : list CourseData.CourseModule)
  : option Item :=
  let currentIndex := currentIndex lessonId course in
  let allLessons := allLessons (scan lessonId course) in
  if (currentIndex <? Z.of_nat (length allLessons) - 1)%Z
  then at_index allLessons (currentIndex + 1)
  else None.

(** The call [trackLessonAccess(courseId, moduleIndex, lessonIndex,
    lessonId)] is made when
    [foundLesson && foundModule && moduleIndex >= 0 && lessonIndex >= 0];
    the indices it sends. *)
Definition tracked (lessonId : string) (course : list CourseData.CourseModule)
  : option (Z * Z) :=
  let s := scan lessonId course in
  match foundLesson s, foundModule s with
  | Some _, Some _ =>
      if (0 <=? moduleIndex s)%Z && (0 <=? lessonIndex s)%Z
      then Some (moduleIndex s, lessonIndex s)
      else None
  | _, _ => None
  end.

End LessonPage.

(** The lessons of a course in reading order, each with its module. *)
Definition course_items (course : list CourseData.CourseModule) : list LessonPage.Item :=
  concat (map (fun md => map (fun les => LessonPage.mkItem les md)
                           (CourseData.lessons md)) course).

(** The lesson identifiers of a course in reading order. *)
Definition course_lesson_ids (course : list CourseData.CourseModule) : list string :=
  map (fun item => CourseData.lesson_id (LessonPage.lesson item)) (course_items course).

(** A course of two modules and three lessons. *)
Definition sample_course : list CourseData.CourseModule :=
  [CourseData.mkCourseModule "m1" "Basics"
     [CourseData.mkLesson "l1" "Numbers" "Remember";
      CourseData.mkLesson "l2" "Sums" "Understand"];
   CourseData.mkCourseModule "m2" "Practice"
     [CourseData.mkLesson "l3" "Word problems" "Apply"]].

(** What the loop has found so far locates a lesson with the identifier
    in the course; as long as it has found nothing, no item pushed so far
    has the identifier. *)
Definition located (course : list CourseData.CourseModule) (lessonId : string)
  (s : LessonPage.Scan) : Prop :=
  match LessonPage.foundLesson s with
  | Some les =>
      exists mi li md,
        LessonPage.foundModule s = Some md
        /\ LessonPage.moduleIndex s = Z.of_nat mi /\ LessonPage.lessonIndex s = Z.of_nat li
        /\ course !! mi = Some md /\ CourseData.lessons md !! li = Some les
        /\ CourseData.lesson_id les = lessonId
  | None =>
      LessonPage.foundModule s = None
      /\ Forall (fun it => CourseData.lesson_id (LessonPage.lesson it) <> lessonId)
           (LessonPage.allLessons s)
  end.

(* ===================================================================== *)
(** ** Front end: the routes of App and the navigation of HomePage *)
(* ===================================================================== *)

Module App.

(** A segment of a route path: a fixed word or a [:parameter]. *)
Inductive Segment : Type :=
| Static (word : string)
| Param (name : string).

(** The [<Route path=... element=...>] entries of [App], each path by its
    segments, each element by the name of its page. *)
Definition routes : list (list Segment * string) :=
  [([Static "login"], "LoginPage");
   ([Static "register"], "RegisterPage");
   ([], "HomePage");
   ([Static "course"; Param "courseId"], "CoursePage");
   ([Static "course"; Param "courseId"; Static "lesson"; Param "lessonId"],
    "LessonPage");
   ([Static "course"; Param "courseId"; Static "lesson"; Param "lessonId";
     Static "quiz"], "QuizPage");
   ([Static "course"; Param "courseId"; Static "progress"], "ProgressPage")].

(** How the router matches one segment of a location: a fixed word
    regardless of case, a parameter with any non-empty segment. *)
Definition segment_matches (seg : Segment) (s : string) : bool :=
  match seg with
  | Static word => String.eqb (lower word) (lower s)
  | Param _ => negb (String.eqb s "")
  end.

(** A route path matches a location, given by its segments, when both have
    the same number of segments and these match one by one. *)
Fixpoint path_matches (pattern : list Segment) (path : list string) : bool :=
  match pattern, path with
  | [], [] => true
  | seg :: pattern, s :: path => segment_matches seg s && path_matches pattern path
  | _, _ => false
  end.

(** The routes that match a location. *)
Definition matching (path : list string) : list (list Segment * string) :=
  List.filter (fun route => path_matches route.1 path) routes.

(** The page rendered for a location; [None] when no route matches. *)
Definition element_for (path : list string) : option string :=
  snd <$> head (matching path).

End App.

Module HomePage.

(** The fields of an entry of [courses] the page reads. *)
Record CourseSummary : Type := mkCourseSummary {
  id : string;
  title : string
}.

(** The fields of an entry of [progressData] the page reads. *)
Record ProgressSummary : Type := mkProgressSummary {
  course_id : string;
  course_title : string;
  current_module_index : nat;
  current_lesson_index : nat
}.

(** [getProgressForCourse(courseId)] *)
Definition getProgressForCourse (progressData : list ProgressSummary) (courseId : string)
  : option ProgressSummary :=
  List.find (fun p => String.eqb (course_id p) courseId) progressData.

(** A non-negative integer in a template literal: its decimal digits. *)
Definition decimal (n : nat) : string := NilEmpty.string_of_uint (Nat.to_uint n).

(** [handleContinue(courseId)]: the location passed to [navigate], by its
    segments. *)
Definition handleContinue (progressData : list ProgressSummary) (courseId : string)
  : list string :=
  match getProgressForCourse progressData courseId with
  | Some progress =>
      ["course"; courseId; "lesson";
       decimal (current_module_index progress);
       decimal (current_lesson_index progress)]
  | None => ["course"; courseId]
  end.

(** The resume section: [progressData.slice(0, 3).map(progress => ...)]
    renders a button for each entry whose course is among [courses]; the
    identifiers the buttons pass to [handleContinue]. *)
Definition resume_buttons (progressData : list ProgressSummary)
  (courses : list CourseSummary) : list string :=
  omap (fun progress =>
          match List.find (fun c => String.eqb (id c) (course_id progress)) courses with
          | Some _ => Some (course_id progress)
          | None => None
          end)
       (take 3 progressData).

(** The link of a course card: [`/course/${course.id}`]. *)
Definition card_link (course : CourseSummary) : list string := ["course"; id course].


End HomePage.

(** A decimal digit. *)
Definition is_digit (c : ascii) : Prop :=
  48 <= nat_of_ascii c /\ nat_of_ascii c <= 57.

(** The home page of a learner with one course in progress. *)
Definition resume_courses : list HomePage.CourseSummary :=
  [HomePage.mkCourseSummary "c1" "Arithmetic"].

Definition resume_progress : list HomePage.ProgressSummary :=
  [HomePage.mkProgressSummary "c1" "Arithmetic" 0 1].

(* ===================================================================== *)
(** ** Front end: AuthContext and the request headers of api.js *)
(* ===================================================================== *)

Module AuthContext.

(** [const TOKEN_KEY = 'quiz_app_token'] (the same constant in api.js). *)
Definition TOKEN_KEY : string := "quiz_app_token".

(** The provider's state hooks, with the [localStorage] of the page. *)
Record State : Type := mkState {
  localStorage : gmap string string;
  token : option string;
  loading : bool
}.

(** A string or [null] as a condition: the empty string and [null] are
    falsy. *)
Definition truthy (v : option string) : bool :=
  match v with
  | Some s => negb (String.eqb s "")
  | None => false
  end.

(** The initial values of the [useState] calls, over a given storage. *)
Definition initial (storage : gmap string string) : State :=
  mkState storage None true.

(** The effect run on mount. *)
Definition mount (st : State) : State :=
  let savedToken := localStorage st !! TOKEN_KEY in
  mkState (localStorage st) (if truthy savedToken then savedToken else token st) false.

(** [login(newToken)] *)
Definition login (newToken : string) (st : State) : State :=
  mkState (<[TOKEN_KEY := newToken]> (localStorage st)) (Some newToken) (loading st).

(** [logout()] *)
Definition logout (st : State) : State :=
  mkState (delete TOKEN_KEY (localStorage st)) None (loading st).

(** [isAuthenticated()]: [!!token]. *)
Definition isAuthenticated (st : State) : bool := truthy (token st).

(** The calls the provider offers to its consumers. *)
Inductive Call : Type :=
| Login (newToken : string)
| Logout.

Definition call (st : State) (c : Call) : State :=
  match c with
  | Login newToken => login newToken st
  | Logout => logout st
  end.

(** The state after mounting over a storage and a sequence of calls. *)
Definition run (storage : gmap string string) (calls : list Call) : State :=
  foldl call (mount (initial storage)) calls.

End AuthContext.

Module Api.

(** [getToken()]: [localStorage.getItem(TOKEN_KEY)]. *)
Definition getToken (localStorage : gmap string string) : option string :=
  localStorage !! AuthContext.TOKEN_KEY.

(** [defaultHeaders] of [fetchApi], after the token is read. *)
Definition defaultHeaders (localStorage : gmap string string) : gmap string string :=
  let defaultHeaders := <["Content-Type" := "application/json"]> ∅ in
  match getToken localStorage with
  | Some token =>
      if AuthContext.truthy (Some token)
      then <["Authorization" := String.append "Bearer " token]> defaultHeaders
      else defaultHeaders
  | None => defaultHeaders
  end.

(** [headers: { ...defaultHeaders, ...options.headers }]: a header of the
    caller replaces the default one. *)
Definition headers (localStorage : gmap string string)
  (options_headers : gmap string string) : gmap string string :=
  options_headers ∪ defaultHeaders localStorage.

End Api.

(** The token held by the provider and the token in the storage are both
    falsy, or they are the same string. *)
Definition token_in_sync (st : AuthContext.State) : Prop :=
  if AuthContext.truthy (AuthContext.token st)
  then AuthContext.localStorage st !! AuthContext.TOKEN_KEY = AuthContext.token st
  else AuthContext.truthy (AuthContext.localStorage st !! AuthContext.TOKEN_KEY) = false.

(* ===================================================================== *)
(** ** Front end: DifficultyBadge.jsx and BloomBadge *)
(* ===================================================================== *)

Module DifficultyBadge.

(** [const difficultyStyles = { easy: ..., medium: ..., hard: ... }] *)
Definition difficultyStyles : gmap string string :=
  <["easy" := "bg-emerald-50 text-emerald-700 border-emerald-200"]>
  (<["medium" := "bg-amber-50 text-amber-700 border-amber-200"]>
  (<["hard" := "bg-rose-50 text-rose-700 border-rose-200"]> ∅)).

(** [const difficultyLabels = { easy: 'Easy', medium: 'Medium', hard: 'Hard' }] *)
Definition difficultyLabels : gmap string string :=
  <["easy" := "Easy"]> (<["medium" := "Medium"]> (<["hard" := "Hard"]> ∅)).

(** [const colorClasses = difficultyStyles[difficulty] || difficultyStyles.medium];
    the [difficulty] prop may be missing. *)
Definition colorClasses (difficulty : option string) : option string :=
  match difficulty ≫= (fun d => difficultyStyles !! d) with
  | Some classes => Some classes
  | None => difficultyStyles !! "medium"
  end.

(** [const label = difficultyLabels[difficulty] || 'Medium'] *)
Definition label (difficulty : option string) : string :=
  default "Medium" (difficulty ≫= (fun d => difficultyLabels !! d)).

End DifficultyBadge.

Module BloomBadge.



(** [const bloomDescriptions = { Remember: ..., ..., Create: ... }] *)
Definition bloomDescriptions : gmap string string :=
  <["Remember" := "Recall facts and basic concepts"]>
  (<["Understand" := "Explain ideas and concepts"]>
  (<["Apply" := "Use information in new situations"]>
  (<["Analyze" := "Draw connections among ideas"]>
  (<["Evaluate" := "Justify decisions and actions"]>
  (<["Create" := "Produce new or original work"]> ∅))))).


(** [bloomDescriptions[level]]: the title of the badge. *)
Definition title (level : option string) : option string :=
  level ≫= (fun l => bloomDescriptions !! l).

End BloomBadge.

(* ===================================================================== *)
(** ** Front end: CourseGenerator.jsx *)
(* ===================================================================== *)

Module CourseGenerator.

(** The characters [String.prototype.trim] removes, among the ASCII ones:
    the space and the control characters TAB, LF, VT, FF and CR. *)
Definition is_space (c : ascii) : bool :=
  let n := nat_of_ascii c in
  (n =? 32) || ((9 <=? n) && (n <=? 13)).

Fixpoint trim_start (s : list ascii) : list ascii :=
  match s with
  | [] => []
  | c :: rest => if is_space c then trim_start rest else s
  end.

(** [s.trim()] *)
Definition trim (s : string) : string :=
  string_of_list_ascii
    (rev (trim_start (rev (trim_start (list_ascii_of_string s))))).

(** The state hooks of the form. *)
Record State : Type := mkState {
  topic : string;
  duration : nat;
  difficulty : string
}.

(** [useState('')], [useState(4)], [useState('Intermediate')] *)
Definition initial : State := mkState "" 4 "Intermediate".

Definition suggestedTopics : list string :=
  ["Machine Learning Fundamentals"; "React.js Development";
   "Data Structures & Algorithms"; "Python Programming";
   "Web Security Basics"; "Cloud Computing with AWS"].

(** The levels of the difficulty selector. *)
Definition levels : list string := ["Beginner"; "Intermediate"; "Advanced"].

(** What the user can do with the form: type into the topic field, click
    a suggested topic, move the duration slider, click a level, submit. *)
Inductive Event : Type :=
| TypeTopic (value : string)
| ClickSuggestion (index : nat)
| SlideDuration (value : nat)
| ClickLevel (index : nat)
| Submit.

(** A call [onGenerate(topic, duration, difficulty)]. *)
Record Call : Type := mkCall {
  call_topic : string;
  call_duration : nat;
  call_difficulty : string
}.

(** [handleSubmit]: the call it makes, if any. *)
Definition handleSubmit (isLoading : bool) (st : State) : option Call :=
  if negb (String.eqb (trim (topic st)) "")
     && negb (String.eqb (difficulty st) "")
     && negb isLoading
  then Some (mkCall (trim (topic st)) (duration st) (difficulty st))
  else None.

(** One event under the current value of the [isLoading] prop: the new
    state and the call made.  The field, the suggestions, the slider and
    the level buttons are disabled while loading. *)
Definition step (isLoading : bool) (st : State) (e : Event) : State * option Call :=
  match e with
  | TypeTopic value =>
      (if isLoading then st else mkState value (duration st) (difficulty st), None)
  | ClickSuggestion index =>
      (match suggestedTopics !! index with
       | Some suggestion =>
           if isLoading then st else mkState suggestion (duration st) (difficulty st)
       | None => st
       end, None)
  | SlideDuration value =>
      (if isLoading then st else mkState (topic st) value (difficulty st), None)
  | ClickLevel index =>
      (match levels !! index with
       | Some level => if isLoading then st else mkState (topic st) (duration st) level
       | None => st
       end, None)
  | Submit => (st, handleSubmit isLoading st)
  end.

(** The state after a sequence of events, each with the value of
    [isLoading] when it happens, and the calls made, oldest first. *)
Fixpoint run (events : list (bool * Event)) (st : State) : State * list Call :=
  match events with
  | [] => (st, [])
  | (isLoading, e) :: events =>
      let '(st', made) := step isLoading st e in
      let '(final, calls) := run events st' in
      (final, match made with Some c => c :: calls | None => calls end)
  end.

End CourseGenerator.


(* ===================================================================== *)
(** * Properties *)
(* ===================================================================== *)

(** ** The bracket scan on serialized values *)

Section ScanLemmas.

Lemma shift_0 o : shift 0 o = o.
Proof. destruct o; reflexivity. Qed.

Lemma shift_S o : S <$> o = shift 1 o.
Proof. destruct o; reflexivity. Qed.

Lemma shift_shift a b o : shift a (shift b o) = shift (a + b) o.
Proof. destruct o; simpl; [f_equal; lia | reflexivity]. Qed.

Lemma Json_nested_ind (P : Json -> Prop) :
  P JNull ->
  (forall b, P (JBool b)) ->
  (forall literal, P (JNumber literal)) ->
  (forall s, P (JString s)) ->
  (forall items, Forall P items -> P (JArray items)) ->
  (forall members, Forall (fun kv => P kv.2) members -> P (JObject members)) ->
  forall v, P v.
Proof.
  intros Hnull Hbool Hnum Hstr Harr Hobj.
  fix IH 1. intros [ | b | literal | s | items | members ].
  - exact Hnull.
  - apply Hbool.
  - apply Hnum.
  - apply Hstr.
  - apply Harr. induction items as [ | x items IHitems ]; constructor.
    + apply IH.
    + exact IHitems.
  - apply Hobj. induction members as [ | [k x] members IHmembers ]; constructor.
    + apply IH.
    + exact IHmembers.
Qed.

Lemma number_char_neutral c : number_char c = true -> neutral c = true.
Proof.
  unfold number_char. simpl. intros H.
  repeat (apply orb_prop in H; destruct H as [H | H];
          [ apply Ascii.eqb_eq in H; subst c; reflexivity | ]).
  discriminate.
Qed.

(** Neutral characters are skipped in code. *)
Lemma scan_neutral w stack rest :
  forallb neutral w = true ->
  balanced_end stack InCode (w ++ rest)
  = shift (length w) (balanced_end stack InCode rest).
Proof.
  induction w as [ | c w IH ]; simpl; intros H.
  - symmetry. apply shift_0.
  - apply andb_prop in H. destruct H as [Hc Hw].
    unfold neutral in Hc. apply negb_true_iff in Hc.
    apply orb_false_elim in Hc. destruct Hc as [Hc Hq].
    apply orb_false_elim in Hc. destruct Hc as [Ho Hcl].
    rewrite Hq, Ho, Hcl, IH by assumption.
    rewrite shift_S, shift_shift. reflexivity.
Qed.

(** The body of a string literal brings the scan back to code at its
    closing quote. *)
Lemma scan_string_body cs stack rest :
  balanced_end stack InString (concat (map escape_char cs) ++ quote_char :: rest)
  = shift (length (concat (map escape_char cs)) + 1)
      (balanced_end stack InCode rest).
Proof.
  induction cs as [ | c cs IH ].
  - simpl. apply shift_S.
  - cbn [map concat]. rewrite <- app_assoc, length_app.
    unfold escape_char at 1 3.
    destruct (Ascii.eqb c quote_char) eqn:Hq;
      [ | destruct (Ascii.eqb c backslash_char) eqn:Hb;
          [ | destruct (Ascii.eqb c newline_char) eqn:Hn ] ].
    + cbn. rewrite IH, !shift_S, !shift_shift. f_equal.
    + cbn. rewrite IH, !shift_S, !shift_shift. f_equal.
    + cbn. rewrite IH, !shift_S, !shift_shift. f_equal.
    + cbn [app length balanced_end]. rewrite Hb, Hq, IH, shift_S, shift_shift.
      f_equal.
Qed.

Lemma scan_string_literal s stack rest :
  balanced_end stack InCode (string_literal s ++ rest)
  = shift (length (string_literal s)) (balanced_end stack InCode rest).
Proof.
  unfold string_literal. cbn [app balanced_end].
  replace (Ascii.eqb quote_char quote_char) with true by reflexivity.
  rewrite <- app_assoc. cbn [app].
  rewrite scan_string_body, shift_S, shift_shift. f_equal.
  cbn [length]. rewrite length_app. simpl. lia.
Qed.

Lemma passed_through_nil : passed_through [].
Proof. intros stack rest _. symmetry. apply shift_0. Qed.

Lemma passed_through_app x y :
  passed_through x -> passed_through y -> passed_through (x ++ y).
Proof.
  intros Hx Hy stack rest Hne.
  rewrite <- app_assoc, Hx, Hy, shift_shift, length_app by assumption.
  reflexivity.
Qed.

Lemma passed_through_neutral w : forallb neutral w = true -> passed_through w.
Proof. intros H stack rest _. apply scan_neutral, H. Qed.

Lemma passed_through_string_literal s : passed_through (string_literal s).
Proof. intros stack rest _. apply scan_string_literal. Qed.

Lemma passed_through_join sep parts :
  passed_through sep -> Forall passed_through parts ->
  passed_through (join sep parts).
Proof.
  intros Hsep Hparts. induction Hparts as [ | x parts Hx Hparts IH ].
  - apply passed_through_nil.
  - cbn [join]. apply passed_through_app; [exact Hx | ].
    destruct parts as [ | y parts ].
    + apply passed_through_nil.
    + apply passed_through_app; [exact Hsep | exact IH].
Qed.

(** A bracketed span whose body is passed through: inside other brackets
    it is passed through, and at the top it ends the scan at its closing
    bracket. *)
Lemma scan_bracketed o c body stack rest :
  is_open o = true -> closes o c = true -> passed_through body ->
  balanced_end stack InCode ((o :: body ++ [c]) ++ rest)
  = match stack with
    | [] => Some (length (o :: body ++ [c]))
    | _ :: _ => shift (length (o :: body ++ [c])) (balanced_end stack InCode rest)
    end.
Proof.
  intros Ho Hc Hbody.
  assert (Hoq : Ascii.eqb o quote_char = false).
  { unfold is_open in Ho. apply orb_prop in Ho.
    destruct Ho as [Ho | Ho]; apply Ascii.eqb_eq in Ho; subst o; reflexivity. }
  assert (Hcc : Ascii.eqb c quote_char = false
                /\ is_open c = false /\ is_close c = true).
  { unfold closes in Hc. apply orb_prop in Hc.
    destruct Hc as [Hc | Hc]; apply andb_prop in Hc; destruct Hc as [_ Hc];
      apply Ascii.eqb_eq in Hc; subst c; repeat split; reflexivity. }
  destruct Hcc as (Hcq & Hco & Hcl).
  cbn [app balanced_end]. rewrite Hoq, Ho, <- app_assoc, Hbody by discriminate.
  cbn [app balanced_end]. rewrite Hcq, Hco, Hcl, Hc.
  cbn [length]. rewrite length_app. cbn [length].
  destruct stack as [ | o' stack ].
  - simpl. f_equal; lia.
  - rewrite !shift_S, !shift_shift. f_equal; lia.
Qed.

Lemma passed_through_bracketed o c body :
  is_open o = true -> closes o c = true -> passed_through body ->
  passed_through (o :: body ++ [c]).
Proof.
  intros Ho Hc Hbody stack rest Hne.
  rewrite scan_bracketed by assumption.
  destruct stack; [congruence | reflexivity].
Qed.

(** *** White space and separators *)

Lemma is_ws_neutral c : is_ws c = true -> neutral c = true.
Proof.
  unfold is_ws. intros H.
  repeat (apply orb_prop in H; destruct H as [H | H]);
    apply Ascii.eqb_eq in H; subst c; reflexivity.
Qed.

Lemma is_ws_not_number c : is_ws c = true -> number_char c = false.
Proof.
  unfold is_ws. intros H.
  repeat (apply orb_prop in H; destruct H as [H | H]);
    apply Ascii.eqb_eq in H; subst c; reflexivity.
Qed.

Lemma skip_ws_app w t : forallb is_ws w = true -> skip_ws (w ++ t) = skip_ws t.
Proof.
  induction w as [ | c w IH ]; cbn; [reflexivity | ].
  intros H. apply andb_prop in H. destruct H as [-> Hw]. auto.
Qed.

Lemma skip_ws_head c t : is_ws c = false -> skip_ws (c :: t) = c :: t.
Proof. intros H. cbn. rewrite H. reflexivity. Qed.

(** The text splits into the white space that is skipped and the rest. *)
Lemma skip_ws_split t :
  exists w, forallb is_ws w = true /\ t = w ++ skip_ws t.
Proof.
  induction t as [ | c t (w & Hw & Ht) ].
  - exists []. split; reflexivity.
  - cbn. destruct (is_ws c) eqn:Hc.
    + exists (c :: w). cbn. rewrite Hc, Hw. split; [reflexivity | ].
      f_equal. exact Ht.
    + exists []. split; reflexivity.
Qed.

Lemma is_separator_split mark s :
  is_separator mark s = true ->
  exists w1 w2,
    s = w1 ++ mark :: w2 /\ forallb is_ws w1 = true /\ forallb is_ws w2 = true.
Proof.
  unfold is_separator. intros H.
  destruct (skip_ws_split s) as (w1 & Hw1 & Hs).
  destruct (skip_ws s) as [ | c w2 ]; [discriminate | ].
  apply andb_prop in H. destruct H as [Hc Hw2].
  apply Ascii.eqb_eq in Hc. subst c. eauto.
Qed.

Lemma separator_neutral mark s :
  neutral mark = true -> is_separator mark s = true -> forallb neutral s = true.
Proof.
  intros Hmark Hs. destruct (is_separator_split mark s Hs) as (w1 & w2 & -> & H1 & H2).
  rewrite forallb_app. cbn. rewrite Hmark.
  assert (Hws : forall w, forallb is_ws w = true -> forallb neutral w = true).
  { intros w Hw. rewrite forallb_forall in *. intros c Hc. apply is_ws_neutral, Hw, Hc. }
  rewrite (Hws w1 H1), (Hws w2 H2). reflexivity.
Qed.

Section Dumps.

Variable sep : Separators.
Hypothesis sep_wf : separators_wf sep = true.

Lemma item_separator_passed_through : passed_through (item_separator sep).
Proof.
  apply passed_through_neutral.
  unfold separators_wf in sep_wf. apply andb_prop in sep_wf.
  destruct sep_wf as [Hitem _].
  apply (separator_neutral ","%char); [reflexivity | exact Hitem].
Qed.

Lemma key_separator_passed_through : passed_through (key_separator sep).
Proof.
  apply passed_through_neutral.
  unfold separators_wf in sep_wf. apply andb_prop in sep_wf.
  destruct sep_wf as [_ Hkey].
  apply (separator_neutral ":"%char); [reflexivity | exact Hkey].
Qed.

Lemma array_body_passed_through items :
  Forall (fun v => json_wf v = true -> passed_through (dumps sep v)) items ->
  forallb json_wf items = true ->
  passed_through (join (item_separator sep) (map (dumps sep) items)).
Proof.
  intros IH Hwf. apply passed_through_join.
  - apply item_separator_passed_through.
  - induction IH as [ | x items Hx _ IH ]; cbn [map]; constructor;
      cbn [forallb] in Hwf; apply andb_prop in Hwf; destruct Hwf as [Hwx Hwf];
      auto.
Qed.

Lemma object_body_passed_through (members : list (string * Json)) :
  Forall (fun kv => json_wf kv.2 = true -> passed_through (dumps sep kv.2)) members ->
  forallb (fun '(_, x) => json_wf x) members = true ->
  passed_through
    (join (item_separator sep)
       (map (fun '(k, x) => string_literal k ++ key_separator sep ++ dumps sep x)
          members)).
Proof.
  intros IH Hwf. apply passed_through_join.
  - apply item_separator_passed_through.
  - induction IH as [ | [k x] members Hx _ IH ]; cbn [map]; constructor;
      cbn [forallb] in Hwf; apply andb_prop in Hwf; destruct Hwf as [Hwx Hwf];
      auto.
    apply passed_through_app; [apply passed_through_string_literal | ].
    apply passed_through_app; [apply key_separator_passed_through | ].
    apply Hx, Hwx.
Qed.

(** Every well-formed serialized value is passed through. *)
Lemma dumps_passed_through v :
  json_wf v = true -> passed_through (dumps sep v).
Proof.
  induction v as [ | b | literal | s | items IH | members IH ]
    using Json_nested_ind; intros Hwf.
  - apply passed_through_neutral. reflexivity.
  - destruct b; apply passed_through_neutral; reflexivity.
  - cbn [dumps]. apply passed_through_neutral.
    cbn [json_wf] in Hwf. apply andb_prop in Hwf. destruct Hwf as [_ Hwf].
    rewrite forallb_forall in *. intros c Hc. apply number_char_neutral, Hwf, Hc.
  - apply passed_through_string_literal.
  - cbn [dumps]. apply passed_through_bracketed; [reflexivity .. | ].
    apply array_body_passed_through; assumption.
  - cbn [dumps]. apply passed_through_bracketed; [reflexivity .. | ].
    apply object_body_passed_through; assumption.
Qed.

(** At the top, the span of a serialized array or object ends exactly at
    its last character, whatever follows. *)
Lemma balanced_end_dumps v rest :
  json_wf v = true -> is_container v = true ->
  balanced_end [] InCode (dumps sep v ++ rest) = Some (length (dumps sep v)).
Proof.
  intros Hwf Hc. destruct v as [ | | | | items | members ]; try discriminate.
  - cbn [dumps]. rewrite scan_bracketed; [reflexivity .. | ].
    apply array_body_passed_through; [ | exact Hwf].
    apply Forall_forall. intros x _. apply dumps_passed_through.
  - cbn [dumps]. rewrite scan_bracketed; [reflexivity .. | ].
    apply object_body_passed_through; [ | exact Hwf].
    apply Forall_forall. intros x _. apply dumps_passed_through.
Qed.

Lemma balanced_span_dumps v rest :
  json_wf v = true -> is_container v = true ->
  balanced_span (dumps sep v ++ rest) = Some (dumps sep v).
Proof.
  intros Hwf Hc. unfold balanced_span.
  rewrite balanced_end_dumps by assumption. cbn.
  rewrite take_app_length. reflexivity.
Qed.

Lemma dumps_container_head v :
  is_container v = true ->
  exists o body, dumps sep v = o :: body /\ is_open o = true.
Proof.
  destruct v; try discriminate; intros _; cbn [dumps]; eauto.
Qed.

(** Leading text without an opening bracket is skipped. *)
Lemma first_balanced_span_skip pre t :
  forallb (fun c => negb (is_open c)) pre = true ->
  first_balanced_span (pre ++ t) = first_balanced_span t.
Proof.
  induction pre as [ | c pre IH ]; cbn [app forallb first_balanced_span];
    intros H; [reflexivity | ].
  apply andb_prop in H. destruct H as [Hc Hpre].
  apply negb_true_iff in Hc. rewrite Hc. auto.
Qed.

Lemma first_balanced_span_dumps pre v post :
  json_wf v = true -> is_container v = true ->
  forallb (fun c => negb (is_open c)) pre = true ->
  first_balanced_span (pre ++ dumps sep v ++ post) = Some (dumps sep v).
Proof.
  intros Hwf Hc Hpre. rewrite first_balanced_span_skip by assumption.
  destruct (dumps_container_head v Hc) as (o & body & Hd & Ho).
  pose proof (balanced_span_dumps v post Hwf Hc) as Hspan.
  rewrite Hd in *. cbn [app first_balanced_span] in *. rewrite Ho.
  cbn [app] in Hspan. rewrite Hspan. reflexivity.
Qed.

End Dumps.

End ScanLemmas.

(** ** The decoder on serialized values *)

Section DecoderLemmas.

Lemma parse_string_body_escaped cs rest :
  parse_string_body (concat (map escape_char cs) ++ quote_char :: rest)
  = Some (cs, rest).
Proof.
  induction cs as [ | c cs IH ]; [reflexivity | ].
  cbn [map concat]. rewrite <- app_assoc. unfold escape_char at 1.
  destruct (Ascii.eqb c quote_char) eqn:Hq;
    [ | destruct (Ascii.eqb c backslash_char) eqn:Hb;
        [ | destruct (Ascii.eqb c newline_char) eqn:Hn ] ].
  - apply Ascii.eqb_eq in Hq. subst c. cbn. rewrite IH. reflexivity.
  - apply Ascii.eqb_eq in Hb. subst c. cbn. rewrite IH. reflexivity.
  - apply Ascii.eqb_eq in Hn. subst c. cbn. rewrite IH. reflexivity.
  - cbn [app parse_string_body]. rewrite Hq, Hb, IH. reflexivity.
Qed.

(** After its opening quote, a string literal parses to its string. *)
Lemma parse_string_literal s body rest :
  string_literal s = quote_char :: body ->
  parse_string_body (body ++ rest) = Some (list_ascii_of_string s, rest).
Proof.
  unfold string_literal. intros H. injection H as <-.
  rewrite <- app_assoc. apply parse_string_body_escaped.
Qed.

Lemma span_number_app n rest :
  forallb number_char n = true -> number_boundary rest = true ->
  span_number (n ++ rest) = (n, rest).
Proof.
  intros Hn Hrest. induction n as [ | c n IH ].
  - destruct rest as [ | c rest ]; [reflexivity | ].
    cbn in *. apply negb_true_iff in Hrest. rewrite Hrest. reflexivity.
  - cbn in *. apply andb_prop in Hn. destruct Hn as [-> Hn].
    rewrite (IH Hn). reflexivity.
Qed.

(** A number character is no white space, quote or bracket. *)
Lemma number_char_dispatch c :
  number_char c = true ->
  is_ws c = false /\ Ascii.eqb c quote_char = false
  /\ Ascii.eqb c "["%char = false /\ Ascii.eqb c "{"%char = false
  /\ Ascii.eqb c "]"%char = false /\ Ascii.eqb c "}"%char = false.
Proof.
  unfold number_char. simpl. intros H.
  repeat (apply orb_prop in H; destruct H as [H | H];
          [ apply Ascii.eqb_eq in H; subst c; repeat split; reflexivity | ]).
  discriminate.
Qed.

Lemma parse_value_ws fuel w t :
  forallb is_ws w = true -> parse_value fuel (w ++ t) = parse_value fuel t.
Proof.
  intros Hw. destruct fuel as [ | fuel ]; [reflexivity | ].
  cbn [parse_value]. rewrite skip_ws_app by exact Hw. reflexivity.
Qed.

(** What follows a value inside an array or an object (a separator or a
    closing bracket) does not continue a number. *)
Lemma delimited_separator v mark w1 r :
  number_char mark = false -> forallb is_ws w1 = true ->
  delimited v (w1 ++ mark :: r) = true.
Proof.
  intros Hmark Hw. destruct v; try reflexivity.
  destruct w1 as [ | c w1 ]; cbn [delimited number_boundary app].
  - rewrite Hmark. reflexivity.
  - cbn [forallb] in Hw. apply andb_prop in Hw. destruct Hw as [Hc _].
    rewrite (is_ws_not_number c Hc). reflexivity.
Qed.

Variable sep : Separators.
Hypothesis sep_wf : separators_wf sep = true.

Lemma item_separator_split :
  exists w1 w2,
    item_separator sep = w1 ++ ","%char :: w2
    /\ forallb is_ws w1 = true /\ forallb is_ws w2 = true.
Proof.
  unfold separators_wf in sep_wf. apply andb_prop in sep_wf.
  apply is_separator_split. tauto.
Qed.

Lemma key_separator_split :
  exists w1 w2,
    key_separator sep = w1 ++ ":"%char :: w2
    /\ forallb is_ws w1 = true /\ forallb is_ws w2 = true.
Proof.
  unfold separators_wf in sep_wf. apply andb_prop in sep_wf.
  apply is_separator_split. tauto.
Qed.

(** A serialized value starts with a character that is no white space and
    no closing bracket. *)
Lemma dumps_head v :
  json_wf v = true ->
  exists c r, dumps sep v = c :: r /\ is_ws c = false
              /\ Ascii.eqb c "]"%char = false.
Proof.
  destruct v as [ | [ | ] | literal | s | items | members ]; intros Hwf;
    try (cbn; eexists _, _; repeat split; reflexivity).
  cbn [json_wf dumps] in *. apply andb_prop in Hwf. destruct Hwf as [Hne Hchars].
  destruct literal as [ | c literal ]; [discriminate | ].
  cbn [list_ascii_of_string forallb] in *.
  apply andb_prop in Hchars. destruct Hchars as [Hc _].
  destruct (number_char_dispatch c Hc) as (Hws & _ & _ & _ & Hcl & _).
  eexists _, _. repeat split; assumption.
Qed.

Lemma join_one (s : text) (a : text) : join s [a] = a.
Proof. cbn. apply app_nil_r. Qed.

Lemma join_cons (s : text) (a b : text) (l : list text) :
  join s (a :: b :: l) = a ++ s ++ join s (b :: l).
Proof. reflexivity. Qed.

Lemma parse_elements_dumps pv items : forall fuel w rest,
  items <> [] ->
  Forall (fun x => forall w' rest',
            forallb is_ws w' = true -> delimited x rest' = true ->
            pv (w' ++ dumps sep x ++ rest') = Some (x, rest')) items ->
  length items <= fuel -> forallb is_ws w = true ->
  parse_elements pv fuel
    (w ++ join (item_separator sep) (map (dumps sep) items) ++ "]"%char :: rest)
  = Some (items, rest).
Proof.
  destruct item_separator_split as (w1 & w2 & Hsep & Hw1 & Hw2).
  induction items as [ | x items IH ]; intros fuel w rest Hne Hpv Hfuel Hw;
    [congruence | ].
  apply Forall_cons_1 in Hpv. destruct Hpv as [Hx Hpv].
  destruct fuel as [ | fuel ]; [cbn in Hfuel; lia | ].
  destruct items as [ | y items ].
  - cbn [map]. rewrite join_one. cbn [parse_elements].
    rewrite (Hx w _ Hw) by (destruct x; reflexivity).
    reflexivity.
  - cbn [map]. rewrite join_cons.
    change (dumps sep y :: map (dumps sep) items)
      with (map (dumps sep) (y :: items)).
    specialize (IH fuel w2 rest).
    set (tail := join (item_separator sep) (map (dumps sep) (y :: items))) in *.
    rewrite Hsep, <- !app_assoc. cbn [app parse_elements].
    rewrite (Hx w _ Hw) by (apply delimited_separator; [reflexivity | exact Hw1]).
    rewrite skip_ws_app by exact Hw1. rewrite skip_ws_head by reflexivity.
    change (Ascii.eqb ","%char ","%char) with true. cbv iota.
    rewrite IH; [reflexivity | discriminate | exact Hpv | | exact Hw2].
    cbn [length] in *. lia.
Qed.

Lemma parse_members_dumps pv (members : list (string * Json)) : forall fuel w rest,
  members <> [] ->
  Forall (fun kv => forall w' rest',
            forallb is_ws w' = true -> delimited kv.2 rest' = true ->
            pv (w' ++ dumps sep kv.2 ++ rest') = Some (kv.2, rest')) members ->
  length members <= fuel -> forallb is_ws w = true ->
  parse_members pv fuel
    (w ++ join (item_separator sep)
            (map (fun '(k, x) => string_literal k ++ key_separator sep ++ dumps sep x)
               members)
       ++ "}"%char :: rest)
  = Some (members, rest).
Proof.
  destruct item_separator_split as (w1 & w2 & Hsep & Hw1 & Hw2).
  destruct key_separator_split as (k1 & k2 & Hkey & Hk1 & Hk2).
  induction members as [ | [k x] members IH ]; intros fuel w rest Hne Hpv Hfuel Hw;
    [congruence | ].
  apply Forall_cons_1 in Hpv. destruct Hpv as [Hx Hpv]. cbn [snd] in Hx.
  destruct fuel as [ | fuel ]; [cbn in Hfuel; lia | ].
  assert (Hhead : forall tail,
    delimited x tail = true ->
    parse_members pv (S fuel)
      (w ++ string_literal k ++ key_separator sep ++ dumps sep x ++ tail)
    = match skip_ws tail with
      | [] => None
      | d :: r' =>
          if Ascii.eqb d ","%char then
            match parse_members pv fuel r' with
            | Some (kvs, r'') => Some ((k, x) :: kvs, r'')
            | None => None
            end
          else if Ascii.eqb d "}"%char then Some ([(k, x)], r')
          else None
      end).
  { intros tail Htail. cbn [parse_members]. rewrite skip_ws_app by exact Hw.
    unfold string_literal at 1. cbn [app].
    rewrite skip_ws_head by reflexivity.
    change (Ascii.eqb quote_char quote_char) with true. cbv iota.
    rewrite <- !app_assoc. cbn [app]. rewrite parse_string_body_escaped.
    rewrite Hkey, <- !app_assoc. cbn [app].
    rewrite skip_ws_app by exact Hk1. rewrite skip_ws_head by reflexivity.
    change (Ascii.eqb ":"%char ":"%char) with true. cbv iota.
    rewrite (Hx k2 tail Hk2 Htail), string_of_list_ascii_of_string. reflexivity. }
  destruct members as [ | [k' y] members ].
  - cbn [map]. rewrite join_one, <- !app_assoc.
    rewrite Hhead by (destruct x; reflexivity).
    reflexivity.
  - cbn [map]. rewrite join_cons.
    change ((string_literal k' ++ key_separator sep ++ dumps sep y)
            :: map (fun '(k, x) => string_literal k ++ key_separator sep ++ dumps sep x)
                 members)
      with (map (fun '(k, x) => string_literal k ++ key_separator sep ++ dumps sep x)
              ((k', y) :: members)).
    specialize (IH fuel w2 rest).
    set (tail := join (item_separator sep) _) in *.
    rewrite Hsep at 1. rewrite <- !app_assoc. cbn [app].
    rewrite Hhead by (apply delimited_separator; [reflexivity | exact Hw1]).
    rewrite skip_ws_app by exact Hw1. rewrite skip_ws_head by reflexivity.
    change (Ascii.eqb ","%char ","%char) with true. cbv iota.
    rewrite IH; [reflexivity | discriminate | exact Hpv | | exact Hw2].
    cbn [length] in *. lia.
Qed.

Lemma length_join_elem (s : text) (parts : list text) (p : text) :
  In p parts -> length p <= length (join s parts).
Proof.
  induction parts as [ | a parts IH ]; intros Hin; [destruct Hin | ].
  cbn [join]. rewrite length_app. destruct Hin as [-> | Hin]; [lia | ].
  destruct parts as [ | b parts ]; [destruct Hin | ].
  rewrite length_app. specialize (IH Hin). lia.
Qed.

Lemma length_join_count (s : text) (parts : list text) :
  Forall (fun p => 1 <= length p) parts -> length parts <= length (join s parts).
Proof.
  induction 1 as [ | a parts Ha Hparts IH ]; [cbn; lia | ].
  cbn [join length]. rewrite length_app.
  destruct parts as [ | b parts ]; [cbn; lia | ].
  rewrite length_app. lia.
Qed.

Lemma dumps_nonempty v : json_wf v = true -> 1 <= length (dumps sep v).
Proof.
  intros Hwf. destruct (dumps_head v Hwf) as (c & r & -> & _). cbn. lia.
Qed.

(** Every well-formed value is parsed back from its text. *)
Lemma parse_value_dumps v : json_wf v = true -> parsed_back sep v.
Proof.
  induction v as [ | b | literal | s | items IH | members IH ]
    using Json_nested_ind; intros Hwf fuel w rest Hfuel Hw Hrest;
    (destruct fuel as [ | fuel ];
     [pose proof (dumps_nonempty _ Hwf); lia | ]);
    cbn [parse_value]; rewrite skip_ws_app by exact Hw.
  - reflexivity.
  - destruct b; reflexivity.
  - cbn [json_wf dumps delimited] in *.
    apply andb_prop in Hwf. destruct Hwf as [Hne Hchars].
    pose proof (span_number_app _ rest Hchars Hrest) as Hspan.
    destruct literal as [ | c literal ]; [discriminate | ].
    cbn [list_ascii_of_string forallb app] in *.
    apply andb_prop in Hchars. destruct Hchars as [Hc _].
    destruct (number_char_dispatch c Hc) as (Hws & Hq & Ho & Hb & _).
    rewrite skip_ws_head by exact Hws. rewrite Hq, Ho, Hb, Hc, Hspan.
    change (c :: list_ascii_of_string literal)
      with (list_ascii_of_string (String c literal)).
    rewrite string_of_list_ascii_of_string. reflexivity.
  - cbn [dumps]. unfold string_literal. cbn [app].
    rewrite skip_ws_head by reflexivity.
    change (Ascii.eqb quote_char quote_char) with true. cbv iota.
    rewrite <- app_assoc. cbn [app].
    rewrite parse_string_body_escaped, string_of_list_ascii_of_string. reflexivity.
  - cbn [dumps json_wf] in *. cbn [app]. rewrite skip_ws_head by reflexivity.
    change (Ascii.eqb "["%char quote_char) with false.
    change (Ascii.eqb "["%char "["%char) with true. cbv iota.
    rewrite <- app_assoc. cbn [app].
    destruct items as [ | x items ]; [reflexivity | ].
    set (body := join (item_separator sep) (map (dumps sep) (x :: items))) in *.
    assert (Hhead : exists c r, body ++ "]"%char :: rest = c :: r
                                /\ is_ws c = false /\ Ascii.eqb c "]"%char = false).
    { cbn [forallb] in Hwf. apply andb_prop in Hwf. destruct Hwf as [Hx _].
      destruct (dumps_head x Hx) as (c & r & Hd & Hws & Hcl).
      subst body. cbn [map join]. rewrite Hd. cbn [app]. eauto. }
    destruct Hhead as (c & r & Hbody & Hws & Hcl).
    replace (skip_ws (body ++ "]"%char :: rest)) with (c :: r)
      by (rewrite Hbody; symmetry; apply skip_ws_head, Hws).
    rewrite Hcl.
    cbn [length] in Hfuel. rewrite length_app in Hfuel. cbn [length] in Hfuel.
    pose proof (parse_elements_dumps (parse_value fuel) (x :: items) fuel [] rest)
      as Hseq.
    cbn [app] in Hseq. fold body in Hseq. rewrite Hseq; [reflexivity | discriminate | | | reflexivity].
    + rewrite List.Forall_forall in *. intros y Hy w' rest' Hw' Hrest'.
      rewrite forallb_forall in Hwf.
      apply IH; [exact Hy | apply Hwf, Hy | | exact Hw' | exact Hrest'].
      pose proof (length_join_elem (item_separator sep) (map (dumps sep) (x :: items))
                    (dumps sep y) (in_map _ _ _ Hy)) as Hlen.
      fold body in Hlen. lia.
    + pose proof (length_join_count (item_separator sep)
                    (map (dumps sep) (x :: items))) as Hlen.
      fold body in Hlen. rewrite length_map in Hlen.
      assert (length (x :: items) <= length body); [ | lia].
      apply Hlen, Forall_map, List.Forall_forall. intros y Hy.
      rewrite forallb_forall in Hwf. apply dumps_nonempty, Hwf, Hy.
  - cbn [dumps json_wf] in *. cbn [app]. rewrite skip_ws_head by reflexivity.
    change (Ascii.eqb "{"%char quote_char) with false.
    change (Ascii.eqb "{"%char "["%char) with false.
    change (Ascii.eqb "{"%char "{"%char) with true. cbv iota.
    rewrite <- app_assoc. cbn [app].
    destruct members as [ | [k x] members ]; [reflexivity | ].
    set (member_text := fun '(k, x) =>
           string_literal k ++ key_separator sep ++ dumps sep x) in *.
    set (body := join (item_separator sep) (map member_text ((k, x) :: members))) in *.
    assert (Hhead : exists r, body ++ "}"%char :: rest = quote_char :: r).
    { subst body. cbn [map join]. unfold member_text at 1, string_literal at 1.
      cbn [app]. eauto. }
    destruct Hhead as (r & Hbody).
    replace (skip_ws (body ++ "}"%char :: rest)) with (quote_char :: r)
      by (rewrite Hbody; reflexivity).
    change (Ascii.eqb quote_char "}"%char) with false. cbv iota.
    cbn [length] in Hfuel. rewrite length_app in Hfuel. cbn [length] in Hfuel.
    pose proof (parse_members_dumps (parse_value fuel) ((k, x) :: members) fuel [] rest)
      as Hseq.
    cbn [app] in Hseq. fold member_text in Hseq. fold body in Hseq.
    rewrite forallb_forall in Hwf.
    rewrite Hseq; [reflexivity | discriminate | | | reflexivity].
    + rewrite List.Forall_forall in *. intros [k' y] Hy w' rest' Hw' Hrest'.
      cbn [snd] in *.
      apply (IH (k', y) Hy); [apply (Hwf (k', y) Hy) | | exact Hw' | exact Hrest'].
      pose proof (length_join_elem (item_separator sep)
                    (map member_text ((k, x) :: members))
                    (member_text (k', y)) (in_map _ _ _ Hy)) as Hlen.
      fold body in Hlen. unfold member_text at 1 in Hlen.
      rewrite !length_app in Hlen. cbn [snd]. lia.
    + pose proof (length_join_count (item_separator sep)
                    (map member_text ((k, x) :: members))) as Hlen.
      fold body in Hlen. rewrite length_map in Hlen.
      assert (length ((k, x) :: members) <= length body); [ | lia].
      apply Hlen, Forall_map, List.Forall_forall. intros [k' y] _.
      unfold member_text, string_literal. cbn [app length]. lia.
Qed.

(** The decoder inverts serialization: white space may follow the value. *)
Lemma json_loads_dumps v trailing :
  json_wf v = true -> forallb is_ws trailing = true ->
  json_loads (dumps sep v ++ trailing) = Some v.
Proof.
  intros Hwf Hws. unfold json_loads.
  pose proof (parse_value_dumps v Hwf (S (length (dumps sep v ++ trailing))) []
                trailing) as Hparse.
  cbn [app] in Hparse. rewrite Hparse.
  - rewrite Hws. reflexivity.
  - rewrite length_app. lia.
  - reflexivity.
  - destruct v; try reflexivity. cbn [delimited].
    destruct trailing as [ | c trailing ]; [reflexivity | ].
    cbn [forallb number_boundary] in *. apply andb_prop in Hws.
    destruct Hws as [Hc _].
    rewrite (is_ws_not_number c Hc). reflexivity.
Qed.

Lemma json_loads_decodes_serialized : decodes_serialized json_loads sep.
Proof.
  intros v Hwf. pose proof (json_loads_dumps v [] Hwf eq_refl) as H.
  rewrite app_nil_r in H. exact H.
Qed.

End DecoderLemmas.

(** ** Threshold policy: difficulty tier and cognitive level *)

Lemma Qlt_bool_iff (x y : Q) : Qlt_bool x y = true <-> (x < y)%Q.
Proof.
  unfold Qlt_bool. rewrite negb_true_iff, <- not_true_iff_false, Qle_bool_iff.
  split; [apply Qnot_le_lt | apply Qlt_not_le].
Qed.

Lemma Qle_bool_false_iff (x y : Q) : Qle_bool x y = false <-> (y < x)%Q.
Proof.
  rewrite <- not_true_iff_false, Qle_bool_iff.
  split; [apply Qnot_le_lt | apply Qlt_not_le].
Qed.

Lemma Qlt_bool_false_iff (x y : Q) : Qlt_bool x y = false <-> (y <= x)%Q.
Proof.
  unfold Qlt_bool. rewrite negb_false_iff. apply Qle_bool_iff.
Qed.

(** Case analysis on the band a score falls in. *)
Lemma score_band (s : Q) :
  (Qle_bool 85 s = true /\ (85 <= s)%Q)
  \/ (Qle_bool 85 s = false /\ Qlt_bool s 50 = true /\ (s < 50)%Q)
  \/ (Qle_bool 85 s = false /\ Qlt_bool s 50 = false /\ (50 <= s)%Q /\ (s < 85)%Q).
Proof.
  destruct (Qle_bool 85 s) eqn:H85.
  - left. split; [reflexivity | apply Qle_bool_iff, H85].
  - right. apply Qle_bool_false_iff in H85.
    destruct (Qlt_bool s 50) eqn:H50.
    + left. repeat split. apply Qlt_bool_iff, H50.
    + right. repeat split; [apply Qlt_bool_false_iff, H50 | exact H85].
Qed.

(** The difficulty function never raises. *)
Lemma calculate_new_difficulty_total d s :
  is_Some (calculate_new_difficulty d s).
Proof.
  unfold calculate_new_difficulty.
  destruct (score_band s) as [[-> _] | [(-> & -> & _) | (-> & -> & _)]];
    destruct d; cbn; eauto.
Qed.

(** C1. For every raw score [s], tier [d] and level [c]: both transition
    functions return; a score of at least 85 moves the tier and the level
    exactly one step up, or leaves them at the top; a score below 50 moves
    them exactly one step down, or leaves them at the bottom; any other
    score (50 included) leaves them unchanged; no transition moves by more
    than one step. *)
Theorem transition_single_step (s : Q) (d : Difficulty) (c : BloomLevel) (p : bool) :
  exists d' c',
    calculate_new_difficulty d s = Some d'
    /\ calculate_new_bloom_level c s p = Some c'
    /\ ((85 <= s)%Q ->
        tier_rank d' = Nat.min (tier_rank d + 1) 2
        /\ level_rank c' = Nat.min (level_rank c + 1) 5)
    /\ ((s < 50)%Q ->
        tier_rank d' = tier_rank d - 1 /\ level_rank c' = level_rank c - 1)
    /\ ((50 <= s)%Q /\ (s < 85)%Q -> d' = d /\ c' = c)
    /\ tier_rank d' <= tier_rank d + 1 /\ tier_rank d <= tier_rank d' + 1
    /\ level_rank c' <= level_rank c + 1 /\ level_rank c <= level_rank c' + 1.
Proof.
  unfold calculate_new_difficulty, calculate_new_bloom_level,
    MASTERY_THRESHOLD, STRUGGLING_THRESHOLD.
  destruct (score_band s) as [[-> Hs] | [(-> & -> & Hs) | (-> & -> & Hlo & Hhi)]];
    destruct d, c; cbn; eexists _, _;
    (split; [reflexivity | ]); (split; [reflexivity | ]); cbn;
    repeat split; try lia; intros; exfalso;
    repeat match goal with H : _ /\ _ |- _ => destruct H end; lra.
Qed.

(** The scenario of a learner at medium / Understand who scores 90. *)
Lemma transition_single_step_witness :
  exists d' c',
    calculate_new_difficulty MEDIUM 90 = Some d'
    /\ calculate_new_bloom_level UNDERSTAND 90 true = Some c'
    /\ tier_rank d' = 2 /\ level_rank c' = 2.
Proof.
  destruct (transition_single_step 90 MEDIUM UNDERSTAND true)
    as (d' & c' & Hd & Hc & Hup & _).
  exists d', c'. split; [exact Hd | ]. split; [exact Hc | ].
  apply Hup. discriminate.
Defined.

(** The boundary scores: 85 advances, 50 does not regress, and a score just
    under 50 regresses. *)
Example boundary_85_advances :
  calculate_new_difficulty EASY 85 = Some MEDIUM
  /\ calculate_new_difficulty MEDIUM 85 = Some HARD
  /\ calculate_new_difficulty HARD 85 = Some HARD
  /\ calculate_new_bloom_level EVALUATE 85 true = Some CREATE
  /\ calculate_new_bloom_level CREATE 85 true = Some CREATE.
Proof. repeat split; reflexivity. Qed.

Example boundary_50_stays :
  calculate_new_difficulty MEDIUM 50 = Some MEDIUM
  /\ calculate_new_bloom_level APPLY 50 false = Some APPLY
  /\ calculate_new_difficulty MEDIUM (4999 # 100) = Some EASY
  /\ calculate_new_bloom_level APPLY (4999 # 100) false = Some UNDERSTAND
  /\ calculate_new_difficulty EASY 0 = Some EASY
  /\ calculate_new_bloom_level REMEMBER 0 false = Some REMEMBER.
Proof. repeat split; reflexivity. Qed.

(** ** Mastery classification *)

(** The classification as a function of the best score and the attempt
    count alone: the label for each band of [calculate_mastery_level]. *)
Lemma calculate_mastery_level_bands (best : Q) (attempts : nat) :
  (attempts = 0 -> level (calculate_mastery_level best attempts) = "Not Started")
  /\ (attempts <> 0 -> (85 <= best)%Q ->
      level (calculate_mastery_level best attempts) = "Mastered")
  /\ (attempts <> 0 -> (70 <= best)%Q -> (best < 85)%Q ->
      level (calculate_mastery_level best attempts) = "Proficient")
  /\ (attempts <> 0 -> (50 <= best)%Q -> (best < 70)%Q ->
      level (calculate_mastery_level best attempts) = "Developing")
  /\ (attempts <> 0 -> (best < 50)%Q ->
      level (calculate_mastery_level best attempts) = "Needs Practice").
Proof.
  unfold calculate_mastery_level.
  destruct attempts as [ | n ]; cbn [Nat.eqb].
  - repeat split; intros; congruence.
  - destruct (Qle_bool 85 best) eqn:H85;
      [ apply Qle_bool_iff in H85 | apply Qle_bool_false_iff in H85;
        destruct (Qle_bool 70 best) eqn:H70;
        [ apply Qle_bool_iff in H70 | apply Qle_bool_false_iff in H70;
          destruct (Qle_bool 50 best) eqn:H50;
          [ apply Qle_bool_iff in H50 | apply Qle_bool_false_iff in H50 ] ] ];
      cbn; repeat split; intros; try reflexivity; try congruence; exfalso; lra.
Qed.

(** The classification is recomputed from the record each time it is
    read: two records with the same best score and attempt count have the
    same classification, whatever else they hold. *)
Lemma mastery_is_derived (p1 p2 : LessonProgress) :
  best_score p1 = best_score p2 -> quiz_attempts p1 = quiz_attempts p2 ->
  mastery p1 = mastery p2.
Proof. unfold mastery. intros -> ->. reflexivity. Qed.

(** The labels the back end produces for the top and the bottom band are
    no keys of the table of the UI. *)
Lemma mastery_level_unknown_to_ui (best : Q) (attempts : nat) :
  attempts <> 0 -> (85 <= best)%Q \/ (best < 50)%Q ->
  MasteryIndicator.masteryConfig !! level (calculate_mastery_level best attempts)
  = None.
Proof.
  intros Ha Hb.
  destruct (calculate_mastery_level_bands best attempts) as (_ & Htop & _ & _ & Hbot).
  destruct Hb as [Hb | Hb]; [rewrite (Htop Ha Hb) | rewrite (Hbot Ha Hb)];
    reflexivity.
Qed.

(** C4, at best score 90 with one attempt and at best score 30 with one
    attempt: the classification read from the record is "Mastered" and
    "Needs Practice"; the UI table has no entry under either label, so the
    indicator takes the "Not Started" entry, and the count of ProgressPage
    leaves "Mastery" and "Beginning" at 0 and stores NaN under the two
    labels. *)
Theorem mastery_labels_missed_by_ui :
  level (mastery mastered_lesson) = "Mastered"
  /\ level (mastery struggling_lesson) = "Needs Practice"
  /\ MasteryIndicator.masteryConfig !! "Mastered" = None
  /\ MasteryIndicator.masteryConfig !! "Needs Practice" = None
  /\ MasteryIndicator.config (Some (mastery mastered_lesson))
     = Some MasteryIndicator.config_Not_Started
  /\ MasteryIndicator.config (Some (mastery struggling_lesson))
     = Some MasteryIndicator.config_Not_Started
  /\ (let counts := ProgressPage.masteryCount
                      [[Some (mastery mastered_lesson);
                        Some (mastery struggling_lesson)]] in
      counts !! "Mastery" = Some (JS.Finite 0)
      /\ counts !! "Beginning" = Some (JS.Finite 0)
      /\ counts !! "Mastered" = Some JS.NaN
      /\ counts !! "Needs Practice" = Some JS.NaN).
Proof. repeat split; vm_compute; reflexivity. Qed.

(** The two middle bands and the empty record do reach an entry of the
    table. *)
Example mastery_labels_known_to_ui :
  MasteryIndicator.config (Some (calculate_mastery_level 75 2))
  = Some MasteryIndicator.config_Proficient
  /\ MasteryIndicator.config (Some (calculate_mastery_level 60 2))
     = Some MasteryIndicator.config_Developing
  /\ MasteryIndicator.config (Some (calculate_mastery_level 0 0))
     = Some MasteryIndicator.config_Not_Started.
Proof. repeat split; vm_compute; reflexivity. Qed.

(** ** ProgressBar *)

Lemma Qmin_Qmax_bounds (x : Q) :
  (0 <= Qmin 100 (Qmax 0 x))%Q /\ (Qmin 100 (Qmax 0 x) <= 100)%Q.
Proof.
  split.
  - apply Q.min_glb; [discriminate | apply Q.le_max_l].
  - apply Q.le_min_l.
Qed.

(** C10. For every value that is a number (finite or infinite) and every
    finite positive [max], the percentage is the finite number
    min(100, max(0, (value / max) * 100)), and it lies between 0 and 100;
    without a [max] prop the bound 100 is used. *)
Theorem ProgressBar_percentage_bounds (value : JS.Number) (m : Q) :
  value <> JS.NaN -> (0 < m)%Q ->
  exists p,
    ProgressBar.width value (Some (JS.Finite m)) = JS.Finite p
    /\ (0 <= p)%Q /\ (p <= 100)%Q
    /\ (forall v, value = JS.Finite v -> p = Qmin 100 (Qmax 0 (v / m * 100)))
    /\ (value = JS.Infinity false -> (p == 100)%Q)
    /\ (value = JS.Infinity true -> (p == 0)%Q)
    /\ ProgressBar.width value None = ProgressBar.width value (Some (JS.Finite 100)).
Proof.
  intros Hnan Hm.
  assert (Hm0 : JS.Qeq0 m = false).
  { unfold JS.Qeq0. apply not_true_iff_false. rewrite Qeq_bool_iff. lra. }
  assert (Hmn : JS.Qneg m = false).
  { unfold JS.Qneg. apply Qlt_bool_false_iff. lra. }
  unfold ProgressBar.width, ProgressBar.percentage.
  destruct value as [ | [ | ] | v ]; [congruence | | | ]; cbn; rewrite ?Hm0, ?Hmn; cbn.
  - exists 0%Q. repeat split; try discriminate; try reflexivity; congruence.
  - exists 100%Q. repeat split; try discriminate; try reflexivity; congruence.
  - exists (Qmin 100 (Qmax 0 (v / m * 100))).
    destruct (Qmin_Qmax_bounds (v / m * 100)) as [Hlo Hhi].
    repeat split; try assumption; try congruence.
Qed.

(** A value above [max], a negative value and an infinite one. *)
Lemma ProgressBar_percentage_bounds_witness :
  (exists p, ProgressBar.width (JS.Finite 250) (Some (JS.Finite 100)) = JS.Finite p
             /\ (0 <= p)%Q /\ (p <= 100)%Q)
  /\ (exists p, ProgressBar.width (JS.Finite (-5)) (Some (JS.Finite 20)) = JS.Finite p
                /\ (0 <= p)%Q /\ (p <= 100)%Q).
Proof.
  split.
  - destruct (ProgressBar_percentage_bounds (JS.Finite 250) 100)
      as (p & Hp & Hlo & Hhi & _); [discriminate | reflexivity | ].
    exists p. auto.
  - destruct (ProgressBar_percentage_bounds (JS.Finite (-5)) 20)
      as (p & Hp & Hlo & Hhi & _); [discriminate | reflexivity | ].
    exists p. auto.
Defined.

Example ProgressBar_clamps :
  ProgressBar.width (JS.Finite 250) None = JS.Finite 100
  /\ ProgressBar.width (JS.Finite (-5)) None = JS.Finite 0
  /\ ProgressBar.width (JS.Finite 1) (Some (JS.Finite 4)) = JS.Finite (100 # 4).
Proof. repeat split; vm_compute; reflexivity. Qed.

(** Outside the theorem: a value that is not a number, a zero [max] under a
    zero value, and an infinite value under an infinite [max] give a width
    that is not a number. *)
Example ProgressBar_NaN :
  ProgressBar.width JS.NaN None = JS.NaN
  /\ ProgressBar.width (JS.Finite 0) (Some (JS.Finite 0)) = JS.NaN
  /\ ProgressBar.width (JS.Infinity false) (Some (JS.Infinity false)) = JS.NaN.
Proof. repeat split; reflexivity. Qed.

(** ** Grading *)

Lemma count_correct_app fb1 fb2 :
  count_correct (fb1 ++ fb2) = count_correct fb1 + count_correct fb2.
Proof. unfold count_correct. rewrite List.filter_app, length_app. reflexivity. Qed.

(** The loop adds one entry per question, in order, and counts the
    entries it marks correct. *)
Lemma grade_loop_spec questions answers n fb :
  grade_loop questions answers n fb
  = (n + count_correct (map (feedback_entry answers) questions),
     fb ++ map (feedback_entry answers) questions).
Proof.
  revert n fb. induction questions as [ | q questions IH ]; intros n fb.
  - cbn. rewrite Nat.add_0_r, app_nil_r. reflexivity.
  - cbn [grade_loop map]. rewrite IH, <- app_assoc. cbn [app].
    f_equal. change (feedback_entry answers q :: ?l) with ([feedback_entry answers q] ++ l).
    rewrite count_correct_app. unfold count_correct at 2. cbn.
    destruct (String.eqb _ _); cbn; lia.
Qed.

Lemma grade_quiz_unfold questions answers :
  questions <> [] ->
  grade_quiz questions answers
  = Some (mkGradeResult
            ((inject_Z (Z.of_nat (count_correct (map (feedback_entry answers) questions)))
              / inject_Z (Z.of_nat (length questions))) * 100)%Q
            (count_correct (map (feedback_entry answers) questions))
            (length questions)
            (map (feedback_entry answers) questions)).
Proof.
  intros Hne. unfold grade_quiz. rewrite grade_loop_spec.
  destruct questions; [congruence | reflexivity].
Qed.

Lemma count_correct_all_true fb :
  Forall (fun f => fb_is_correct f = true) fb -> count_correct fb = length fb.
Proof.
  unfold count_correct. induction 1 as [ | f fb Hf _ IH ]; cbn; [reflexivity | ].
  rewrite Hf. cbn. rewrite IH. reflexivity.
Qed.

Lemma score_all_correct (n : nat) :
  n <> 0 -> ((inject_Z (Z.of_nat n) / inject_Z (Z.of_nat n)) * 100 == 100)%Q.
Proof.
  intros Hn.
  assert (H : ~ (inject_Z (Z.of_nat n) == 0)%Q) by (unfold Qeq; cbn; lia).
  field. exact H.
Qed.

(** The entry of a question: marked correct exactly when the answer read
    for it is the correct option, character for character. *)
Lemma feedback_entry_exact (answers : gmap string string) (q : QuizQuestion) :
  let f := feedback_entry answers q in
  fb_question_id f = question_id q
  /\ fb_correct_answer f = correct_answer q
  /\ fb_user_answer f = dict_get answers (question_id q)
  /\ (fb_is_correct f = true <-> fb_user_answer f = correct_answer q)
  /\ (forall a, answers !! question_id q = Some a ->
        (fb_is_correct f = true <-> a = correct_answer q)).
Proof.
  cbn. split; [reflexivity | ]. split; [reflexivity | ]. split; [reflexivity | ].
  split; [apply String.eqb_eq | ].
  intros a Ha. unfold dict_get. rewrite Ha. cbn. apply String.eqb_eq.
Qed.

(** C2. Grading a non-empty question list returns a result with one
    feedback entry per question; an entry is marked correct exactly when
    the answer string read for its question equals the correct option
    character for character; the count is the number of entries marked
    correct, each counting one; the score is 100 * correct / total; the
    attempt is passed exactly when the score is at least 70; and when
    every question is answered with its correct option the score is 100 and
    the attempt is passed. *)
Theorem grade_quiz_exact_match (questions : list QuizQuestion)
  (answers : gmap string string) :
  questions <> [] ->
  exists r,
    grade_quiz questions answers = Some r
    /\ total r = length questions
    /\ Forall2 (fun q f =>
         fb_question_id f = question_id q
         /\ fb_correct_answer f = correct_answer q
         /\ fb_user_answer f = dict_get answers (question_id q)
         /\ (fb_is_correct f = true <-> fb_user_answer f = correct_answer q)
         /\ (forall a, answers !! question_id q = Some a ->
               (fb_is_correct f = true <-> a = correct_answer q)))
       questions (feedback r)
    /\ correct_count r = count_correct (feedback r)
    /\ (score r == 100 * inject_Z (Z.of_nat (correct_count r))
                   / inject_Z (Z.of_nat (total r)))%Q
    /\ (passed (score r) = true <-> (70 <= score r)%Q)
    /\ (Forall (fun q => answers !! question_id q = Some (correct_answer q)) questions ->
        correct_count r = total r /\ (score r == 100)%Q /\ passed (score r) = true).
Proof.
  intros Hne. eexists. split; [apply grade_quiz_unfold, Hne | ]. cbn.
  split; [reflexivity | ].
  split.
  { clear Hne. induction questions as [ | q questions IH ]; cbn [map]; constructor;
      [apply feedback_entry_exact | exact IH]. }
  split; [reflexivity | ].
  split.
  { unfold Qdiv. ring. }
  split; [apply Qle_bool_iff | ].
  intros Hall.
  assert (Hcount : count_correct (map (feedback_entry answers) questions)
                   = length questions).
  { rewrite count_correct_all_true, length_map; [reflexivity | ].
    apply Forall_map. eapply Forall_impl; [exact Hall | ].
    intros q Hq. cbn. unfold dict_get. rewrite Hq. cbn. apply String.eqb_refl. }
  rewrite Hcount.
  assert (Hlen : length questions <> 0) by (destruct questions; cbn; congruence).
  pose proof (score_all_correct (length questions) Hlen) as Hscore.
  split; [reflexivity | ]. split; [exact Hscore | ].
  unfold passed, PASS_THRESHOLD. apply Qle_bool_iff. rewrite Hscore. discriminate.
Qed.

Lemma grade_quiz_exact_match_witness :
  exists r,
    grade_quiz [arithmetic_question] {["q1" := "4"]} = Some r
    /\ (score r == 100)%Q /\ passed (score r) = true.
Proof.
  destruct (grade_quiz_exact_match [arithmetic_question] {["q1" := "4"]})
    as (r & Hr & _ & _ & _ & _ & _ & Hall); [discriminate | ].
  exists r. split; [exact Hr | ].
  apply Hall. repeat constructor.
Defined.

(** No case normalization and no partial credit: an answer that differs
    from the correct option in case only is wrong. *)
Example grade_quiz_case_sensitive :
  let q := mkQuizQuestion "q1" "Capital of France?" ["Paris"; "Rome"; "Bonn"; "Oslo"]
             "Paris" EASY REMEMBER "" in
  (fb_is_correct <$> (grade_quiz [q] {["q1" := "paris"]} ≫= fun r => head (feedback r)))
  = Some false
  /\ (correct_count <$> grade_quiz [q] {["q1" := "paris"]}) = Some 0
  /\ (correct_count <$> grade_quiz [q] {["q1" := "Paris"]}) = Some 1.
Proof. repeat split; vm_compute; reflexivity. Qed.

(** Two of three correct: the score of the API example, not passed. *)
Example grade_quiz_two_of_three :
  let q i := mkQuizQuestion i "?" ["A"; "B"; "C"; "D"] "A" MEDIUM UNDERSTAND "" in
  exists r,
    grade_quiz [q "1"; q "2"; q "3"] (<["1" := "A"]> (<["2" := "A"]> {["3" := "B"]})) = Some r
    /\ correct_count r = 2 /\ (score r == 200 / 3)%Q /\ passed (score r) = false.
Proof. eexists. split; [vm_compute; reflexivity | ]. repeat split. Qed.

(** An empty question list makes the division fail. *)
Example grade_quiz_empty : grade_quiz [] ∅ = None.
Proof. reflexivity. Qed.

(** ** Answers for questions that are not in the quiz *)

Lemma feedback_entry_agree answers1 answers2 q :
  answers1 !! question_id q = answers2 !! question_id q ->
  feedback_entry answers1 q = feedback_entry answers2 q.
Proof. intros H. unfold feedback_entry, dict_get. rewrite H. reflexivity. Qed.

(** C9 as stated fails: a submission with an answer for an unknown
    question identifier is graded, here with score 100. *)
Lemma grade_quiz_unknown_id_not_rejected :
  let answers : gmap string string := <["ghost" := "x"]> {["q1" := "4"]} in
  references_unknown_question [arithmetic_question] answers
  /\ grade_quiz [arithmetic_question] answers
     = Some (mkGradeResult 100 1 1
               [mkFeedback "q1" "4" "4" true "Basic arithmetic"]).
Proof.
  split.
  - exists "ghost". split; [vm_compute; eauto | ].
    cbn. intros [H | []]. discriminate.
  - vm_compute. reflexivity.
Qed.

(** Answer sets that agree on the identifiers of the quiz give the same
    feedback entries, hence the same grading. *)
Lemma grade_quiz_agree (questions : list QuizQuestion)
  (answers1 answers2 : gmap string string) :
  questions <> [] ->
  (forall q, In q questions ->
     answers1 !! question_id q = answers2 !! question_id q) ->
  grade_quiz questions answers1 = grade_quiz questions answers2.
Proof.
  intros Hne Hagree.
  rewrite !grade_quiz_unfold by assumption.
  assert (Hmap : map (feedback_entry answers1) questions
                 = map (feedback_entry answers2) questions).
  { apply map_ext_in. intros q Hq. apply feedback_entry_agree, Hagree, Hq. }
  rewrite Hmap. reflexivity.
Qed.

(** C9, amended. Grading reads the answer set only under the identifiers of
    the quiz's own questions: two answer sets that agree there are graded
    alike, so entries under other identifiers change nothing, and grading a
    non-empty quiz always returns a result. *)
Theorem grade_quiz_ignores_unknown_ids (questions : list QuizQuestion)
  (answers1 answers2 : gmap string string) :
  questions <> [] ->
  (forall q, In q questions ->
     answers1 !! question_id q = answers2 !! question_id q) ->
  grade_quiz questions answers1 = grade_quiz questions answers2
  /\ is_Some (grade_quiz questions answers1).
Proof.
  intros Hne Hagree. split; [apply grade_quiz_agree; assumption | ].
  rewrite grade_quiz_unfold by assumption. eauto.
Qed.

Lemma grade_quiz_ignores_unknown_ids_witness :
  grade_quiz [arithmetic_question] (<["ghost" := "x"]> {["q1" := "4"]})
  = grade_quiz [arithmetic_question] {["q1" := "4"]}
  /\ is_Some (grade_quiz [arithmetic_question] (<["ghost" := "x"]> {["q1" := "4"]})).
Proof.
  apply grade_quiz_ignores_unknown_ids; [discriminate | ].
  intros q [<- | []]. vm_compute. reflexivity.
Defined.

(** An answer added under an identifier that is not in the quiz leaves the
    grading as it was. *)
Lemma grade_quiz_insert_unknown (questions : list QuizQuestion)
  (answers : gmap string string) (k v : string) :
  questions <> [] -> ~ In k (map question_id questions) ->
  grade_quiz questions (<[k := v]> answers) = grade_quiz questions answers.
Proof.
  intros Hne Hk. apply grade_quiz_agree; [exact Hne | ].
  intros q Hq. apply lookup_insert_ne. intros ->. apply Hk, in_map, Hq.
Qed.

(** ** Smoothed score *)

Lemma record_attempts_snoc p scores score now :
  record_attempts p (scores ++ [score]) now
  = update_lesson_progress (record_attempts p scores now) score now.
Proof. unfold record_attempts. rewrite foldl_app. reflexivity. Qed.

Lemma quiz_attempts_record_attempts p scores now :
  quiz_attempts (record_attempts p scores now) = quiz_attempts p + length scores.
Proof.
  revert p. induction scores as [ | s scores IH ]; intros p; cbn.
  - lia.
  - unfold record_attempts in IH. rewrite IH. cbn. lia.
Qed.

(** C3. On a record without attempts, the smoothed score after the first
    graded attempt with raw score [r] is [r / 100]; after every later
    attempt with raw score [r2] it is 0.3 * (r2 / 100) + 0.7 * the previous
    smoothed score.  A first attempt scoring 90 gives 0.90 and a following
    attempt scoring 40 gives 0.75. *)
Theorem smoothed_score_update (p : LessonProgress) (now : string) :
  quiz_attempts p = 0 ->
  (forall r, smoothed_score (record_attempts p [r] now) = (r / 100)%Q)
  /\ (forall scores r2, scores <> [] ->
        (smoothed_score (record_attempts p (scores ++ [r2]) now)
         == (3 # 10) * (r2 / 100)
            + (7 # 10) * smoothed_score (record_attempts p scores now))%Q)
  /\ (smoothed_score (record_attempts p [90%Q] now) == 9 # 10)%Q
  /\ (smoothed_score (record_attempts p [90%Q; 40%Q] now) == 75 # 100)%Q.
Proof.
  intros H0.
  assert (Hfirst : forall r, smoothed_score (record_attempts p [r] now) = (r / 100)%Q).
  { intros r. cbn. rewrite H0. reflexivity. }
  assert (Hnext : forall scores r2, scores <> [] ->
            (smoothed_score (record_attempts p (scores ++ [r2]) now)
             == (3 # 10) * (r2 / 100)
                + (7 # 10) * smoothed_score (record_attempts p scores now))%Q).
  { intros scores r2 Hne. rewrite record_attempts_snoc.
    cbn [update_lesson_progress smoothed_score].
    rewrite quiz_attempts_record_attempts, H0.
    destruct scores as [ | s scores ]; [congruence | ]. cbn [length Nat.add Nat.eqb].
    unfold exponential_smoothing, ALPHA. ring. }
  split; [exact Hfirst | ]. split; [exact Hnext | ]. split.
  - rewrite Hfirst. reflexivity.
  - rewrite (Hnext [90%Q] 40%Q) by discriminate. rewrite Hfirst. reflexivity.
Qed.

Lemma smoothed_score_update_witness :
  (smoothed_score (record_attempts scenario_start [90%Q] "t1") == 9 # 10)%Q
  /\ (smoothed_score (record_attempts scenario_start [90%Q; 40%Q] "t1") == 75 # 100)%Q.
Proof.
  destruct (smoothed_score_update scenario_start "t1") as (_ & _ & H1 & H2);
    [reflexivity | ].
  split; assumption.
Defined.

Example scenario_after_90 :
  let p := record_attempts scenario_start [90%Q] "t1" in
  current_difficulty p = HARD /\ current_bloom_level p = APPLY
  /\ best_score p = 90%Q /\ (smoothed_score p == 9 # 10)%Q
  /\ quiz_attempts p = 1.
Proof. repeat split. Qed.

Example scenario_after_90_then_40 :
  let p := record_attempts scenario_start [90%Q; 40%Q] "t1" in
  current_difficulty p = MEDIUM /\ current_bloom_level p = UNDERSTAND
  /\ best_score p = 90%Q /\ (smoothed_score p == 75 # 100)%Q
  /\ quiz_attempts p = 2 /\ level (mastery p) = "Mastered".
Proof. repeat split. Qed.

(** The record of the progress schema (section 6.3): attempts scoring 66.67
    and 85.0 give a smoothed score that rounds to the 0.72 stored there. *)
Example schema_example_smoothed :
  let p := record_attempts scenario_start [6667 # 100; 85]%Q "t1" in
  (715 # 1000 <= smoothed_score p)%Q /\ (smoothed_score p < 725 # 1000)%Q.
Proof. split; vm_compute; congruence. Qed.

(** ** Retry orchestrator *)

Section RetryProperties.

Context {Prompt Shape Decoded Value : Type}.
Variable generation_client : Prompt -> nat -> TransportFailure + string.
Variable text_repair : string -> option Decoded.
Variable schema_validator : Shape -> Decoded -> option Value.

Let loop := retry_loop generation_client text_repair schema_validator.

Lemma calls_from_S first count :
  calls_from first (S count) = GenerationCall first :: calls_from (S first) count.
Proof. reflexivity. Qed.

Lemma generation_calls_app t1 t2 :
  generation_calls (t1 ++ t2) = generation_calls t1 + generation_calls t2.
Proof. unfold generation_calls. rewrite filter_app, length_app. reflexivity. Qed.

Lemma generation_calls_calls_from first count :
  generation_calls (calls_from first count) = count.
Proof.
  revert first. induction count as [ | count IH ]; intros first; [reflexivity | ].
  rewrite calls_from_S. change (?e :: ?l) with ([e] ++ l).
  rewrite generation_calls_app, IH. reflexivity.
Qed.

(** The loop only appends generator calls, consecutively numbered, and at
    most as many as attempts remain. *)
Lemma retry_loop_trace prompt shape remaining attempt last_raw trace :
  exists count,
    count <= remaining
    /\ snd (loop prompt shape remaining attempt last_raw trace)
       = trace ++ calls_from attempt count.
Proof.
  revert attempt last_raw trace.
  induction remaining as [ | remaining IH ]; intros attempt last_raw trace.
  - exists 0. cbn. rewrite app_nil_r. split; [lia | reflexivity].
  - cbn [loop retry_loop]. unfold loop in *.
    destruct (generation_client prompt attempt) as [failure | text].
    + destruct (IH (S attempt) last_raw (trace ++ [GenerationCall attempt]))
        as (count & Hle & Heq).
      exists (S count). split; [lia | ].
      rewrite Heq, calls_from_S, <- app_assoc. reflexivity.
    + destruct (repair_and_validate text_repair schema_validator shape text)
        as [v | ].
      * exists 1. split; [lia | reflexivity].
      * destruct (IH (S attempt) (Some text) (trace ++ [GenerationCall attempt]))
          as (count & Hle & Heq).
        exists (S count). split; [lia | ].
        rewrite Heq, calls_from_S, <- app_assoc. reflexivity.
Qed.

(** The loop stops at the first attempt that passes: [skip] failing
    attempts, then a passing one, give the value after [skip + 1] calls. *)
Lemma retry_loop_first_success prompt shape v skip :
  forall remaining attempt last_raw trace,
    skip < remaining ->
    (forall j, attempt <= j < attempt + skip ->
       attempt_fails generation_client text_repair schema_validator prompt shape j) ->
    attempt_passes generation_client text_repair schema_validator prompt shape
      (attempt + skip) v ->
    loop prompt shape remaining attempt last_raw trace
    = (Validated v, trace ++ calls_from attempt (S skip)).
Proof.
  induction skip as [ | skip IH ]; intros remaining attempt last_raw trace Hlt Hfail Hpass.
  - destruct remaining as [ | remaining ]; [lia | ].
    rewrite Nat.add_0_r in Hpass. destruct Hpass as (text & Hgen & Hok).
    cbn [loop retry_loop]. unfold loop. cbn [retry_loop]. rewrite Hgen, Hok. reflexivity.
  - destruct remaining as [ | remaining ]; [lia | ].
    assert (Hhead : attempt_fails generation_client text_repair schema_validator
                      prompt shape attempt) by (apply Hfail; lia).
    assert (Htail : forall trace' last_raw',
              loop prompt shape remaining (S attempt) last_raw' trace'
              = (Validated v, trace' ++ calls_from (S attempt) (S skip))).
    { intros trace' last_raw'. apply IH; [lia | | ].
      - intros j Hj. apply Hfail. lia.
      - replace (S attempt + skip) with (attempt + S skip) by lia. exact Hpass. }
    unfold loop in *. cbn [retry_loop]. unfold attempt_fails in Hhead.
    destruct (generation_client prompt attempt) as [failure | text].
    + rewrite Htail, <- app_assoc. reflexivity.
    + rewrite Hhead, Htail, <- app_assoc. reflexivity.
Qed.

End RetryProperties.

(** C5. One invocation of the pipeline issues at most [maxAttempts]
    Generation Client calls; when attempt [k] is the first whose response
    passes repair and validation, the pipeline returns that value after
    exactly the calls 1 .. k and issues none after it; the trace holds
    generator calls only, one directly after the other, and no delay; with
    [MAX_RETRIES] the bound is 3. *)
Theorem generateValidated_bounded {Prompt Shape Decoded Value : Type}
  (generation_client : Prompt -> nat -> TransportFailure + string)
  (text_repair : string -> option Decoded)
  (schema_validator : Shape -> Decoded -> option Value)
  (prompt : Prompt) (shape : Shape) (maxAttempts : nat) :
  let run := generateValidated generation_client text_repair schema_validator
               prompt shape in
  generation_calls (snd (run maxAttempts)) <= maxAttempts
  /\ (exists count, count <= maxAttempts /\ snd (run maxAttempts) = calls_from 1 count)
  /\ Forall (fun e => is_generation_call e = true) (snd (run maxAttempts))
  /\ (forall k v,
        1 <= k <= maxAttempts ->
        (forall j, 1 <= j < k ->
           attempt_fails generation_client text_repair schema_validator prompt shape j) ->
        attempt_passes generation_client text_repair schema_validator prompt shape k v ->
        run maxAttempts = (Validated v, calls_from 1 k)
        /\ generation_calls (snd (run maxAttempts)) = k)
  /\ generation_calls
       (snd (call_llm_with_retry generation_client text_repair schema_validator
               prompt shape)) <= 3.
Proof.
  intros run.
  assert (Htrace : forall n, exists count,
             count <= n /\ snd (run n) = calls_from 1 count).
  { intros n.
    destruct (retry_loop_trace generation_client text_repair schema_validator
                prompt shape n 1 None []) as (count & Hle & Heq).
    exists count. split; [exact Hle | exact Heq]. }
  assert (Hbound : forall n, generation_calls (snd (run n)) <= n).
  { intros n. destruct (Htrace n) as (count & Hle & ->).
    rewrite generation_calls_calls_from. exact Hle. }
  split; [apply Hbound | ]. split; [apply Htrace | ]. split.
  { destruct (Htrace maxAttempts) as (count & _ & ->).
    unfold calls_from. apply Forall_map, Forall_forall. reflexivity. }
  split; [ | apply (Hbound MAX_RETRIES)].
  intros k v Hk Hfail Hpass.
  assert (Hrun : run maxAttempts = (Validated v, calls_from 1 k)).
  { destruct k as [ | skip ]; [lia | ].
    apply (retry_loop_first_success generation_client text_repair schema_validator
             prompt shape v skip maxAttempts 1 None []); [lia | | exact Hpass].
    intros j Hj. apply Hfail. lia. }
  split; [exact Hrun | ]. rewrite Hrun. apply generation_calls_calls_from.
Qed.

Lemma generateValidated_bounded_witness :
  generateValidated flaky_client scenario_repair scenario_validator "quiz" tt 5
  = (Validated [arithmetic_question], calls_from 1 3)
  /\ generation_calls
       (snd (generateValidated flaky_client scenario_repair scenario_validator
               "quiz" tt 5)) = 3.
Proof.
  destruct (generateValidated_bounded flaky_client scenario_repair scenario_validator
              "quiz" tt 5)
    as (_ & _ & _ & Hfirst & _).
  apply Hfirst.
  - lia.
  - intros j Hj. assert (Hcases : j = 1 \/ j = 2) by lia.
    destruct Hcases as [-> | ->]; vm_compute; reflexivity.
  - exists (string_of_list_ascii scenario_text). split; vm_compute; reflexivity.
Defined.

(** With two attempts the pipeline is exhausted and hands back the last raw
    response. *)
Example retry_exhausted :
  generateValidated flaky_client scenario_repair scenario_validator "quiz" tt 2
  = (GenerationExhausted (Some "Sorry, I cannot help with that."), calls_from 1 2).
Proof. vm_compute. reflexivity. Qed.

(** ** Text repair: structural extraction and the cascade *)

Lemma first_success_spec {A B : Type} (stages : list (A -> option B)) (x : A) :
  forall i stage y,
    stages !! i = Some stage -> stage x = Some y ->
    (forall j stage', j < i -> stages !! j = Some stage' -> stage' x = None) ->
    first_success stages x = Some y.
Proof.
  induction stages as [ | s stages IH ]; intros i stage y Hi Hy Hbefore.
  - discriminate.
  - destruct i as [ | i ]; cbn in Hi.
    + injection Hi as ->. cbn. rewrite Hy. reflexivity.
    + cbn. rewrite (Hbefore 0 s) by (lia || reflexivity).
      apply (IH i stage y Hi Hy).
      intros j stage' Hj Hs. apply (Hbefore (S j) stage'); [lia | exact Hs].
Qed.

Lemma first_success_none {A B : Type} (stages : list (A -> option B)) (x : A) :
  Forall (fun stage => stage x = None) stages -> first_success stages x = None.
Proof.
  induction 1 as [ | s stages Hs _ IH ]; cbn; [reflexivity | ].
  rewrite Hs. exact IH.
Qed.

(** C6 as stated fails: with a bracketed remark in the leading prose the
    first balanced span is the remark, and the stage decodes it and not
    the embedded object. *)
Lemma extraction_roundtrip_counterexample :
  json_wf remark_value = true /\ is_container remark_value = true
  /\ json_loads (dumps default_separators remark_value) = Some remark_value
  /\ first_balanced_span remark_text = Some (list_ascii_of_string "[1]")
  /\ first_balanced_span remark_text <> Some (dumps default_separators remark_value)
  /\ extraction_stage json_loads remark_text = Some (JArray [JNumber "1"])
  /\ extraction_stage json_loads remark_text <> Some remark_value
  /\ forall decode,
       decodes_serialized decode default_separators ->
       extraction_stage decode remark_text <> Some remark_value.
Proof.
  split; [reflexivity | ]. split; [reflexivity | ].
  split; [vm_compute; reflexivity | ].
  assert (Hspan : first_balanced_span remark_text = Some (list_ascii_of_string "[1]"))
    by (vm_compute; reflexivity).
  split; [exact Hspan | ]. split; [rewrite Hspan; discriminate | ].
  assert (Hstage : extraction_stage json_loads remark_text = Some (JArray [JNumber "1"]))
    by (vm_compute; reflexivity).
  split; [exact Hstage | ]. split; [rewrite Hstage; discriminate | ].
  intros decode Hdecode. unfold extraction_stage. rewrite Hspan.
  pose proof (Hdecode (JArray [JNumber "1"]) eq_refl) as H1.
  change (decode (list_ascii_of_string "[1]") = Some (JArray [JNumber "1"])) in H1.
  change (Some (list_ascii_of_string "[1]") ≫= decode)
    with (decode (list_ascii_of_string "[1]")).
  rewrite H1. discriminate.
Qed.

(** C6, amended. For every well-formed JSON array or object serialized
    between leading prose that holds no opening bracket and arbitrary
    trailing prose, the first balanced span is exactly the serialized
    value, so the extraction stage decodes exactly what decoding the
    embedded text alone gives, and with the decoder exactly the embedded
    value.  The cascade returns the decode of the first stage, in the fixed
    order, that succeeds, and fails with the offending text when none
    does. *)
Theorem extraction_roundtrip (sep : Separators) (pre post : text) (v : Json) :
  separators_wf sep = true -> json_wf v = true -> is_container v = true ->
  forallb (fun c => negb (is_open c)) pre = true ->
  first_balanced_span (pre ++ dumps sep v ++ post) = Some (dumps sep v)
  /\ (forall decode,
        extraction_stage decode (pre ++ dumps sep v ++ post) = decode (dumps sep v))
  /\ extraction_stage json_loads (pre ++ dumps sep v ++ post) = Some v
  /\ (forall decode trim cleanup truncation_repair pattern_reconstruction response,
        let stages := repair_stages decode trim cleanup truncation_repair
                        pattern_reconstruction in
        let result := validate_json decode trim cleanup truncation_repair
                        pattern_reconstruction response in
        (forall i stage y,
           stages !! i = Some stage -> stage response = Some y ->
           (forall j stage', j < i -> stages !! j = Some stage' ->
              stage' response = None) ->
           result = Repaired y)
        /\ (Forall (fun stage => stage response = None) stages ->
            result = RepairFailed response)).
Proof.
  intros Hsep Hwf Hc Hpre.
  pose proof (first_balanced_span_dumps sep Hsep pre v post Hwf Hc Hpre) as Hspan.
  split; [exact Hspan | ].
  assert (Hstage : forall decode,
            extraction_stage decode (pre ++ dumps sep v ++ post)
            = decode (dumps sep v)).
  { intros decode. unfold extraction_stage. rewrite Hspan. reflexivity. }
  split; [exact Hstage | ]. split.
  { rewrite Hstage.
    pose proof (json_loads_dumps sep Hsep v [] Hwf eq_refl) as Hloads.
    rewrite app_nil_r in Hloads. exact Hloads. }
  intros decode trim cleanup truncation_repair pattern_reconstruction response
    stages result.
  subst result. unfold validate_json. fold stages. split.
  - intros i stage y Hi Hy Hbefore.
    rewrite (first_success_spec stages response i stage y Hi Hy Hbefore). reflexivity.
  - intros Hnone. rewrite (first_success_none stages response Hnone). reflexivity.
Qed.

(** The raw text of the end-to-end scenario: structural extraction recovers
    the one-question array. *)
Lemma extraction_roundtrip_witness :
  first_balanced_span scenario_text
  = Some (dumps compact_separators (JArray [scenario_question]))
  /\ extraction_stage json_loads scenario_text = Some (JArray [scenario_question]).
Proof.
  destruct (extraction_roundtrip compact_separators scenario_pre scenario_post
              (JArray [scenario_question]))
    as (Hspan & _ & Hstage & _); try reflexivity.
  split; [exact Hspan | exact Hstage].
Defined.

(** The stages before extraction fail on the scenario text (direct decode of
    the trimmed text, and decode after a cleanup that leaves the prose in
    place), so the cascade answers with the extracted array. *)
Example scenario_cascade :
  validate_json json_loads (fun t => t) (fun t => t) (fun _ => None) (fun _ => None)
    scenario_text
  = Repaired (JArray [scenario_question]).
Proof. vm_compute. reflexivity. Qed.

(** An unbalanced bracket in the leading prose is passed over: the next
    opening bracket is tried. *)
Example extraction_skips_unbalanced :
  first_balanced_span
    (list_ascii_of_string "note [ then " ++ dumps default_separators remark_value)
  = Some (dumps default_separators remark_value).
Proof. vm_compute. reflexivity. Qed.

(** Brackets inside string literals do not count. *)
Example extraction_ignores_brackets_in_strings :
  let v := JArray [JString "a ] b [ c } d"; JString "quote here"] in
  first_balanced_span (dumps default_separators v ++ list_ascii_of_string "] trailing")
  = Some (dumps default_separators v).
Proof. vm_compute. reflexivity. Qed.

(** ** Schema validator *)

Lemma member_In (x : string) (l : list string) : member x l = true <-> In x l.
Proof.
  unfold member. rewrite existsb_exists. split.
  - intros (y & Hy & Heq). apply String.eqb_eq in Heq. subst y. exact Hy.
  - intros H. exists x. split; [exact H | apply String.eqb_refl].
Qed.

Lemma check_accepted (b : bool) (e : ValidationFailure) (u : unit) :
  check b e = Accepted u -> b = true.
Proof. destruct b; [reflexivity | discriminate]. Qed.

Lemma required_string_correct_answer members answer :
  candidate_correct_answer (JObject members) = Some answer ->
  required_string members "correct_answer" = Accepted answer.
Proof.
  unfold candidate_correct_answer, required_string.
  destruct (get_field members "correct_answer") as [[ | | | s | | ] | ];
    intros H; try discriminate. injection H as ->. reflexivity.
Qed.

(** What an accepted question says about the candidate: the answer and the
    options are the candidate's own, there are four options, and the answer
    is one of them. *)
Lemma validate_question_accepted (candidate : Json) (q : QuizQuestion) :
  validate_question candidate = Accepted q ->
  candidate_correct_answer candidate = Some (correct_answer q)
  /\ candidate_options candidate = Some (options q)
  /\ length (options q) = 4
  /\ In (correct_answer q) (options q).
Proof.
  destruct candidate as [ | | | | | members ]; try discriminate.
  unfold validate_question, candidate_correct_answer, candidate_options.
  destruct (optional_string members "question_id") as [qid | ]; [ | discriminate].
  destruct (required_string members "question") as [text | ]; [ | discriminate].
  destruct (required_string_array members "options") as [opts | ]; [ | discriminate].
  cbn [bind].
  destruct (check (length opts =? 4) _) as [[] | ] eqn:Hlen; [ | discriminate].
  destruct (check (distinct opts) _) as [[] | ] eqn:Hdis; [ | discriminate].
  cbn [bind].
  unfold required_string at 1.
  destruct (get_field members "correct_answer") as [[ | | | answer | | ] | ];
    try discriminate.
  cbn [bind].
  destruct (check (member answer opts) _) as [[] | ] eqn:Hmem; [ | discriminate].
  cbn [bind].
  destruct (required_string members "difficulty") as [dlabel | ]; [ | discriminate].
  cbn [bind].
  destruct (coerce_difficulty dlabel) as [d | ]; [ | discriminate].
  destruct (required_string members "bloom_level") as [blabel | ]; [ | discriminate].
  cbn [bind].
  destruct (coerce_bloom_level blabel) as [b | ]; [ | discriminate].
  destruct (required_string members "explanation") as [expl | ]; [ | discriminate].
  cbn [bind]. intros H. injection H as <-. cbn.
  apply check_accepted in Hlen, Hmem.
  repeat split.
  - apply Nat.eqb_eq, Hlen.
  - apply member_In, Hmem.
Qed.

(** C7. A candidate question whose designated correct option is not one of
    its options is answered with a validation failure, whatever its other
    fields are; no question is accepted in its place. *)
Theorem validator_rejects_foreign_answer (candidate : Json) (answer : string)
  (opts : list string) :
  candidate_correct_answer candidate = Some answer ->
  candidate_options candidate = Some opts ->
  ~ In answer opts ->
  (exists e, validate_question candidate = Failure e)
  /\ (forall q, validate_question candidate <> Accepted q).
Proof.
  intros Hanswer Hopts Hnot.
  assert (Hno : forall q, validate_question candidate <> Accepted q).
  { intros q Hq.
    destruct (validate_question_accepted candidate q Hq) as (Ha & Ho & _ & Hin).
    rewrite Hanswer in Ha. rewrite Hopts in Ho.
    injection Ha as ->. injection Ho as ->. exact (Hnot Hin). }
  split; [ | exact Hno].
  destruct (validate_question candidate) as [q | e] eqn:Hv.
  - exfalso. exact (Hno q eq_refl).
  - exists e. reflexivity.
Qed.

Lemma validator_rejects_foreign_answer_witness :
  (exists e, validate_question foreign_answer_question = Failure e)
  /\ (forall q, validate_question foreign_answer_question <> Accepted q).
Proof.
  apply (validator_rejects_foreign_answer foreign_answer_question "7"
           ["3"; "4"; "5"; "6"]); [reflexivity | reflexivity | ].
  cbn. intros [H | [H | [H | [H | []]]]]; discriminate.
Defined.

Example validator_failure_names_the_answer :
  validate_question foreign_answer_question = Failure (CorrectAnswerNotInOptions "7").
Proof. reflexivity. Qed.

(** The question of the end-to-end scenario is accepted, with its labels
    coerced to the enumerations. *)
Example validator_accepts_scenario :
  validate_question scenario_question = Accepted arithmetic_question.
Proof. reflexivity. Qed.

(** The end-to-end scenario: the cascade recovers the array from the raw
    text and the validator accepts its question. *)
Example scenario_end_to_end :
  match validate_json json_loads (fun t => t) (fun t => t) (fun _ => None)
          (fun _ => None) scenario_text with
  | Repaired (JArray [candidate]) => validate_question candidate
  | _ => Failure NotAnObject
  end = Accepted arithmetic_question.
Proof. vm_compute. reflexivity. Qed.

Example validator_coerces_case :
  coerce_difficulty "MEDIUM" = Accepted MEDIUM
  /\ coerce_bloom_level "understand" = Accepted UNDERSTAND
  /\ coerce_difficulty "Med" = Failure (UnknownEnumValue "difficulty" "Med").
Proof. repeat split; reflexivity. Qed.

(** ** Feedback tags *)









(** The panel: open, choose "Too Hard", write a comment, submit. *)
Example panel_sends_selected_type :
  snd (FeedbackPanel.run FeedbackPanel.initial_state
         [FeedbackPanel.ClickProvideFeedback; FeedbackPanel.ClickOption 1;
          FeedbackPanel.EditComments "slower please"; FeedbackPanel.ClickSubmit])
  = [FeedbackPanel.mkRegenerate "too_hard" (Some "slower please")].
Proof. reflexivity. Qed.

(** Nothing selected: the submit button does nothing. *)
Example panel_sends_nothing_unselected :
  snd (FeedbackPanel.run FeedbackPanel.initial_state
         [FeedbackPanel.ClickProvideFeedback; FeedbackPanel.ClickSubmit])
  = [].
Proof. reflexivity. Qed.

(* ===================================================================== *)
(** * Further properties of the code *)
(* ===================================================================== *)

(** ** Grading: bounds, unanswered questions, concatenation *)





Lemma count_correct_all_false fb :
  Forall (fun f => fb_is_correct f = false) fb -> count_correct fb = 0.
Proof.
  unfold count_correct. induction 1 as [ | f fb Hf _ IH ]; cbn; [reflexivity | ].
  rewrite Hf. exact IH.
Qed.

(** X2. A question without an entry in the answer set is read as answered
    with the empty string: when its correct option is not the empty string
    it is marked wrong.  An empty submission to a quiz whose correct options
    are all non-empty is graded 0 with no correct answer. *)
Theorem grade_quiz_unanswered (questions : list QuizQuestion)
  (answers : gmap string string) :
  questions <> [] ->
  Forall (fun q => correct_answer q <> EmptyString) questions ->
  (exists r,
     grade_quiz questions answers = Some r
     /\ Forall2 (fun q f =>
          answers !! question_id q = None ->
          fb_user_answer f = EmptyString /\ fb_is_correct f = false)
        questions (feedback r))
  /\ (exists r0,
        grade_quiz questions ∅ = Some r0
        /\ correct_count r0 = 0 /\ (score r0 == 0)%Q
        /\ Forall (fun f => fb_is_correct f = false) (feedback r0)).
Proof.
  intros Hne Hcorrect.
  assert (Hentry : forall (a : gmap string string) q,
            correct_answer q <> EmptyString -> a !! question_id q = None ->
            fb_user_answer (feedback_entry a q) = EmptyString
            /\ fb_is_correct (feedback_entry a q) = false).
  { intros a q Hq Hnone. cbn. unfold dict_get. rewrite Hnone. cbn.
    split; [reflexivity | ]. destruct (correct_answer q); congruence. }
  split.
  - eexists. split; [apply grade_quiz_unfold, Hne | ]. cbn.
    clear Hne. induction Hcorrect as [ | q questions Hq _ IH ]; cbn [map];
      constructor; [ | exact IH ].
    intros Hnone. apply Hentry; assumption.
  - eexists. split; [apply grade_quiz_unfold, Hne | ]. cbn.
    assert (Hall : Forall (fun f => fb_is_correct f = false)
                     (map (feedback_entry ∅) questions)).
    { apply Forall_map. eapply Forall_impl; [exact Hcorrect | ].
      intros q Hq. apply Hentry; [exact Hq | apply lookup_empty]. }
    rewrite (count_correct_all_false _ Hall).
    split; [reflexivity | ]. split; [ | exact Hall].
    change (inject_Z (Z.of_nat 0)) with 0%Q. unfold Qdiv. ring.
Qed.

Lemma grade_quiz_unanswered_witness :
  exists r0,
    grade_quiz [arithmetic_question] ∅ = Some r0
    /\ correct_count r0 = 0 /\ (score r0 == 0)%Q.
Proof.
  destruct (grade_quiz_unanswered [arithmetic_question] ∅) as (_ & r0 & Hr & Hc & Hs & _).
  - discriminate.
  - repeat constructor. discriminate.
  - exists r0. auto.
Defined.

(** The edge the hypothesis of X2 excludes: a question whose correct option
    is the empty string is marked correct when it is not answered. *)
Example grade_quiz_empty_correct_answer :
  let q := mkQuizQuestion "q1" "?" ["a"; "b"; "c"; EmptyString] EmptyString
             EASY REMEMBER EmptyString in
  (correct_count <$> grade_quiz [q] ∅) = Some 1.
Proof. vm_compute. reflexivity. Qed.

(** X3. Grading the concatenation of two non-empty quizzes against one
    answer set: the feedback is the concatenation of the two feedback
    lists, the counts and totals add up, and the score is the mean of the
    two scores weighted by the numbers of questions. *)
Theorem grade_quiz_app (questions1 questions2 : list QuizQuestion)
  (answers : gmap string string) :
  questions1 <> [] -> questions2 <> [] ->
  exists r1 r2 r,
    grade_quiz questions1 answers = Some r1
    /\ grade_quiz questions2 answers = Some r2
    /\ grade_quiz (questions1 ++ questions2) answers = Some r
    /\ feedback r = feedback r1 ++ feedback r2
    /\ correct_count r = correct_count r1 + correct_count r2
    /\ total r = total r1 + total r2
    /\ (score r * inject_Z (Z.of_nat (total r))
        == score r1 * inject_Z (Z.of_nat (total r1))
           + score r2 * inject_Z (Z.of_nat (total r2)))%Q.
Proof.
  intros H1 H2.
  assert (H12 : questions1 ++ questions2 <> [])
    by (destruct questions1; [congruence | discriminate]).
  eexists _, _, _.
  split; [apply grade_quiz_unfold, H1 | ].
  split; [apply grade_quiz_unfold, H2 | ].
  split; [apply grade_quiz_unfold, H12 | ]. cbn.
  rewrite map_app, count_correct_app, length_app.
  split; [reflexivity | ]. split; [reflexivity | ]. split; [reflexivity | ].
  set (c1 := count_correct (map (feedback_entry answers) questions1)).
  set (c2 := count_correct (map (feedback_entry answers) questions2)).
  assert (Hn1 : ~ (inject_Z (Z.of_nat (length questions1)) == 0)%Q).
  { unfold Qeq. cbn. destruct questions1; [congruence | cbn; lia]. }
  assert (Hn2 : ~ (inject_Z (Z.of_nat (length questions2)) == 0)%Q).
  { unfold Qeq. cbn. destruct questions2; [congruence | cbn; lia]. }
  rewrite !Nat2Z.inj_add, !inject_Z_plus. field.
  split; [exact Hn2 | ]. split; [exact Hn1 | ].
  rewrite <- inject_Z_plus, <- Nat2Z.inj_add. unfold Qeq. cbn.
  destruct questions1; [congruence | cbn; lia].
Qed.

Lemma grade_quiz_app_witness :
  exists r,
    grade_quiz ([arithmetic_question] ++ [arithmetic_question]) {["q1" := "4"]} = Some r
    /\ correct_count r = 2 /\ total r = 2.
Proof.
  destruct (grade_quiz_app [arithmetic_question] [arithmetic_question] {["q1" := "4"]})
    as (r1 & r2 & r & Hr1 & Hr2 & Hr & _ & Hc & Ht & _); try discriminate.
  exists r. split; [exact Hr | ].
  vm_compute in Hr1, Hr2. injection Hr1 as <-. injection Hr2 as <-.
  split; [exact Hc | exact Ht].
Defined.

(** ** Difficulty adaptation: order, round trips, runs *)

(** The tier the function returns, by rank: the three cases of the code. *)
Lemma calculate_new_difficulty_rank (d : Difficulty) (s : Q) :
  exists d',
    calculate_new_difficulty d s = Some d'
    /\ tier_rank d' =
       if Qle_bool 85 s then Nat.min (tier_rank d + 1) 2
       else if Qlt_bool s 50 then tier_rank d - 1
       else tier_rank d.
Proof.
  unfold calculate_new_difficulty.
  destruct (Qle_bool 85 s); [ | destruct (Qlt_bool s 50)];
    destruct d; cbn; eexists; split; reflexivity.
Qed.

Lemma tier_rank_inj (d1 d2 : Difficulty) : tier_rank d1 = tier_rank d2 -> d1 = d2.
Proof. destruct d1, d2; cbn; congruence. Qed.

(** X4. The new tier is monotone: a higher score from a tier that is at
    least as high never gives a lower new tier. *)
Theorem calculate_new_difficulty_monotone (d1 d2 d1' d2' : Difficulty) (s1 s2 : Q) :
  tier_rank d1 <= tier_rank d2 -> (s1 <= s2)%Q ->
  calculate_new_difficulty d1 s1 = Some d1' ->
  calculate_new_difficulty d2 s2 = Some d2' ->
  tier_rank d1' <= tier_rank d2'.
Proof.
  intros Hd Hs H1 H2.
  destruct (calculate_new_difficulty_rank d1 s1) as (e1 & He1 & Hr1).
  destruct (calculate_new_difficulty_rank d2 s2) as (e2 & He2 & Hr2).
  rewrite H1 in He1. rewrite H2 in He2. injection He1 as <-. injection He2 as <-.
  rewrite Hr1, Hr2.
  assert (B : tier_rank d1 <= 2 /\ tier_rank d2 <= 2)
    by (destruct d1, d2; cbn; lia).
  destruct (score_band s1) as [[-> B1] | [(-> & -> & B1) | (-> & -> & B1 & B1')]];
    destruct (score_band s2) as [[-> B2] | [(-> & -> & B2) | (-> & -> & B2 & B2')]];
    try lia; exfalso; lra.
Qed.

Lemma calculate_new_difficulty_monotone_witness :
  tier_rank EASY <= tier_rank HARD.
Proof.
  apply (calculate_new_difficulty_monotone EASY MEDIUM EASY HARD 40 90);
    [cbn; lia | discriminate | reflexivity | reflexivity].
Defined.

(** X5. An advance followed by a regression returns to the tier it started
    from unless that tier is the top one, and a regression followed by an
    advance returns to it unless it is the bottom one; from the top the
    first pair ends one tier lower, from the bottom the second ends one
    tier higher. *)
Theorem calculate_new_difficulty_round_trip (d : Difficulty) (up down : Q) :
  (85 <= up)%Q -> (down < 50)%Q ->
  (calculate_new_difficulty d up ≫= fun d' => calculate_new_difficulty d' down)
  = Some (if decide (d = HARD) then MEDIUM else d)
  /\ (calculate_new_difficulty d down ≫= fun d' => calculate_new_difficulty d' up)
     = Some (if decide (d = EASY) then MEDIUM else d).
Proof.
  intros Hup Hdown. unfold calculate_new_difficulty.
  assert (U : Qle_bool 85 up = true) by (apply Qle_bool_iff, Hup).
  assert (D1 : Qle_bool 85 down = false) by (apply Qle_bool_false_iff; lra).
  assert (D2 : Qlt_bool down 50 = true) by (apply Qlt_bool_iff, Hdown).
  destruct d; cbn; rewrite ?U, ?D1, ?D2; cbn; rewrite ?U, ?D1, ?D2; cbn;
    split; reflexivity.
Qed.

Lemma calculate_new_difficulty_round_trip_witness :
  (calculate_new_difficulty MEDIUM 90 ≫= fun d' => calculate_new_difficulty d' 40)
  = Some MEDIUM.
Proof.
  destruct (calculate_new_difficulty_round_trip MEDIUM 90 40) as [H _];
    [discriminate | reflexivity | exact H].
Defined.

Lemma adapt_difficulty_snoc d scores s :
  adapt_difficulty d (scores ++ [s])
  = default (adapt_difficulty d scores)
      (calculate_new_difficulty (adapt_difficulty d scores) s).
Proof. unfold adapt_difficulty. rewrite foldl_app. reflexivity. Qed.

Lemma adapt_difficulty_cons d s scores :
  adapt_difficulty d (s :: scores)
  = adapt_difficulty (default d (calculate_new_difficulty d s)) scores.
Proof. reflexivity. Qed.

(** One attempt, by rank. *)
Lemma adapt_step_rank (d : Difficulty) (s : Q) :
  tier_rank (default d (calculate_new_difficulty d s)) =
  if Qle_bool 85 s then Nat.min (tier_rank d + 1) 2
  else if Qlt_bool s 50 then tier_rank d - 1
  else tier_rank d.
Proof.
  destruct (calculate_new_difficulty_rank d s) as (d' & -> & Hr). exact Hr.
Qed.

(** X6. Over a run of attempts: scores that are all at least 85 raise the
    tier by one per attempt up to the top one, scores that are all below
    50 lower it by one per attempt down to the bottom one, and scores that
    are all in between leave it as it is.  Two mastery scores in a row reach
    the top tier from anywhere. *)
Theorem adapt_difficulty_runs (d : Difficulty) (scores : list Q) :
  (Forall (fun s => (85 <= s)%Q) scores ->
   tier_rank (adapt_difficulty d scores) = Nat.min (tier_rank d + length scores) 2)
  /\ (Forall (fun s => (s < 50)%Q) scores ->
      tier_rank (adapt_difficulty d scores) = tier_rank d - length scores)
  /\ (Forall (fun s => (50 <= s)%Q /\ (s < 85)%Q) scores ->
      adapt_difficulty d scores = d)
  /\ (Forall (fun s => (85 <= s)%Q) scores -> 2 <= length scores ->
      adapt_difficulty d scores = HARD).
Proof.
  assert (Hup : forall scores d,
            Forall (fun s => (85 <= s)%Q) scores ->
            tier_rank (adapt_difficulty d scores)
            = Nat.min (tier_rank d + length scores) 2).
  { clear. intros scores. induction scores as [ | s scores IH ]; intros d Hall.
    - cbn. destruct d; reflexivity.
    - apply Forall_cons_1 in Hall. destruct Hall as [Hs Hall].
      rewrite adapt_difficulty_cons, (IH _ Hall), adapt_step_rank.
      apply Qle_bool_iff in Hs. rewrite Hs. cbn [length]. lia. }
  assert (Hdown : forall scores d,
            Forall (fun s => (s < 50)%Q) scores ->
            tier_rank (adapt_difficulty d scores) = tier_rank d - length scores).
  { clear. intros scores. induction scores as [ | s scores IH ]; intros d Hall.
    - cbn. lia.
    - apply Forall_cons_1 in Hall. destruct Hall as [Hs Hall].
      rewrite adapt_difficulty_cons, (IH _ Hall), adapt_step_rank.
      assert (H85 : Qle_bool 85 s = false) by (apply Qle_bool_false_iff; lra).
      apply Qlt_bool_iff in Hs. rewrite H85, Hs. cbn [length]. lia. }
  assert (Hmid : forall scores d,
            Forall (fun s => (50 <= s)%Q /\ (s < 85)%Q) scores ->
            adapt_difficulty d scores = d).
  { clear. intros scores. induction scores as [ | s scores IH ]; intros d Hall.
    - reflexivity.
    - apply Forall_cons_1 in Hall. destruct Hall as [[Hlo Hhi] Hall].
      rewrite adapt_difficulty_cons, (IH _ Hall).
      apply tier_rank_inj. rewrite adapt_step_rank.
      assert (H85 : Qle_bool 85 s = false) by (apply Qle_bool_false_iff; lra).
      assert (H50 : Qlt_bool s 50 = false) by (apply Qlt_bool_false_iff; lra).
      rewrite H85, H50. reflexivity. }
  split; [apply Hup | ]. split; [apply Hdown | ]. split; [apply Hmid | ].
  intros Hall Hlen. apply tier_rank_inj. rewrite (Hup _ _ Hall).
  destruct d; cbn; lia.
Qed.

Lemma adapt_difficulty_runs_witness :
  adapt_difficulty EASY [90; 100]%Q = HARD.
Proof.
  destruct (adapt_difficulty_runs EASY [90; 100]%Q) as (_ & _ & _ & H).
  apply H; [ | cbn; lia].
  repeat constructor; discriminate.
Defined.

(** ** Mastery classification: labels and thresholds *)

(** The cases of the classification, read from the label. *)
Lemma mastery_level_cases (best : Q) (attempts : nat) :
  let m := calculate_mastery_level best attempts in
  (level m = "Not Started" <-> attempts = 0)
  /\ (level m = "Mastered" <-> attempts <> 0 /\ (85 <= best)%Q)
  /\ (level m = "Proficient" <-> attempts <> 0 /\ (70 <= best)%Q /\ (best < 85)%Q)
  /\ (level m = "Developing" <-> attempts <> 0 /\ (50 <= best)%Q /\ (best < 70)%Q)
  /\ (level m = "Needs Practice" <-> attempts <> 0 /\ (best < 50)%Q)
  /\ In (level m, color m)
       [("Not Started", "gray"); ("Mastered", "emerald"); ("Proficient", "blue");
        ("Developing", "amber"); ("Needs Practice", "rose")].
Proof.
  unfold calculate_mastery_level.
  destruct attempts as [ | n ]; cbn [Nat.eqb].
  { cbn. repeat split; intros; try congruence; try tauto;
      repeat match goal with H : _ /\ _ |- _ => destruct H end; congruence. }
  destruct (Qle_bool 85 best) eqn:H85;
    [ apply Qle_bool_iff in H85 | apply Qle_bool_false_iff in H85;
      destruct (Qle_bool 70 best) eqn:H70;
      [ apply Qle_bool_iff in H70 | apply Qle_bool_false_iff in H70;
        destruct (Qle_bool 50 best) eqn:H50;
        [ apply Qle_bool_iff in H50 | apply Qle_bool_false_iff in H50 ] ] ];
    cbn; repeat split; intros;
    repeat match goal with H : _ /\ _ |- _ => destruct H end;
    try discriminate; try reflexivity; try lia; try assumption;
    try (exfalso; lra); tauto.
Qed.

(** X7. The label determines the band: from the label of a classification
    one reads back whether there was an attempt and which band the best
    score is in; each label comes with its own colour. *)
Theorem calculate_mastery_level_inverse (best : Q) (attempts : nat) :
  let m := calculate_mastery_level best attempts in
  (level m = "Not Started" <-> attempts = 0)
  /\ (level m = "Mastered" <-> attempts <> 0 /\ (85 <= best)%Q)
  /\ (level m = "Proficient" <-> attempts <> 0 /\ (70 <= best)%Q /\ (best < 85)%Q)
  /\ (level m = "Developing" <-> attempts <> 0 /\ (50 <= best)%Q /\ (best < 70)%Q)
  /\ (level m = "Needs Practice" <-> attempts <> 0 /\ (best < 50)%Q)
  /\ In (level m, color m)
       [("Not Started", "gray"); ("Mastered", "emerald"); ("Proficient", "blue");
        ("Developing", "amber"); ("Needs Practice", "rose")].
Proof. exact (mastery_level_cases best attempts). Qed.

(** X8. The bands of the classification line up with the other thresholds
    of the engine: a lesson with an attempt is "Proficient" or "Mastered"
    exactly when its best score reaches [PASS_THRESHOLD], it is "Mastered"
    exactly when that score advances the difficulty from a tier below the
    top, and it is "Needs Practice" exactly when that score lowers the
    difficulty from a tier above the bottom. *)
Theorem mastery_bands_match_thresholds (best : Q) (attempts : nat) :
  attempts <> 0 ->
  let l := level (calculate_mastery_level best attempts) in
  ((l = "Proficient" \/ l = "Mastered") <-> (PASS_THRESHOLD <= best)%Q)
  /\ (l = "Mastered" <-> calculate_new_difficulty MEDIUM best = Some HARD)
  /\ (l = "Needs Practice" <-> calculate_new_difficulty MEDIUM best = Some EASY).
Proof.
  intros Ha l.
  destruct (mastery_level_cases best attempts)
    as (_ & Hm & Hp & _ & Hn & _).
  fold l in Hm, Hp, Hn. unfold PASS_THRESHOLD, calculate_new_difficulty. cbn.
  destruct (score_band best) as [[-> B] | [(-> & -> & B) | (-> & -> & B & B')]];
    cbn; rewrite Hm, Hp, Hn; repeat split; intros;
    repeat match goal with
           | H : _ /\ _ |- _ => destruct H
           | H : _ \/ _ |- _ => destruct H
           end;
    try discriminate; try assumption; try reflexivity; try lra;
    try (exfalso; lra).
  - right. split; assumption.
  - left. repeat split; assumption.
Qed.

Lemma mastery_bands_match_thresholds_witness :
  level (calculate_mastery_level 90 1) = "Mastered"
  <-> calculate_new_difficulty MEDIUM 90 = Some HARD.
Proof.
  destruct (mastery_bands_match_thresholds 90 1) as (_ & H & _);
    [lia | exact H].
Defined.

(** X9. With an attempt on record the label is monotone in the best score,
    in the order of [mastery_levels]: a higher best score never gives a
    lower label, and no attempt gives the lowest one. *)
Theorem calculate_mastery_level_monotone (b1 b2 : Q) (n1 n2 : nat) :
  n1 <> 0 -> n2 <> 0 -> (b1 <= b2)%Q ->
  exists r0 r1 r2,
    mastery_rank (level (calculate_mastery_level b1 0)) = Some r0
    /\ mastery_rank (level (calculate_mastery_level b1 n1)) = Some r1
    /\ mastery_rank (level (calculate_mastery_level b2 n2)) = Some r2
    /\ r0 < r1 /\ r1 <= r2.
Proof.
  intros H1 H2 Hb. unfold calculate_mastery_level.
  destruct n1 as [ | n1 ]; [congruence | ].
  destruct n2 as [ | n2 ]; [congruence | ]. cbn [Nat.eqb].
  destruct (Qle_bool 85 b1) eqn:A1;
    [ apply Qle_bool_iff in A1 | apply Qle_bool_false_iff in A1;
      destruct (Qle_bool 70 b1) eqn:A2;
      [ apply Qle_bool_iff in A2 | apply Qle_bool_false_iff in A2;
        destruct (Qle_bool 50 b1) eqn:A3;
        [ apply Qle_bool_iff in A3 | apply Qle_bool_false_iff in A3 ] ] ];
  (destruct (Qle_bool 85 b2) eqn:C1;
    [ apply Qle_bool_iff in C1 | apply Qle_bool_false_iff in C1;
      destruct (Qle_bool 70 b2) eqn:C2;
      [ apply Qle_bool_iff in C2 | apply Qle_bool_false_iff in C2;
        destruct (Qle_bool 50 b2) eqn:C3;
        [ apply Qle_bool_iff in C3 | apply Qle_bool_false_iff in C3 ] ] ]);
  try (exfalso; lra);
  cbn; do 3 eexists; repeat split; lia.
Qed.

Lemma calculate_mastery_level_monotone_witness :
  exists r0 r1 r2,
    mastery_rank (level (calculate_mastery_level 40 0)) = Some r0
    /\ mastery_rank (level (calculate_mastery_level 40 1)) = Some r1
    /\ mastery_rank (level (calculate_mastery_level 75 2)) = Some r2
    /\ r0 < r1 /\ r1 <= r2.
Proof.
  apply (calculate_mastery_level_monotone 40 75 1 2); [lia | lia | discriminate].
Defined.

(** ** ProgressBar: the fill follows the value *)

Lemma percentage_finite (v m : Q) :
  (0 < m)%Q ->
  ProgressBar.percentage (JS.Finite v) (Some (JS.Finite m))
  = JS.Finite (Qmin 100 (Qmax 0 (v / m * 100))).
Proof.
  intros Hm.
  assert (Hm0 : JS.Qeq0 m = false).
  { unfold JS.Qeq0. apply not_true_iff_false. rewrite Qeq_bool_iff. lra. }
  unfold ProgressBar.percentage. cbn. rewrite Hm0. reflexivity.
Qed.

Lemma ratio_scale (v m : Q) :
  (0 < m)%Q ->
  (0 < 100 / m)%Q /\ (100 / m * m == 100)%Q /\ (v / m * 100 == 100 / m * v)%Q.
Proof.
  intros Hm. split; [ | split].
  - apply Qlt_shift_div_l; [exact Hm | lra].
  - field. lra.
  - field. lra.
Qed.



(** ** ProgressPage: the bars of the Bloom section *)

Module BloomSection.

Import ProgressStatistics.

Lemma of_nat_le (a b : nat) : a <= b -> (of_nat a <= of_nat b)%Q.
Proof.
  intros H. unfold of_nat. rewrite <- Zle_Qle. lia.
Qed.

Lemma of_nat_pos (a : nat) : 0 < a -> (0 < of_nat a)%Q.
Proof.
  intros H. unfold of_nat. change 0%Q with (inject_Z 0). rewrite <- Zlt_Qlt. lia.
Qed.

Lemma of_nat_inj (a b : nat) : (of_nat a == of_nat b)%Q -> a = b.
Proof.
  unfold of_nat. intros H. apply (proj1 (inject_Z_injective _ _)) in H. lia.
Qed.

Lemma bloom_step_spec level progress module acc l :
  let acc' := bloom_step level progress module acc l in
  acc'.1 = acc.1 + (if String.eqb (CourseData.bloom_level l) level then 1 else 0)
  /\ acc.2 <= acc'.2
  /\ acc'.2 - acc.2 <= acc'.1 - acc.1.
Proof.
  unfold bloom_step.
  destruct (String.eqb (CourseData.bloom_level l) level); cbn [fst snd].
  - destruct (is_completed _); cbn [fst snd]; lia.
  - lia.
Qed.

(** The inner loop on one module: [total] grows by the lessons at the
    level, [completed] by at most as much. *)
Lemma bloom_step_fold level progress module ls acc :
  let acc' := foldl (bloom_step level progress module) acc ls in
  acc'.1 = acc.1
           + length (List.filter
                       (fun l => String.eqb (CourseData.bloom_level l) level) ls)
  /\ acc.2 <= acc'.2
  /\ acc'.2 - acc.2 <= acc'.1 - acc.1.
Proof.
  revert acc. induction ls as [ | l ls IH ]; intros acc; cbn zeta.
  - cbn. lia.
  - cbn [foldl List.filter].
    specialize (IH (bloom_step level progress module acc l)). cbn zeta in IH.
    destruct IH as (I1 & I2 & I3).
    destruct (bloom_step_spec level progress module acc l) as (S1 & S2 & S3).
    destruct (String.eqb (CourseData.bloom_level l) level); cbn [length]; lia.
Qed.

Lemma bloom_counts_fold level progress course acc :
  let acc' :=
    foldl (fun acc module =>
             foldl (bloom_step level progress module) acc (CourseData.lessons module))
          acc course in
  acc'.1 = acc.1 + length (lessons_at level course)
  /\ acc.2 <= acc'.2
  /\ acc'.2 - acc.2 <= acc'.1 - acc.1.
Proof.
  revert acc. induction course as [ | m course IH ]; intros acc; cbn zeta.
  - cbn. lia.
  - cbn [foldl].
    destruct (bloom_step_fold level progress m (CourseData.lessons m) acc)
      as (S1 & S2 & S3).
    specialize (IH (foldl (bloom_step level progress m) acc (CourseData.lessons m))).
    cbn zeta in IH. destruct IH as (I1 & I2 & I3).
    unfold lessons_at in *. cbn [map concat]. rewrite List.filter_app, length_app.
    lia.
Qed.

End BloomSection.

(** X11. For every course, progress object and level, the Bloom section
    counts as [total] the lessons of the course at that level and as
    [completed] at most that many; the percentage it passes to the bar is
    between 0 and 100, and is 100 exactly when there is a lesson at the
    level and all of them are completed; the bar shows that percentage
    unchanged; and the colour it passes ('green' or 'indigo') has no entry
    in the colour table of ProgressBar, so the fill gets no colour class. *)
Theorem bloom_section_bar (level : string) (course : list CourseData.CourseModule)
  (progress : list ProgressData.ModuleEntry) :
  let counts := ProgressStatistics.bloom_counts level course progress in
  let pct := ProgressStatistics.bloom_percentage level course progress in
  counts.1 = length (lessons_at level course)
  /\ counts.2 <= counts.1
  /\ (0 <= pct)%Q /\ (pct <= 100)%Q
  /\ ((pct == 100)%Q <-> 0 < counts.1 /\ counts.2 = counts.1)
  /\ (exists p, ProgressBar.percentage (JS.Finite pct) None = JS.Finite p
                /\ (p == pct)%Q)
  /\ ProgressBarClasses.fill_class
       (Some (ProgressStatistics.bloom_color level course progress)) = None.
Proof.
  intros counts pct.
  destruct (BloomSection.bloom_counts_fold level progress course (0, 0))
    as (H1 & _ & H3).
  cbn zeta in H1, H3. fold (ProgressStatistics.bloom_counts level course progress) in H1, H3.
  fold counts in H1, H3. cbn [fst snd] in H1, H3.
  assert (Hle : counts.2 <= counts.1) by lia.
  assert (Hpct : (0 <= pct)%Q /\ (pct <= 100)%Q
                 /\ ((pct == 100)%Q <-> 0 < counts.1 /\ counts.2 = counts.1)).
  { unfold pct, ProgressStatistics.bloom_percentage. fold counts.
    destruct (Nat.ltb_spec 0 counts.1) as [Hpos | Hzero].
    - pose proof (BloomSection.of_nat_pos _ Hpos) as Ht.
      pose proof (BloomSection.of_nat_le _ _ Hle) as Hc.
      pose proof (BloomSection.of_nat_le 0 _ (Nat.le_0_l counts.2)) as Hc0.
      change (ProgressStatistics.of_nat 0) with 0%Q in Hc0.
      destruct (ratio_scale (ProgressStatistics.of_nat counts.2)
                  (ProgressStatistics.of_nat counts.1) Ht) as (Hk & Hkm & E).
      rewrite E.
      assert (B : (100 / ProgressStatistics.of_nat counts.1
                   * ProgressStatistics.of_nat counts.2 <= 100)%Q).
      { rewrite <- Hkm at 2. apply Qmult_le_l; assumption. }
      split; [ | split; [exact B | ] ].
      + apply Qmult_le_0_compat; lra.
      + split.
        * intros Heq. split; [exact Hpos | ].
          apply BloomSection.of_nat_inj.
          assert (Heq' : (100 / ProgressStatistics.of_nat counts.1
                          * ProgressStatistics.of_nat counts.2
                          == 100 / ProgressStatistics.of_nat counts.1
                             * ProgressStatistics.of_nat counts.1)%Q)
            by (rewrite Hkm; exact Heq).
          apply Qmult_inj_l in Heq'; [exact Heq' | lra].
        * intros [_ Heq]. rewrite Heq. exact Hkm.
    - split; [lra | ]. split; [lra | ]. split.
      + intros Heq. exfalso. revert Heq. discriminate.
      + intros [Hpos _]. lia. }
  destruct Hpct as (P0 & P100 & Piff).
  split; [exact H1 | ]. split; [exact Hle | ].
  split; [exact P0 | ]. split; [exact P100 | ]. split; [exact Piff | ].
  split.
  - exists (Qmin 100 (Qmax 0 (pct / 100 * 100))). split.
    + apply (percentage_finite pct 100). reflexivity.
    + assert (E : (pct / 100 * 100 == pct)%Q) by (field; discriminate).
      rewrite E. rewrite Q.max_r by exact P0. rewrite Q.min_r by exact P100.
      reflexivity.
  - unfold ProgressStatistics.bloom_color.
    destruct (Qeq_bool _ 100); vm_compute; reflexivity.
Qed.

(** ** ProgressPage: the statistics cards *)

Module StatisticsLemmas.

Import ProgressStatistics.

Lemma foldl_Qplus (l : list Q) (a : Q) :
  (foldl (fun s score => s + score) a l == a + Qsum l)%Q.
Proof.
  revert a. unfold Qsum.
  induction l as [ | x l IH ]; intros a; cbn [foldl fold_right].
  - ring.
  - rewrite IH. ring.
Qed.

Lemma Qsum_app (l1 l2 : list Q) : (Qsum (l1 ++ l2) == Qsum l1 + Qsum l2)%Q.
Proof.
  unfold Qsum. induction l1 as [ | x l1 IH ]; cbn [app fold_right].
  - ring.
  - rewrite IH. ring.
Qed.

(** The numerator of [avgScore] is the sum of the positive best scores. *)
Lemma score_sum_spec (progress : list ProgressData.ModuleEntry) :
  (score_sum progress == Qsum (concat (map scores progress)))%Q.
Proof.
  unfold score_sum.
  assert (G : forall a,
             (foldl (fun sum m => sum + foldl (fun s score => s + score) 0 (scores m))
                    a progress
              == a + Qsum (concat (map scores progress)))%Q).
  { induction progress as [ | m progress IH ]; intros a; cbn [foldl map concat].
    - cbn. ring.
    - rewrite IH, Qsum_app, foldl_Qplus. ring. }
  rewrite G. ring.
Qed.

Lemma completedLessons_spec (progress : list ProgressData.ModuleEntry) :
  completedLessons progress
  = length (List.filter ProgressData.completed
              (concat (map ProgressData.lessons progress))).
Proof.
  unfold completedLessons.
  assert (G : forall a,
             foldl (fun sum m =>
                      sum + length (List.filter ProgressData.completed
                                      (ProgressData.lessons m))) a progress
             = a + length (List.filter ProgressData.completed
                             (concat (map ProgressData.lessons progress)))).
  { induction progress as [ | m progress IH ]; intros a; cbn [foldl map concat].
    - cbn. lia.
    - rewrite IH, List.filter_app, length_app. lia. }
  rewrite G. lia.
Qed.

Lemma scores_positive (m : ProgressData.ModuleEntry) :
  Forall (fun s => (0 < s)%Q) (scores m).
Proof.
  unfold scores. induction (ProgressData.lessons m) as [ | l ls IH ]; cbn.
  - constructor.
  - destruct (Qlt_bool 0 (ProgressData.best_score l)) eqn:E; [ | exact IH].
    cbn. constructor; [apply Qlt_bool_iff, E | exact IH].
Qed.

Lemma scores_bounded (m : ProgressData.ModuleEntry) (b : Q) :
  Forall (fun l => (ProgressData.best_score l <= b)%Q) (ProgressData.lessons m) ->
  Forall (fun s => (s <= b)%Q) (scores m).
Proof.
  unfold scores. induction 1 as [ | l ls Hl Hls IH ]; cbn.
  - constructor.
  - destruct (Qlt_bool 0 (ProgressData.best_score l)); [ | exact IH].
    cbn. constructor; assumption.
Qed.

Lemma Forall_concat {A : Type} (P : A -> Prop) (ls : list (list A)) :
  Forall (Forall P) ls -> Forall P (concat ls).
Proof.
  induction 1 as [ | l ls Hl Hls IH ]; cbn.
  - constructor.
  - apply Forall_app. split; assumption.
Qed.

Lemma Qsum_bounds (l : list Q) (b : Q) :
  Forall (fun s => (0 < s)%Q) l ->
  ((0 <= Qsum l)%Q)
  /\ (Forall (fun s => (s <= b)%Q) l -> (Qsum l <= b * of_nat (length l))%Q).
Proof.
  induction 1 as [ | x l Hx Hl [IH0 IHb] ]; cbn [Qsum fold_right length].
  - split; [lra | ]. intros _. change (of_nat 0) with 0%Q. lra.
  - fold (Qsum l). split; [lra | ].
    intros Hb. apply Forall_cons_1 in Hb. destruct Hb as [Hxb Hb].
    specialize (IHb Hb).
    assert (E : (of_nat (S (length l)) == of_nat (length l) + 1)%Q).
    { unfold of_nat. rewrite Nat2Z.inj_succ, <- Z.add_1_r, inject_Z_plus.
      reflexivity. }
    rewrite E. lra.
Qed.

Lemma or_one_pos (n : nat) : 0 < or_one n /\ n <= or_one n.
Proof. unfold or_one. destruct n; cbn; lia. Qed.

End StatisticsLemmas.

(** X12. The "Average Score" card of ProgressPage divides the sum of the
    positive best scores by the number of completed lessons (by 1 when
    there is none), not by the number of scored lessons.  It is never
    negative; it is the mean of the positive best scores when the scored
    lessons are as many as the completed ones; with best scores up to 100
    it stays within 100 when no more lessons are scored than completed;
    and when no lesson is completed it is the plain sum of the positive
    best scores. *)
Theorem avgScore_spec (progress : list ProgressData.ModuleEntry) :
  (0 <= ProgressStatistics.avgScore progress)%Q
  /\ (0 < scored_lessons progress ->
      scored_lessons progress = ProgressStatistics.completedLessons progress ->
      (ProgressStatistics.avgScore progress
       == Qsum (concat (map ProgressStatistics.scores progress))
          / ProgressStatistics.of_nat (scored_lessons progress))%Q)
  /\ (Forall (fun m => Forall (fun l => (ProgressData.best_score l <= 100)%Q)
                         (ProgressData.lessons m)) progress ->
      scored_lessons progress <= ProgressStatistics.completedLessons progress ->
      (ProgressStatistics.avgScore progress <= 100)%Q)
  /\ (ProgressStatistics.completedLessons progress = 0 ->
      (ProgressStatistics.avgScore progress
       == Qsum (concat (map ProgressStatistics.scores progress)))%Q).
Proof.
  unfold ProgressStatistics.avgScore, scored_lessons.
  pose proof (StatisticsLemmas.score_sum_spec progress) as Hsum.
  destruct (StatisticsLemmas.or_one_pos (ProgressStatistics.completedLessons progress))
    as [Hpos Hge].
  pose proof (BloomSection.of_nat_pos _ Hpos) as Hden.
  assert (Hall : Forall (fun s => (0 < s)%Q)
                   (concat (map ProgressStatistics.scores progress))).
  { apply StatisticsLemmas.Forall_concat. apply Forall_map.
    apply Forall_true. intros m. apply StatisticsLemmas.scores_positive. }
  destruct (StatisticsLemmas.Qsum_bounds _ 100 Hall) as [H0 Hb].
  rewrite Hsum.
  split; [ | split; [ | split] ].
  - apply Qle_shift_div_l; [exact Hden | lra].
  - intros Hs Heq. rewrite <- Heq.
    unfold ProgressStatistics.or_one.
    destruct (Nat.eqb_spec (length (concat (map ProgressStatistics.scores progress))) 0)
      as [E | _]; [lia | reflexivity].
  - intros Hle Hcount.
    assert (Hall' : Forall (fun s => (s <= 100)%Q)
                      (concat (map ProgressStatistics.scores progress))).
    { apply StatisticsLemmas.Forall_concat. apply Forall_map.
      eapply Forall_impl; [exact Hle | ].
      intros m Hm. apply StatisticsLemmas.scores_bounded, Hm. }
    specialize (Hb Hall').
    apply Qle_shift_div_r; [exact Hden | ].
    pose proof (BloomSection.of_nat_le _ _ (Nat.le_trans _ _ _ Hcount Hge)) as Hn.
    lra.
  - intros Hz. rewrite Hz.
    change (ProgressStatistics.of_nat (ProgressStatistics.or_one 0)) with 1%Q.
    field.
Qed.

(** On [two_failed_lessons] the card shows 120. *)
Lemma avgScore_spec_witness :
  (ProgressStatistics.avgScore two_failed_lessons == 120)%Q.
Proof.
  destruct (avgScore_spec two_failed_lessons) as (_ & _ & _ & H).
  rewrite H; reflexivity.
Defined.

(** ** ProgressPage: the mastery distribution *)

Module MasteryCountLemmas.

Import JS.










End MasteryCountLemmas.


Lemma Qeq0_of_nat (n : nat) : JS.Qeq0 (ProgressStatistics.of_nat n) = (n =? 0).
Proof.
  unfold JS.Qeq0. destruct n as [ | n ]; [reflexivity | ].
  apply not_true_iff_false. rewrite Qeq_bool_iff.
  pose proof (BloomSection.of_nat_pos (S n) (Nat.lt_0_succ n)). cbn [Nat.eqb]. lra.
Qed.

Lemma Qneg_of_nat (n : nat) : JS.Qneg (ProgressStatistics.of_nat n) = false.
Proof.
  unfold JS.Qneg. apply Qlt_bool_false_iff.
  pose proof (BloomSection.of_nat_le 0 n (Nat.le_0_l n)) as H.
  exact H.
Qed.

(** The height by cases on the number of lessons. *)
Lemma bar_height_cases (count totalLessons : nat) :
  (0 < totalLessons ->
   exists h,
     ProgressStatistics.bar_height (JS.Finite (ProgressStatistics.of_nat count))
       totalLessons = JS.Finite h
     /\ (h == Qmax 20 (ProgressStatistics.of_nat count
                       / ProgressStatistics.of_nat totalLessons * 100))%Q
     /\ (20 <= h)%Q
     /\ (count <= totalLessons -> (h <= 100)%Q))
  /\ (totalLessons = 0 ->
      ProgressStatistics.bar_height (JS.Finite (ProgressStatistics.of_nat count))
        totalLessons
      = if count =? 0 then JS.NaN else JS.Infinity false)
  /\ ProgressStatistics.bar_height JS.NaN totalLessons = JS.NaN.
Proof.
  unfold ProgressStatistics.bar_height. split; [ | split].
  - intros Hpos.
    pose proof (BloomSection.of_nat_pos _ Hpos) as Ht.
    exists (Qmax 20 (ProgressStatistics.of_nat count
                     / ProgressStatistics.of_nat totalLessons * 100)).
    split; [ | split; [reflexivity | split] ].
    + cbn [JS.div]. rewrite Qeq0_of_nat.
      destruct (Nat.eqb_spec totalLessons 0) as [E | _]; [lia | ]. reflexivity.
    + apply Q.le_max_l.
    + intros Hle. apply Q.max_lub; [discriminate | ].
      destruct (ratio_scale (ProgressStatistics.of_nat count)
                  (ProgressStatistics.of_nat totalLessons) Ht) as (Hk & Hkm & E).
      rewrite E. rewrite <- Hkm at 2. apply Qmult_le_l; [exact Hk | ].
      apply BloomSection.of_nat_le, Hle.
  - intros ->. cbn [JS.div].
    change (JS.Qeq0 (ProgressStatistics.of_nat 0)) with true. cbn match.
    rewrite Qeq0_of_nat. destruct (count =? 0); [reflexivity | ].
    rewrite Qneg_of_nat. reflexivity.
  - reflexivity.
Qed.

Lemma totalLessons_spec (course : list CourseData.CourseModule) :
  ProgressStatistics.totalLessons course = length (course_items course).
Proof.
  unfold ProgressStatistics.totalLessons, course_items.
  assert (G : forall a,
             foldl (fun sum m => sum + length (CourseData.lessons m)) a course
             = a + length (concat (map (fun md => map (fun les => LessonPage.mkItem les md)
                                                   (CourseData.lessons md)) course))).
  { induction course as [ | m course IH ]; intros a; cbn [foldl map concat].
    - cbn. lia.
    - rewrite IH, length_app, length_map. lia. }
  rewrite G. lia.
Qed.

(** X14. The height of a bar of the mastery distribution, with
    [totalLessons] counted over the course.  For a course with lessons and
    a counter that is a count, the height is the finite number
    max(20, count / totalLessons * 100): at least 20, and at most 100 when
    the count does not exceed the number of lessons.  For a course without
    lessons the height is NaN for a zero counter and Infinity for a
    positive one; a NaN counter gives a NaN height. *)
Theorem bar_height_spec (course : list CourseData.CourseModule) (count : nat) :
  let totalLessons := ProgressStatistics.totalLessons course in
  totalLessons = length (course_items course)
  /\ (course_items course <> [] ->
      exists h,
        ProgressStatistics.bar_height (JS.Finite (ProgressStatistics.of_nat count))
          totalLessons = JS.Finite h
        /\ (h == Qmax 20 (ProgressStatistics.of_nat count
                          / ProgressStatistics.of_nat totalLessons * 100))%Q
        /\ (20 <= h)%Q
        /\ (count <= totalLessons -> (h <= 100)%Q))
  /\ (course_items course = [] ->
      ProgressStatistics.bar_height (JS.Finite (ProgressStatistics.of_nat count))
        totalLessons
      = if count =? 0 then JS.NaN else JS.Infinity false)
  /\ ProgressStatistics.bar_height JS.NaN totalLessons = JS.NaN.
Proof.
  intros totalLessons.
  pose proof (totalLessons_spec course) as Htotal. fold totalLessons in Htotal.
  destruct (bar_height_cases count totalLessons) as (Hpos & Hzero & Hnan).
  split; [exact Htotal | ]. split; [ | split; [ | exact Hnan] ].
  - intros Hne. apply Hpos. rewrite Htotal.
    destruct (course_items course); [congruence | cbn; lia].
  - intros Hnil. apply Hzero. rewrite Htotal, Hnil. reflexivity.
Qed.

Lemma bar_height_spec_witness :
  exists h,
    ProgressStatistics.bar_height (JS.Finite (ProgressStatistics.of_nat 1))
      (ProgressStatistics.totalLessons sample_course)
    = JS.Finite h /\ (20 <= h)%Q.
Proof.
  destruct (bar_height_spec sample_course 1) as (_ & H & _).
  destruct H as (h & Hh & _ & H20 & _); [discriminate | ].
  exists h. auto.
Defined.

(** ** QuizPage: what every sequence of events preserves *)

Module QuizPageLemmas.

Import QuizPage.


Lemma view_ResultView (st : State) (r : QuizResult) (questions : list QuizQuestion) :
  view st = ResultView r questions -> quiz st = Some questions /\ result st = Some r.
Proof.
  unfold view.
  destruct (isLoading st), (error st), (quiz st), (result st);
    intros H; inversion H; auto.
Qed.










End QuizPageLemmas.





(** ** QuizPage: the explanations of the result view *)

Module ExplanationLemmas.

Import QuizPage.

Lemma shown_insert (m : gmap string bool) (k id : string) (b : bool) :
  shown (<[k := b]> m) id = if String.eqb k id then b else shown m id.
Proof.
  unfold shown. destruct (String.eqb_spec k id) as [-> | Hne].
  - rewrite lookup_insert_eq. reflexivity.
  - rewrite lookup_insert_ne by exact Hne. reflexivity.
Qed.

Lemma foldl_mark_shown (fbs : list Feedback) (acc : gmap string bool) (id : string) :
  shown (foldl (fun shown fb => <[fb_question_id fb := true]> shown) acc fbs) id
  = shown acc id || existsb (fun fb => String.eqb (fb_question_id fb) id) fbs.
Proof.
  revert acc. induction fbs as [ | fb fbs IH ]; intros acc; cbn [foldl existsb].
  - rewrite orb_false_r. reflexivity.
  - rewrite IH, shown_insert.
    destruct (String.eqb (fb_question_id fb) id); cbn;
      [rewrite orb_true_r | ]; reflexivity.
Qed.

(** What [handleShowExplanations] stores, for any feedback list: an
    explanation is shown under an identifier exactly when some entry with
    that identifier is not correct. *)
Lemma explanationsToShow_shown (fbs : list Feedback) (id : string) :
  shown (explanationsToShow fbs) id
  = existsb (fun fb => negb (fb_is_correct fb) && String.eqb (fb_question_id fb) id)
      fbs.
Proof.
  unfold explanationsToShow. rewrite foldl_mark_shown.
  unfold shown at 1. rewrite lookup_empty. cbn [default orb].
  induction fbs as [ | fb fbs IH ]; cbn [List.filter existsb]; [reflexivity | ].
  destruct (fb_is_correct fb); cbn [negb existsb andb orb]; rewrite IH; reflexivity.
Qed.

End ExplanationLemmas.

(** X17. "I need more explanation" on the feedback of a graded quiz: for a
    quiz whose question identifiers are distinct, after
    [handleShowExplanations] the explanation of a question is shown exactly
    when the submitted answer (the empty string for an unanswered question)
    differs from the correct answer. *)
Theorem explanations_after_grading (questions : list QuizQuestion)
  (answers : gmap string string) (r : GradeResult) (q : QuizQuestion) :
  List.NoDup (map question_id questions) ->
  grade_quiz questions answers = Some r ->
  In q questions ->
  QuizPage.shown (QuizPage.explanationsToShow (feedback r)) (question_id q)
  = negb (String.eqb (dict_get answers (question_id q)) (correct_answer q)).
Proof.
  intros Hnd Hgrade Hq.
  assert (Hne : questions <> []) by (destruct questions; [destruct Hq | congruence]).
  rewrite (grade_quiz_unfold questions answers Hne) in Hgrade.
  injection Hgrade as <-. cbn [feedback].
  rewrite ExplanationLemmas.explanationsToShow_shown.
  clear Hne. induction questions as [ | q0 questions IH ]; [destruct Hq | ].
  cbn [map] in Hnd. apply List.NoDup_cons_iff in Hnd. destruct Hnd as [Hnotin Hnd].
  cbn [map existsb feedback_entry fb_is_correct fb_question_id].
  destruct Hq as [-> | Hq].
  - rewrite String.eqb_refl, andb_true_r.
    destruct (negb _) eqn:E; [reflexivity | ]. cbn [orb].
    apply not_true_iff_false. intros Hex. apply existsb_exists in Hex.
    destruct Hex as (fb & Hfb & Hcond). apply in_map_iff in Hfb.
    destruct Hfb as (q' & <- & Hq'). cbn in Hcond.
    apply andb_true_iff in Hcond. destruct Hcond as [_ Hid].
    apply String.eqb_eq in Hid. apply Hnotin. rewrite <- Hid. apply in_map, Hq'.
  - destruct (String.eqb_spec (question_id q0) (question_id q)) as [Heq | _].
    + exfalso. apply Hnotin. rewrite Heq. apply in_map, Hq.
    + rewrite andb_false_r. cbn [orb]. apply IH; assumption.
Qed.

Lemma explanations_after_grading_witness :
  QuizPage.shown
    (QuizPage.explanationsToShow
       (feedback (mkGradeResult (0 / 1 * 100) 0 1
                    (map (feedback_entry ∅) [arithmetic_question]))))
    (question_id arithmetic_question)
  = negb (String.eqb (dict_get ∅ (question_id arithmetic_question))
            (correct_answer arithmetic_question)).
Proof.
  apply (explanations_after_grading [arithmetic_question] ∅
           (mkGradeResult (0 / 1 * 100) 0 1
              (map (feedback_entry ∅) [arithmetic_question]))
           arithmetic_question);
    [ constructor; [intros [] | constructor]
    | vm_compute; reflexivity
    | left; reflexivity ].
Defined.

(** X18. [toggleExplanation] flips what is shown under its identifier and
    nothing else, so toggling twice shows what was shown before, under
    every identifier; the stored object is not restored (an identifier that
    was missing is then stored as false). *)
Theorem toggleExplanation_involution (m : gmap string bool) (id id' : string) :
  QuizPage.shown (QuizPage.toggle id m) id' =
    (if String.eqb id id' then negb (QuizPage.shown m id') else QuizPage.shown m id')
  /\ QuizPage.shown (QuizPage.toggle id (QuizPage.toggle id m)) id'
     = QuizPage.shown m id'
  /\ QuizPage.toggle id (QuizPage.toggle id m) !! id = Some (QuizPage.shown m id).
Proof.
  unfold QuizPage.toggle. rewrite !ExplanationLemmas.shown_insert.
  rewrite String.eqb_refl, lookup_insert_eq, negb_involutive.
  destruct (String.eqb id id') eqn:E.
  - apply String.eqb_eq in E. subst id'. auto.
  - auto.
Qed.

(** ** QuizPage: the score card *)

(** X19. The score card of the result view uses the bands of the mastery
    classification: for every score, its background is the class that the
    colour table of ProgressBar holds under the mastery colour of a lesson
    with that best score and an attempt, and its headline goes with the
    mastery label band by band. *)
Theorem scoreColor_matches_mastery (r : QuizPage.QuizResult) (attempts : nat) :
  attempts <> 0 ->
  let m := calculate_mastery_level (QuizPage.score r) attempts in
  ProgressBarClasses.colorClasses !! color m = Some (QuizPage.scoreColor r)
  /\ In (level m, QuizPage.headline r)
       [("Mastered", "Excellent!"); ("Proficient", "Great Job!");
        ("Developing", "Good Effort!"); ("Needs Practice", "Keep Practicing!")].
Proof.
  intros Ha. unfold calculate_mastery_level, QuizPage.scoreColor, QuizPage.headline.
  destruct attempts as [ | n ]; [congruence | ]. cbn [Nat.eqb].
  destruct (Qle_bool 85 (QuizPage.score r));
    [ | destruct (Qle_bool 70 (QuizPage.score r));
        [ | destruct (Qle_bool 50 (QuizPage.score r)) ] ];
    (split; [vm_compute; reflexivity | cbn; tauto]).
Qed.

Lemma scoreColor_matches_mastery_witness :
  ProgressBarClasses.colorClasses
    !! color (calculate_mastery_level
                (QuizPage.score (QuizPage.mkQuizResult 90 3 3 true false [])) 1)
  = Some (QuizPage.scoreColor (QuizPage.mkQuizResult 90 3 3 true false [])).
Proof.
  destruct (scoreColor_matches_mastery (QuizPage.mkQuizResult 90 3 3 true false []) 1)
    as [H _]; [lia | exact H].
Defined.

(** ** LessonPage: the neighbours of a lesson *)

Module LessonPageLemmas.

Import LessonPage.

Lemma In_imap_offset {A : Type} (l : list A) (k i : nat) (x : A) :
  In (i, x) (imap (fun j y => (k + j, y)) l) ->
  exists j, i = k + j /\ l !! j = Some x.
Proof.
  revert k. induction l as [ | y l IH ]; intros k H; cbn in H; [destruct H | ].
  destruct H as [H | H].
  - injection H as <- <-. exists 0. split; [lia | reflexivity].
  - assert (E : imap ((fun j y => (k + j, y)) ∘ S) l
                = imap (fun j y => (S k + j, y)) l).
    { apply imap_ext. intros j z _. cbn. f_equal. lia. }
    rewrite E in H. destruct (IH _ H) as (j & -> & Hj).
    exists (S j). split; [lia | exact Hj].
Qed.

Lemma In_indexed {A : Type} (l : list A) (i : nat) (x : A) :
  In (i, x) (indexed l) -> l !! i = Some x.
Proof.
  intros H. destruct (In_imap_offset l 0 i x H) as (j & -> & Hj). exact Hj.
Qed.

Lemma map_snd_imap {A : Type} (f : nat -> nat) (l : list A) :
  map snd (imap (fun j y => (f j, y)) l) = l.
Proof.
  revert f. induction l as [ | y l IH ]; intros f; cbn; [reflexivity | ].
  f_equal. apply (IH (f ∘ S)).
Qed.

Lemma map_snd_indexed {A : Type} (l : list A) : map snd (indexed l) = l.
Proof. apply (map_snd_imap (fun j => j)). Qed.

(** The inner loop pushes one item per lesson, in order. *)
Lemma scan_lesson_items lessonId mIdx md entries acc :
  allLessons (foldl (scan_lesson lessonId mIdx md) acc entries)
  = allLessons acc ++ map (fun les => mkItem les md) (map snd entries).
Proof.
  revert acc. induction entries as [ | [lIdx les] entries IH ]; intros acc;
    cbn [foldl map snd].
  - rewrite app_nil_r. reflexivity.
  - rewrite IH. unfold scan_lesson.
    destruct (String.eqb _ _); cbn [allLessons]; rewrite <- app_assoc; reflexivity.
Qed.

Lemma scan_items_from lessonId entries acc :
  allLessons
    (foldl (fun acc entry =>
              let '(mIdx, md) := entry in
              foldl (scan_lesson lessonId mIdx md) acc
                (indexed (CourseData.lessons md)))
           acc entries)
  = allLessons acc ++ course_items (map snd entries).
Proof.
  revert acc. induction entries as [ | [mIdx md] entries IH ]; intros acc;
    cbn [foldl map snd].
  - unfold course_items. cbn. rewrite app_nil_r. reflexivity.
  - rewrite IH, scan_lesson_items, map_snd_indexed.
    unfold course_items. cbn [map concat]. rewrite <- app_assoc. reflexivity.
Qed.

(** [allLessons] is the list of the lessons of the course in reading
    order. *)
Lemma scan_items lessonId course :
  allLessons (scan lessonId course) = course_items course.
Proof.
  unfold scan. rewrite scan_items_from, map_snd_indexed. reflexivity.
Qed.

(** [findIndex]: the first match, or -1. *)
Lemma findIndex_from_spec {A : Type} (p : A -> bool) (l : list A) (i : Z) :
  (findIndex_from p l i = (-1)%Z /\ Forall (fun x => p x = false) l)
  \/ (exists k x, findIndex_from p l i = (i + Z.of_nat k)%Z
                  /\ l !! k = Some x /\ p x = true
                  /\ Forall (fun y => p y = false) (take k l)).
Proof.
  revert i. induction l as [ | y l IH ]; intros i; cbn [findIndex_from].
  - left. split; [reflexivity | constructor].
  - destruct (p y) eqn:E.
    + right. exists 0, y. cbn. repeat split; [lia | exact E | constructor].
    + destruct (IH (i + 1)%Z) as [[H1 H2] | (k & x & H1 & H2 & H3 & H4)].
      * left. split; [exact H1 | constructor; assumption].
      * right. exists (S k), x. cbn. repeat split; try assumption; [lia | ].
        constructor; assumption.
Qed.

Lemma NoDup_lookup_eq (ids : list string) (i j : nat) (x : string) :
  List.NoDup ids -> ids !! i = Some x -> ids !! j = Some x -> i = j.
Proof.
  intros Hnd. apply NoDup_ListNoDup in Hnd. intros Hi Hj.
  eapply NoDup_lookup; eassumption.
Qed.

(** With distinct identifiers the index found for the identifier of the
    item at position [k] is [k]. *)
Lemma currentIndex_at course (k : nat) (it : Item) :
  List.NoDup (course_lesson_ids course) ->
  course_items course !! k = Some it ->
  currentIndex (CourseData.lesson_id (lesson it)) course = Z.of_nat k.
Proof.
  intros Hnd Hk. unfold currentIndex, findIndex. rewrite scan_items.
  destruct (findIndex_from_spec
              (fun item => String.eqb (CourseData.lesson_id (lesson item))
                             (CourseData.lesson_id (lesson it)))
              (course_items course) 0)
    as [[_ Hall] | (j & x & -> & Hj & Hp & _)].
  - exfalso. rewrite List.Forall_forall in Hall.
    assert (Hin : In it (course_items course))
      by (apply list_elem_of_In; eapply list_elem_of_lookup_2, Hk).
    specialize (Hall it Hin). cbn in Hall. rewrite String.eqb_refl in Hall.
    discriminate.
  - apply String.eqb_eq in Hp.
    assert (E : j = k).
    { apply (NoDup_lookup_eq (course_lesson_ids course) j k (CourseData.lesson_id (lesson it)) Hnd).
      - unfold course_lesson_ids. rewrite list_lookup_fmap, Hj. cbn. f_equal. exact Hp.
      - unfold course_lesson_ids. rewrite list_lookup_fmap, Hk. reflexivity. }
    subst j. lia.
Qed.

(** The neighbours computed for the item at position [k]. *)
Lemma navigation_at course (k : nat) (it : Item) :
  List.NoDup (course_lesson_ids course) ->
  course_items course !! k = Some it ->
  prevLesson (CourseData.lesson_id (lesson it)) course
  = (if k =? 0 then None else course_items course !! (k - 1))
  /\ nextLesson (CourseData.lesson_id (lesson it)) course = course_items course !! (k + 1).
Proof.
  intros Hnd Hk. unfold prevLesson, nextLesson.
  rewrite (currentIndex_at course k it Hnd Hk), scan_items. cbn zeta.
  pose proof (lookup_lt_Some _ _ _ Hk) as Hlt.
  split.
  - destruct (Z.ltb_spec 0 (Z.of_nat k)) as [Hpos | Hzero].
    + destruct (Nat.eqb_spec k 0) as [-> | _]; [lia | ].
      unfold at_index. destruct (Z.ltb_spec (Z.of_nat k - 1) 0) as [Hneg | _]; [lia | ].
      f_equal. lia.
    + destruct (Nat.eqb_spec k 0) as [_ | Hne]; [reflexivity | lia].
  - destruct (Z.ltb_spec (Z.of_nat k) (Z.of_nat (length (course_items course)) - 1))
      as [Hin | Hlast].
    + unfold at_index. destruct (Z.ltb_spec (Z.of_nat k + 1) 0) as [Hneg | _]; [lia | ].
      f_equal. lia.
    + symmetry. apply lookup_ge_None. lia.
Qed.

Lemma In_ids_lookup course lessonId :
  In lessonId (course_lesson_ids course) ->
  exists k it, course_items course !! k = Some it /\ CourseData.lesson_id (lesson it) = lessonId.
Proof.
  intros H. unfold course_lesson_ids in H. apply in_map_iff in H.
  destruct H as (it & Hid & Hin). apply list_elem_of_In, list_elem_of_lookup_1 in Hin.
  destruct Hin as [k Hk]. exists k, it. auto.
Qed.

End LessonPageLemmas.

(** X20. Previous and Next of LessonPage, for a course whose lesson
    identifiers are distinct and a lesson of the course: following Next and
    then Previous, or Previous and then Next, comes back to the lesson;
    there is no Previous exactly for the first lesson of the course and no
    Next exactly for the last one. *)
Theorem lesson_navigation_round_trip (course : list CourseData.CourseModule)
  (lessonId : string) :
  List.NoDup (course_lesson_ids course) ->
  In lessonId (course_lesson_ids course) ->
  (forall n, LessonPage.nextLesson lessonId course = Some n ->
     exists cur,
       LessonPage.prevLesson (CourseData.lesson_id (LessonPage.lesson n)) course
       = Some cur
       /\ CourseData.lesson_id (LessonPage.lesson cur) = lessonId)
  /\ (forall p, LessonPage.prevLesson lessonId course = Some p ->
        exists cur,
          LessonPage.nextLesson (CourseData.lesson_id (LessonPage.lesson p)) course
          = Some cur
          /\ CourseData.lesson_id (LessonPage.lesson cur) = lessonId)
  /\ (LessonPage.prevLesson lessonId course = None
      <-> head (course_lesson_ids course) = Some lessonId)
  /\ (LessonPage.nextLesson lessonId course = None
      <-> last (course_lesson_ids course) = Some lessonId).
Proof.
  intros Hnd Hin.
  destruct (LessonPageLemmas.In_ids_lookup course lessonId Hin) as (k & it & Hk & <-).
  destruct (LessonPageLemmas.navigation_at course k it Hnd Hk) as [Hprev Hnext].
  pose proof (lookup_lt_Some _ _ _ Hk) as Hlt.
  assert (Hidk : course_lesson_ids course !! k
                 = Some (CourseData.lesson_id (LessonPage.lesson it))).
  { unfold course_lesson_ids. rewrite list_lookup_fmap, Hk. reflexivity. }
  split; [ | split; [ | split] ].
  - intros n Hn. rewrite Hnext in Hn.
    destruct (LessonPageLemmas.navigation_at course (k + 1) n Hnd Hn) as [Hp _].
    exists it. rewrite Hp.
    destruct (Nat.eqb_spec (k + 1) 0) as [E | _]; [lia | ].
    replace (k + 1 - 1) with k by lia. auto.
  - intros p Hp. rewrite Hprev in Hp.
    destruct (Nat.eqb_spec k 0) as [_ | Hne]; [discriminate | ].
    destruct (LessonPageLemmas.navigation_at course (k - 1) p Hnd Hp) as [_ Hn].
    exists it. rewrite Hn. replace (k - 1 + 1) with k by lia. auto.
  - rewrite Hprev. rewrite head_lookup. split.
    + destruct (Nat.eqb_spec k 0) as [-> | Hne]; [intros _; exact Hidk | ].
      intros Hnone. apply lookup_ge_None in Hnone. lia.
    + intros Hhead.
      assert (E : 0 = k)
        by (eapply LessonPageLemmas.NoDup_lookup_eq; eassumption).
      subst k. reflexivity.
  - rewrite Hnext. rewrite last_lookup. split.
    + intros Hnone. apply lookup_ge_None in Hnone.
      assert (E : length (course_lesson_ids course) = length (course_items course))
        by (unfold course_lesson_ids; apply length_map).
      rewrite E. replace (Nat.pred (length (course_items course))) with k by lia.
      exact Hidk.
    + intros Hlast.
      assert (E : length (course_lesson_ids course) = length (course_items course))
        by (unfold course_lesson_ids; apply length_map).
      assert (E' : Nat.pred (length (course_lesson_ids course)) = k)
        by (eapply LessonPageLemmas.NoDup_lookup_eq; eassumption).
      apply lookup_ge_None. lia.
Qed.

Lemma lesson_navigation_round_trip_witness :
  exists cur,
    LessonPage.nextLesson "l2" sample_course = Some cur
    /\ CourseData.lesson_id (LessonPage.lesson cur) = "l3".
Proof.
  destruct (lesson_navigation_round_trip sample_course "l3") as (_ & H & _).
  - apply NoDup_ListNoDup, (bool_decide_unpack _). vm_compute. reflexivity.
  - cbn. tauto.
  - apply (H (LessonPage.mkItem (CourseData.mkLesson "l2" "Sums" "Understand")
                (CourseData.mkCourseModule "m1" "Basics"
                   [CourseData.mkLesson "l1" "Numbers" "Remember";
                    CourseData.mkLesson "l2" "Sums" "Understand"]))).
    reflexivity.
Defined.

Module ScanLessonLemmas.

Import LessonPage.

Lemma foldl_invariant {A B : Type} (P : A -> Prop) (f : A -> B -> A) (l : list B)
  (a : A) :
  P a -> (forall a x, In x l -> P a -> P (f a x)) -> P (foldl f a l).
Proof.
  revert a. induction l as [ | x l IH ]; intros a Ha Hstep; cbn [foldl].
  - exact Ha.
  - apply IH.
    + apply Hstep; [left; reflexivity | exact Ha].
    + intros a' y Hy. apply Hstep. right. exact Hy.
Qed.

Lemma scan_lesson_located course lessonId mIdx md s lIdx les :
  course !! mIdx = Some md ->
  CourseData.lessons md !! lIdx = Some les ->
  located course lessonId s ->
  located course lessonId (scan_lesson lessonId mIdx md s (lIdx, les)).
Proof.
  intros Hmd Hles Hs. unfold scan_lesson.
  destruct (String.eqb_spec (CourseData.lesson_id les) lessonId) as [Heq | Hne].
  - unfold located. cbn. exists mIdx, lIdx, md. auto 10.
  - unfold located in *. cbn [foundLesson foundModule moduleIndex lessonIndex allLessons].
    destruct (foundLesson s); [exact Hs | ].
    destruct Hs as [Hm Hall]. split; [exact Hm | ].
    apply Forall_app. split; [exact Hall | ].
    constructor; [exact Hne | constructor].
Qed.

Lemma scan_located course lessonId :
  located course lessonId (scan lessonId course).
Proof.
  unfold scan. apply foldl_invariant.
  - unfold located. cbn. split; [reflexivity | constructor].
  - intros s [mIdx md] Hmd Hs. apply LessonPageLemmas.In_indexed in Hmd.
    apply foldl_invariant; [exact Hs | ].
    intros s' [lIdx les] Hles Hs'. apply LessonPageLemmas.In_indexed in Hles.
    apply scan_lesson_located; assumption.
Qed.

End ScanLessonLemmas.

(** X21. What [loadData] of LessonPage locates.  When the course has a
    lesson with the requested identifier, the lesson and module it finds
    and the two indices it sends to [trackLessonAccess] agree: the module
    is the one at the module index, the lesson the one at the lesson index
    in that module, and the lesson has the requested identifier.  When the
    course has no such lesson, nothing is found, no access is tracked,
    there is no previous lesson, and the next lesson is set to the first
    lesson of the course. *)
Theorem lesson_lookup (course : list CourseData.CourseModule) (lessonId : string) :
  let s := LessonPage.scan lessonId course in
  (In lessonId (course_lesson_ids course) ->
   exists mi li md les,
     LessonPage.tracked lessonId course = Some (Z.of_nat mi, Z.of_nat li)
     /\ course !! mi = Some md
     /\ CourseData.lessons md !! li = Some les
     /\ CourseData.lesson_id les = lessonId
     /\ LessonPage.foundLesson s = Some les
     /\ LessonPage.foundModule s = Some md)
  /\ (~ In lessonId (course_lesson_ids course) ->
      LessonPage.foundLesson s = None
      /\ LessonPage.tracked lessonId course = None
      /\ LessonPage.prevLesson lessonId course = None
      /\ LessonPage.nextLesson lessonId course = head (course_items course)).
Proof.
  intros s. pose proof (ScanLessonLemmas.scan_located course lessonId) as Hloc.
  fold s in Hloc. unfold located in Hloc.
  pose proof (LessonPageLemmas.scan_items lessonId course) as Hitems. fold s in Hitems.
  split.
  - intros Hin. destruct (LessonPage.foundLesson s) as [les | ] eqn:Hfound.
    + destruct Hloc as (mi & li & md & Hm & Hmi & Hli & Hcm & Hcl & Hid).
      exists mi, li, md, les. repeat split; try assumption.
      unfold LessonPage.tracked. fold s. rewrite Hfound, Hm, Hmi, Hli.
      destruct (Z.leb_spec 0 (Z.of_nat mi)) as [_ | H]; [ | lia].
      destruct (Z.leb_spec 0 (Z.of_nat li)) as [_ | H]; [ | lia].
      reflexivity.
    + exfalso. destruct Hloc as [_ Hall]. rewrite Hitems in Hall.
      unfold course_lesson_ids in Hin. apply in_map_iff in Hin.
      destruct Hin as (it & Hid & Hit).
      rewrite List.Forall_forall in Hall. exact (Hall it Hit Hid).
  - intros Hnot.
    assert (Hfound : LessonPage.foundLesson s = None).
    { destruct (LessonPage.foundLesson s) as [les | ]; [ | reflexivity].
      exfalso. destruct Hloc as (mi & li & md & _ & _ & _ & Hcm & Hcl & Hid).
      apply Hnot. unfold course_lesson_ids, course_items.
      apply in_map_iff. exists (LessonPage.mkItem les md). split; [exact Hid | ].
      apply in_concat. exists (map (fun les => LessonPage.mkItem les md)
                                 (CourseData.lessons md)).
      split.
      - apply in_map_iff. exists md. split; [reflexivity | ].
        apply list_elem_of_In. eapply list_elem_of_lookup_2, Hcm.
      - apply (in_map (fun l => LessonPage.mkItem l md)).
        apply list_elem_of_In. eapply list_elem_of_lookup_2, Hcl. }
    assert (Hcur : LessonPage.currentIndex lessonId course = (-1)%Z).
    { unfold LessonPage.currentIndex, LessonPage.findIndex. fold s. rewrite Hitems.
      destruct (LessonPageLemmas.findIndex_from_spec
                  (fun item => String.eqb (CourseData.lesson_id (LessonPage.lesson item))
                                 lessonId) (course_items course) 0)
        as [[H _] | (k & x & _ & Hk & Hp & _)]; [exact H | ].
      exfalso. apply Hnot. apply String.eqb_eq in Hp.
      unfold course_lesson_ids. apply in_map_iff. exists x. split; [exact Hp | ].
      apply list_elem_of_In. eapply list_elem_of_lookup_2, Hk. }
    split; [exact Hfound | ]. split; [ | split].
    + unfold LessonPage.tracked. fold s. rewrite Hfound. reflexivity.
    + unfold LessonPage.prevLesson. rewrite Hcur. reflexivity.
    + unfold LessonPage.nextLesson. rewrite Hcur. fold s. rewrite Hitems. cbn zeta.
      destruct (course_items course) as [ | it items ]; [reflexivity | ].
      destruct (Z.ltb_spec (-1) (Z.of_nat (length (it :: items)) - 1)) as [_ | H].
      * reflexivity.
      * cbn [length] in H. lia.
Qed.

Lemma lesson_lookup_witness :
  LessonPage.nextLesson "missing" sample_course = head (course_items sample_course).
Proof.
  destruct (lesson_lookup sample_course "missing") as [_ H].
  destruct H as (_ & _ & _ & H); [ | exact H].
  cbn. intuition discriminate.
Defined.

(** ** HomePage: where "Continue" leads *)

Module RouteLemmas.

Lemma path_matches_length (pattern : list App.Segment) (path : list string) :
  App.path_matches pattern path = true -> length pattern = length path.
Proof.
  revert path. induction pattern as [ | seg pattern IH ]; intros [ | s path ] H;
    cbn in H; try discriminate; [reflexivity | ].
  apply andb_true_iff in H. destruct H as [_ H]. cbn. f_equal. apply IH, H.
Qed.

Lemma string_of_uint_digits (u : Decimal.uint) :
  Forall is_digit (list_ascii_of_string (NilEmpty.string_of_uint u)).
Proof.
  induction u as [ | u IH | u IH | u IH | u IH | u IH | u IH | u IH | u IH | u IH | u IH ];
    cbn [NilEmpty.string_of_uint list_ascii_of_string].
  1: constructor.
  all: apply List.Forall_cons;
    [unfold is_digit; split; apply Nat.leb_le; reflexivity | exact IH].
Qed.

(** A rendered number is never the word "quiz", whatever the case. *)
Lemma decimal_not_quiz (n : nat) :
  String.eqb (lower "quiz") (lower (HomePage.decimal n)) = false.
Proof.
  apply String.eqb_neq. intros H. change (lower "quiz") with "quiz" in H.
  unfold lower, HomePage.decimal in H.
  pose proof (string_of_uint_digits (Nat.to_uint n)) as Hd.
  destruct (list_ascii_of_string (NilEmpty.string_of_uint (Nat.to_uint n)))
    as [ | c l ]; cbn in H; [discriminate | ].
  injection H as Hc _. apply Forall_cons_1 in Hd. destruct Hd as [[Hlo Hhi] _].
  unfold to_lower in Hc.
  destruct (Nat.leb_spec 65 (nat_of_ascii c)) as [H65 | _]; [lia | ].
  cbn in Hc. subst c. apply Nat.leb_le in Hhi. discriminate Hhi.
Qed.

Lemma filter_none {A : Type} (p : A -> bool) (l : list A) :
  (forall x, In x l -> p x = false) -> List.filter p l = [].
Proof.
  induction l as [ | x l IH ]; intros H; cbn; [reflexivity | ].
  rewrite (H x) by (left; reflexivity). apply IH. intros y Hy. apply H. right. exact Hy.
Qed.

Lemma find_is_Some {A : Type} (p : A -> bool) (l : list A) (x : A) :
  In x l -> p x = true -> is_Some (List.find p l).
Proof.
  intros Hin Hp. destruct (List.find p l) eqn:E; [eexists; reflexivity | ].
  pose proof (List.find_none p l E x Hin) as Hf. congruence.
Qed.

Lemma omap_length_le {A B : Type} (f : A -> option B) (l : list A) :
  length (omap f l) <= length l.
Proof.
  induction l as [ | x l IH ]; cbn; [lia | ].
  destruct (f x); cbn; lia.
Qed.

End RouteLemmas.

(** X22. The resume section of HomePage renders at most three buttons,
    each for a course of the list and a progress entry of that course; the
    location such a button navigates to,
    /course/<id>/lesson/<module index>/<lesson index>, matches no route of
    App, while the link of the course's card, /course/<id>, leads to
    CoursePage when the identifier is not empty. *)
Theorem resume_continue_unrouted (progressData : list HomePage.ProgressSummary)
  (courses : list HomePage.CourseSummary) :
  length (HomePage.resume_buttons progressData courses) <= 3
  /\ forall courseId,
       In courseId (HomePage.resume_buttons progressData courses) ->
       is_Some (HomePage.getProgressForCourse progressData courseId)
       /\ App.element_for (HomePage.handleContinue progressData courseId) = None
       /\ exists course,
            In course courses /\ HomePage.id course = courseId
            /\ (courseId <> "" ->
                App.element_for (HomePage.card_link course) = Some "CoursePage").
Proof.
  split.
  - unfold HomePage.resume_buttons.
    etransitivity; [apply RouteLemmas.omap_length_le | ]. rewrite length_take. lia.
  - intros courseId Hin. unfold HomePage.resume_buttons in Hin.
    apply list_elem_of_In, list_elem_of_omap in Hin.
    destruct Hin as (progress & Hp & Hf).
    destruct (List.find _ courses) as [course | ] eqn:Hfind; [ | discriminate].
    injection Hf as Hid. apply List.find_some in Hfind. destruct Hfind as [Hc Heq].
    apply String.eqb_eq in Heq.
    assert (Hsome : is_Some (HomePage.getProgressForCourse progressData courseId)).
    { apply (RouteLemmas.find_is_Some _ _ progress).
      - apply list_elem_of_In. eapply subseteq_take, Hp.
      - apply String.eqb_eq, Hid. }
    split; [exact Hsome | ]. split.
    + unfold HomePage.handleContinue. destruct Hsome as [p' ->].
      unfold App.element_for, App.matching.
      rewrite RouteLemmas.filter_none; [reflexivity | ].
      intros route Hroute. unfold App.routes in Hroute. cbn [In] in Hroute.
      repeat (destruct Hroute as [<- | Hroute]);
        try (apply not_true_iff_false; intros H;
             apply RouteLemmas.path_matches_length in H; discriminate H);
        [ | destruct Hroute].
      cbn [fst App.path_matches App.segment_matches].
      rewrite RouteLemmas.decimal_not_quiz. rewrite !andb_false_r. reflexivity.
    + exists course. split; [exact Hc | ]. split; [congruence | ].
      intros Hne. unfold HomePage.card_link.
      assert (E : String.eqb (HomePage.id course) "" = false)
        by (apply String.eqb_neq; congruence).
      unfold App.element_for, App.matching, App.routes.
      cbn [List.filter fst App.path_matches App.segment_matches].
      rewrite E. rewrite ?andb_false_r.
      change (String.eqb (lower "course") (lower "course")) with true.
      cbn. reflexivity.
Qed.

Lemma resume_continue_unrouted_witness :
  App.element_for (HomePage.handleContinue resume_progress "c1") = None.
Proof.
  destruct (resume_continue_unrouted resume_progress resume_courses) as [_ H].
  destruct (H "c1") as (_ & Hnone & _); [left; reflexivity | exact Hnone].
Defined.

(** ** AuthContext and api.js: one token *)

Module AuthLemmas.

Import AuthContext.

Lemma mount_in_sync (storage : gmap string string) :
  token_in_sync (mount (initial storage)).
Proof.
  unfold token_in_sync, mount, initial. cbn.
  destruct (truthy (storage !! TOKEN_KEY)) eqn:E; cbn; rewrite ?E; reflexivity.
Qed.

Lemma call_in_sync (st : State) (c : Call) :
  token_in_sync st -> token_in_sync (call st c).
Proof.
  intros _. destruct c as [newToken | ]; unfold token_in_sync; cbn.
  - rewrite lookup_insert_eq. destruct (negb (String.eqb newToken "")) eqn:E.
    + reflexivity.
    + cbn. exact E.
  - rewrite lookup_delete_eq. reflexivity.
Qed.

Lemma run_in_sync (storage : gmap string string) (calls : list Call) :
  token_in_sync (run storage calls).
Proof.
  unfold run. generalize (mount_in_sync storage).
  generalize (mount (initial storage)).
  induction calls as [ | c calls IH ]; intros st Hst; cbn [foldl].
  - exact Hst.
  - apply IH, call_in_sync, Hst.
Qed.

End AuthLemmas.

(** X23. AuthContext and api.js read the token from two places (the
    provider's state and localStorage).  After the provider has mounted,
    over any storage and after any sequence of login and logout calls, they
    agree: a request made by [fetchApi] without headers of its own carries
    an Authorization header exactly when [isAuthenticated()] holds, the
    header is "Bearer " followed by the provider's token, and the
    Content-Type header is always application/json. *)
Theorem authorization_header_in_sync (storage : gmap string string)
  (calls : list AuthContext.Call) :
  let st := AuthContext.run storage calls in
  let sent := Api.headers (AuthContext.localStorage st) ∅ in
  (is_Some (sent !! "Authorization") <-> AuthContext.isAuthenticated st = true)
  /\ (forall t, AuthContext.isAuthenticated st = true ->
        AuthContext.token st = Some t ->
        sent !! "Authorization" = Some (String.append "Bearer " t))
  /\ sent !! "Content-Type" = Some "application/json".
Proof.
  intros st sent. pose proof (AuthLemmas.run_in_sync storage calls) as Hsync.
  fold st in Hsync. unfold token_in_sync in Hsync.
  unfold sent, Api.headers, Api.defaultHeaders, Api.getToken,
    AuthContext.isAuthenticated.
  rewrite (left_id_L ∅ (∪)).
  destruct (AuthContext.truthy (AuthContext.token st)) eqn:Htok.
  - rewrite Hsync. destruct (AuthContext.token st) as [t | ] eqn:Et; [ | discriminate].
    rewrite Htok. split; [ | split].
    + split; [reflexivity | ]. intros _. rewrite lookup_insert_eq. eexists; reflexivity.
    + intros t' _ [= <-]. apply lookup_insert_eq.
    + rewrite lookup_insert_ne by discriminate. apply lookup_insert_eq.
  - destruct (AuthContext.localStorage st !! AuthContext.TOKEN_KEY) as [s | ] eqn:Es.
    + rewrite Hsync. split; [ | split].
      * split; [ | discriminate]. intros [v Hv].
        rewrite lookup_insert_ne in Hv by discriminate.
        rewrite lookup_empty in Hv. discriminate.
      * discriminate.
      * apply lookup_insert_eq.
    + split; [ | split].
      * split; [ | discriminate]. intros [v Hv].
        rewrite lookup_insert_ne in Hv by discriminate.
        rewrite lookup_empty in Hv. discriminate.
      * discriminate.
      * apply lookup_insert_eq.
Qed.

Lemma authorization_header_in_sync_witness :
  Api.headers
    (AuthContext.localStorage (AuthContext.run ∅ [AuthContext.Login "abc"])) ∅
    !! "Authorization"
  = Some (String.append "Bearer " "abc").
Proof.
  destruct (authorization_header_in_sync ∅ [AuthContext.Login "abc"]) as (_ & H & _).
  apply H; reflexivity.
Defined.

(** ** The badges and the enumerations of the data model *)


(** ** CourseGenerator: what the form submits *)

Module TrimLemmas.

Import CourseGenerator.







End TrimLemmas.

Module CourseGeneratorLemmas.

Import CourseGenerator.



End CourseGeneratorLemmas.


(** ** HomePage: deleting a course *)

Module DeleteLemmas.

Import HomePage.


End DeleteLemmas.

